(** * SEC EDGAR full-text-search scraper (src/edgar.py): a shallow embedding

    The development follows the layout of [src/edgar.py]:

    - Python values used by the scraper (byte strings, dates, exceptions);
    - [urllib.parse.quote], [quote_plus] and [urlencode] as far as the
      request encoder uses them;
    - [_generate_request_args], the query encoder;
    - the browser driver as a sequence of page loads, and a state-and-exception
      monad for the methods of [SecEdgarScraper];
    - [_generate_search_requests], the recursive partitioner;
    - [_parse_table_rows], [_fetch_search_request_results],
      [write_results_to_csv] and [custom_text_search].

    A Python [str] is represented by the bytes of its UTF-8 encoding, a
    [datetime.date] by its proleptic Gregorian ordinal ([date.toordinal()]),
    a Python [int] by [Z]. *)

From Stdlib Require Import ZArith List String Ascii Bool Lia.
From Stdlib Require Import DecimalString DecimalZ DecimalPos.
Import ListNotations.

Local Open Scope string_scope.
Local Open Scope Z_scope.

(** ** Exceptions and fallible results *)

Inductive exn : Type :=
| ValueError
| IndexError
| KeyError
| OverflowError
| AttributeError
| PageCheckFailedError
| ResultsTableNotFoundError
| OtherException (tag : nat).

Inductive result (A : Type) : Type :=
| Ok (a : A)
| Raise (e : exn).
Arguments Ok {A} a.
Arguments Raise {A} e.

(** ** Python string operations *)

Module PyStr.

(** [sep.join(parts)] *)
Fixpoint join (sep : string) (parts : list string) : string :=
  match parts with
  | [] => ""
  | p :: rest =>
      match rest with
      | [] => p
      | _ :: _ => p ++ sep ++ join sep rest
      end
  end.

(** [s.replace(c, "")] for a one-character [c] *)
Fixpoint remove_char (c : ascii) (s : string) : string :=
  match s with
  | EmptyString => EmptyString
  | String a s' =>
      if Ascii.eqb a c then remove_char c s' else String a (remove_char c s')
  end.

(** [s.replace(c, d)] for one-character [c] and [d] *)
Fixpoint replace_char (c d : ascii) (s : string) : string :=
  match s with
  | EmptyString => EmptyString
  | String a s' =>
      String (if Ascii.eqb a c then d else a) (replace_char c d s')
  end.

(** [c in s] *)
Fixpoint contains_char (c : ascii) (s : string) : bool :=
  match s with
  | EmptyString => false
  | String a s' => Ascii.eqb a c || contains_char c s'
  end.

(** [s.split(c)] with an explicit one-character separator: every
    occurrence of [c] separates two (possibly empty) fields. *)
Fixpoint split_on (c : ascii) (s : string) : list string :=
  match s with
  | EmptyString => [EmptyString]
  | String a s' =>
      if Ascii.eqb a c then EmptyString :: split_on c s'
      else match split_on c s' with
           | [] => [String a EmptyString]
           | h :: t => String a h :: t
           end
  end.

(** [s.lstrip(c)], [s.rstrip(c)] and [s.strip(c)] for a one-character set *)
Fixpoint lstrip (c : ascii) (s : string) : string :=
  match s with
  | EmptyString => EmptyString
  | String a s' => if Ascii.eqb a c then lstrip c s' else s
  end.

Fixpoint rstrip (c : ascii) (s : string) : string :=
  match s with
  | EmptyString => EmptyString
  | String a s' =>
      match rstrip c s' with
      | EmptyString => if Ascii.eqb a c then EmptyString else String a EmptyString
      | r => String a r
      end
  end.

Definition strip (c : ascii) (s : string) : string := rstrip c (lstrip c s).

(** [str(n)] for an [int] *)
Definition str_of_int (n : Z) : string := NilZero.string_of_int (Z.to_int n).

(** substring test, [needle in s] *)
Fixpoint is_infix (needle s : string) : bool :=
  String.prefix needle s ||
  match s with
  | EmptyString => false
  | String _ s' => is_infix needle s'
  end.

End PyStr.

(** ** [urllib.parse]: percent-encoding *)

Module Urllib.

Definition in_range (lo hi : nat) (a : ascii) : bool :=
  let n := nat_of_ascii a in (lo <=? n)%nat && (n <=? hi)%nat.

(** [_ALWAYS_SAFE]: letters, digits and [_.-~] *)
Definition always_safe (a : ascii) : bool :=
  in_range 65 90 a || in_range 97 122 a || in_range 48 57 a ||
  Ascii.eqb a "_" || Ascii.eqb a "." || Ascii.eqb a "-" || Ascii.eqb a "~".

Definition hex_digit (n : nat) : ascii :=
  if (n <? 10)%nat then ascii_of_nat (48 + n) else ascii_of_nat (55 + n).

(** ['%{:02X}'.format(b)] *)
Definition percent (a : ascii) : string :=
  let n := nat_of_ascii a in
  String "%" (String (hex_digit (n / 16)) (String (hex_digit (n mod 16)) EmptyString)).

(** [quote_from_bytes(bs, safe)]: bytes in [_ALWAYS_SAFE] or [safe] are
    kept, every other byte becomes [%XX]. *)
Fixpoint quote_from_bytes (safe : ascii -> bool) (s : string) : string :=
  match s with
  | EmptyString => EmptyString
  | String a s' =>
      (if always_safe a || safe a then String a EmptyString else percent a)
      ++ quote_from_bytes safe s'
  end.

Definition no_safe (_ : ascii) : bool := false.
Definition safe_slash (a : ascii) : bool := Ascii.eqb a "/".
Definition safe_space (a : ascii) : bool := Ascii.eqb a " ".

(** [quote(string)], default [safe='/'] *)
Definition quote (s : string) : string := quote_from_bytes safe_slash s.

(** [quote_plus(string, safe='')] as [urlencode] calls it *)
Definition quote_plus (s : string) : string :=
  if negb (PyStr.contains_char " " s) then quote_from_bytes no_safe s
  else PyStr.replace_char " " "+" (quote_from_bytes safe_space s).

(** [urlencode(query)] for a dict given as its items in insertion order,
    values already converted with [str]. *)
Definition urlencode (items : list (string * string)) : string :=
  PyStr.join "&" (map (fun kv => quote_plus (fst kv) ++ "=" ++ quote_plus (snd kv)) items).

End Urllib.

(** ** [datetime.date]

    A date is its proleptic Gregorian ordinal (1 is 0001-01-01); date
    comparison and [date +/- timedelta] are those of the ordinal, as in
    CPython's [datetime] module. [_ord2ymd] and [_ymd2ord] are the two
    conversions of that module. *)

Module Datetime.

Definition date := Z.

Definition MINORDINAL : Z := 1.
Definition MAXORDINAL : Z := 3652059.   (* date(9999, 12, 31).toordinal() *)

Definition valid_date (d : date) : Prop := MINORDINAL <= d <= MAXORDINAL.

Definition _DI400Y : Z := 146097.
Definition _DI100Y : Z := 36524.
Definition _DI4Y : Z := 1461.

Definition _DAYS_IN_MONTH (m : Z) : Z :=
  match m with
  | 1 => 31 | 2 => 28 | 3 => 31 | 4 => 30 | 5 => 31 | 6 => 30
  | 7 => 31 | 8 => 31 | 9 => 30 | 10 => 31 | 11 => 30 | 12 => 31
  | _ => -1
  end.

Definition _DAYS_BEFORE_MONTH (m : Z) : Z :=
  match m with
  | 1 => 0 | 2 => 31 | 3 => 59 | 4 => 90 | 5 => 120 | 6 => 151
  | 7 => 181 | 8 => 212 | 9 => 243 | 10 => 273 | 11 => 304 | 12 => 334
  | _ => -1
  end.

Definition _is_leap (year : Z) : bool :=
  (year mod 4 =? 0) && (negb (year mod 100 =? 0) || (year mod 400 =? 0)).

Definition _days_before_year (year : Z) : Z :=
  let y := year - 1 in y * 365 + y / 4 - y / 100 + y / 400.

Definition b2z (b : bool) : Z := if b then 1 else 0.

Definition _days_before_month (year month : Z) : Z :=
  _DAYS_BEFORE_MONTH month + b2z ((2 <? month) && _is_leap year).

Definition _ymd2ord (ymd : Z * Z * Z) : Z :=
  let '(year, month, day) := ymd in
  _days_before_year year + _days_before_month year month + day.

(** the month and day of the [n]-th day (from 0) of a year *)
Definition month_day (leapyear : bool) (n : Z) : Z * Z :=
  let month := Z.shiftr (n + 50) 5 in
  let preceding := _DAYS_BEFORE_MONTH month + b2z ((2 <? month) && leapyear) in
  if n <? preceding then
    let month' := month - 1 in
    let preceding' :=
      preceding - (_DAYS_IN_MONTH month' + b2z ((month' =? 2) && leapyear)) in
    (month', n - preceding' + 1)
  else (month, n - preceding + 1).

Definition _ord2ymd (n0 : Z) : Z * Z * Z :=
  let n := n0 - 1 in
  let n400 := n / _DI400Y in
  let n := n mod _DI400Y in
  let year := n400 * 400 + 1 in
  let n100 := n / _DI100Y in
  let n := n mod _DI100Y in
  let n4 := n / _DI4Y in
  let n := n mod _DI4Y in
  let n1 := n / 365 in
  let n := n mod 365 in
  let year := year + n100 * 100 + n4 * 4 + n1 in
  if (n1 =? 4) || (n100 =? 4) then (year - 1, 12, 31)
  else
    let leapyear := (n1 =? 3) && (negb (n4 =? 24) || (n100 =? 3)) in
    let '(month, day) := month_day leapyear n in
    (year, month, day).

Definition digit (n : Z) : ascii := ascii_of_nat (48 + Z.to_nat (n mod 10)).

Definition pad2 (n : Z) : string :=
  String (digit (n / 10)) (String (digit n) EmptyString).

Definition pad4 (n : Z) : string :=
  String (digit (n / 1000)) (String (digit (n / 100)) (pad2 n)).

(** [d.strftime("%Y-%m-%d")], the year zero-padded to four digits. From
    the year 1000 on this is what [%Y] writes on every platform; below
    it the C library decides whether the year is padded, and the
    statements on the text of a date carry that bound. *)
Definition strftime_Ymd (d : date) : string :=
  let '(y, m, dd) := _ord2ymd d in
  pad4 y ++ "-" ++ pad2 m ++ "-" ++ pad2 dd.

(** [(e - s).days] *)
Definition days_between (s e : date) : Z := e - s.

(** [d + timedelta(days=n)]; out of the range of [date] it raises *)
Definition add_days (d : date) (n : Z) : result date :=
  let o := d + n in
  if (MINORDINAL <=? o) && (o <=? MAXORDINAL) then Ok o else Raise OverflowError.

End Datetime.

(** ** The query encoder, [_generate_request_args] *)

Definition BASE_URL : string := "https://www.sec.gov/edgar/search/#/".

Definition FILING_CATEGORIES_MAPPING : list (string * string) :=
  [ ("all_except_section_16", "form-cat0");
    ("all_annual_quarterly_and_current_reports", "form-cat1");
    ("all_section_16", "form-cat2");
    ("beneficial_ownership_reports", "form-cat3");
    ("exempt_offerings", "form-cat4");
    ("registration_statements", "form-cat5");
    ("filing_review_correspondence", "form-cat6");
    ("sec_orders_and_notices", "form-cat7");
    ("proxy_materials", "form-cat8");
    ("tender_offers_and_going_private_tx", "form-cat9");
    ("trust_indentures", "form-cat10") ].

Definition DEFAULT_BATCHES_NUMBER : Z := 2.

(** [d[k]] on a dict given by its items *)
Fixpoint dict_get (d : list (string * string)) (k : string) : result string :=
  match d with
  | [] => Raise KeyError
  | (k', v) :: d' => if String.eqb k' k then Ok v else dict_get d' k
  end.

(** truth value of an [Optional[str]]: [None] and [""] are false *)
Definition truthy (o : option string) : bool :=
  match o with
  | None => false
  | Some s => negb (String.eqb s "")
  end.

Definition dquote : ascii := "034"%char.

(** The search criteria of a harvest, the first four parameters of every
    method of the scraper. *)
Record criteria : Type := mkCriteria {
  search_keywords : list string;
  entity_identifier : option string;
  filing_category : option string;
  exact_search : bool
}.

Definition search_phrase (c : criteria) : string :=
  let joined := PyStr.join " " (search_keywords c) in
  if exact_search c then String dquote joined ++ String dquote EmptyString
  else joined.

Definition _generate_request_args (c : criteria)
    (start_date end_date : Datetime.date) (page_number : Z) : result string :=
  if end_date <? start_date then Raise ValueError
  else
    let request_args :=
      [ ("q", Urllib.quote (search_phrase c));
        ("dateRange", "custom");
        ("startdt", Datetime.strftime_Ymd start_date);
        ("enddt", Datetime.strftime_Ymd end_date);
        ("page", PyStr.str_of_int page_number) ] in
    let request_args :=
      if truthy (entity_identifier c) then
        (request_args ++
           [("entityName", match entity_identifier c with Some s => s | None => "" end)])%list
      else request_args in
    match (if truthy (filing_category c) then
             match dict_get FILING_CATEGORIES_MAPPING
                     (match filing_category c with Some s => s | None => "" end) with
             | Ok code => Ok (request_args ++ [("category", code)])%list
             | Raise e => Raise e
             end
           else Ok request_args) with
    | Ok request_args => Ok (Urllib.urlencode request_args)
    | Raise e => Raise e
    end.

(** ** The page source behind the browser driver

    [fetch_page] and [extract_html_table_rows] live in [src/browser.py]
    and drive a Selenium session. The driver is modelled by what the
    scraper can observe of it: the [n]-th call of [fetch_page] either
    raises or leaves a verified page loaded, and a loaded page shows a
    result-count text and a results table. *)

(** the [a] element below [file-num] *)
Record file_link : Type := mkFileLink {
  link_innerText : string;
  link_href : option string
}.

(** the [preview-file] element below [filetype] *)
Record preview_link : Type := mkPreview {
  attr_data_adsh : option string;
  attr_data_file_name : option string
}.

Record filetype_cell : Type := mkFiletype {
  filetype_text : string;
  filetype_preview : option preview_link
}.

(** one [tr] of the results table; [None] is a sub-element that
    [find_element] does not find *)
Record table_row : Type := mkRow {
  el_file_num_link : option file_link;
  el_filetype : option filetype_cell;
  el_cik : option string;
  el_filed : option string;
  el_enddate : option string;
  el_entity_name : option string;
  el_biz_location : option string;
  el_incorporated : option string;
  el_film_num : option string
}.

Record page : Type := mkPage {
  (** [find_element(By.ID, "show-result-count").text], or what it raises *)
  show_result_count : result string;
  (** the rows [extract_html_table_rows] hands to the parser, or what it raises *)
  results_table : result (list table_row)
}.

Inductive page_load : Type :=
| Load_raises (e : exn)
| Loaded (p : page).

Record browser : Type := mkBrowser {
  loads : nat -> page_load;      (* what the n-th [fetch_page] meets *)
  clock : nat;                   (* number of [fetch_page] calls so far *)
  requested : list string;       (* their URLs, oldest first *)
  current : option page          (* the page now loaded *)
}.

(** ** Output records and the world the scraper acts on *)

Record filing_record : Type := mkRecord {
  filing_type : string;
  filed_at : option string;
  reporting_for : option string;
  entity_name : option string;
  company_cik : option string;
  place_of_business : option string;
  incorporated_location : option string;
  file_num : option string;
  film_num : option string;
  file_num_search_url : option string;
  filing_details_url : string;
  filing_document_url : string
}.

(** the lines the scraper prints *)
Inductive event : Type :=
| Log_found_pages (num_results num_pages : Z)
| Log_page_check_failed (url : string)
| Log_table_not_found (url : string)
| Log_page_unexpected (i : Z)
| Log_error (e : exn)
| Log_setting_to_10000 (start_date end_date : Datetime.date) (ve : exn)
| Log_less_than_10000 (num_results : Z) (start_date end_date : Datetime.date)
| Log_splitting (start_date end_date : Datetime.date) (num_batches : Z)
| Log_trying (start_date end_date : Datetime.date)
| Log_request_failed (r : string) (e : exn)
| Log_skipping
| Log_wrote (filename : string)
| Log_no_first_page (url : string)
| Log_verify_parameters
| Log_recommend_headless
| Log_count_parse_failed (url : string).

(** a CSV file as the rows written to it, each row its cells *)
Definition csv_file : Type := list (list string).

Record world : Type := mkWorld {
  self_search_requests : list string;   (* [self.search_requests] *)
  self_driver : browser;                (* [self.driver] *)
  stdout : list event;
  files : string -> csv_file
}.

(** ** A state-and-exception monad for the methods

    A raised exception leaves the effects done so far in place.
    [OutOfFuel] is not an exception: it marks a run cut off by the
    recursion bound of the model, and no handler catches it. *)

Inductive outcome (A : Type) : Type :=
| Return (a : A)
| Throw (e : exn)
| OutOfFuel.
Arguments Return {A} a.
Arguments Throw {A} e.
Arguments OutOfFuel {A}.

Definition M (A : Type) : Type := world -> outcome A * world.

Definition ret {A} (a : A) : M A := fun w => (Return a, w).

Definition bind {A B} (m : M A) (k : A -> M B) : M B :=
  fun w =>
    match m w with
    | (Return a, w') => k a w'
    | (Throw e, w') => (Throw e, w')
    | (OutOfFuel, w') => (OutOfFuel, w')
    end.

Definition throw {A} (e : exn) : M A := fun w => (Throw e, w).

Definition out_of_fuel {A} : M A := fun w => (OutOfFuel, w).

Definition lift {A} (r : result A) : M A :=
  match r with
  | Ok a => ret a
  | Raise e => throw e
  end.

(** [try: body except ...]: [handler e] is [None] when no clause matches [e] *)
Definition try_except {A} (body : M A) (handler : exn -> option (M A)) : M A :=
  fun w =>
    match body w with
    | (Throw e, w') =>
        match handler e with
        | Some h => h w'
        | None => (Throw e, w')
        end
    | r => r
    end.

Declare Scope monad_scope.
Delimit Scope monad_scope with monad.
Notation "x <- m ;; k" := (bind m (fun x => k))
  (at level 61, m at next level, right associativity) : monad_scope.
Notation "m ;; k" := (bind m (fun _ => k))
  (at level 61, right associativity) : monad_scope.
Local Open Scope monad_scope.

(** [for x in xs: body] *)
Fixpoint for_each {X} (xs : list X) (body : X -> M unit) : M unit :=
  match xs with
  | [] => ret tt
  | x :: xs' => body x ;; for_each xs' body
  end.

(** [enumerate(xs)] *)
Fixpoint enumerate_from {X} (i : Z) (xs : list X) : list (Z * X) :=
  match xs with
  | [] => []
  | x :: xs' => (i, x) :: enumerate_from (i + 1) xs'
  end.
Definition enumerate {X} (xs : list X) : list (Z * X) := enumerate_from 0 xs.

(** [xs[i]] *)
Definition list_index {X} (xs : list X) (i : Z) : result X :=
  if i <? 0 then
    match nth_error (rev xs) (Z.to_nat (- i - 1)) with
    | Some x => Ok x
    | None => Raise IndexError
    end
  else
    match nth_error xs (Z.to_nat i) with
    | Some x => Ok x
    | None => Raise IndexError
    end.

(** [range(lo, hi)] *)
Definition range (lo hi : Z) : list Z :=
  map (fun k => lo + Z.of_nat k) (seq 0 (Z.to_nat (hi - lo))).

Definition print (ev : event) : M unit :=
  fun w => (Return tt,
            mkWorld (self_search_requests w) (self_driver w)
                    (stdout w ++ [ev])%list (files w)).

(** [self.search_requests.append(r)] *)
Definition append_search_request (r : string) : M unit :=
  fun w => (Return tt,
            mkWorld (self_search_requests w ++ [r])%list (self_driver w)
                    (stdout w) (files w)).

Definition get_search_requests : M (list string) :=
  fun w => (Return (self_search_requests w), w).

(** Modelled from the spec: [fetch_page] of [src/browser.py], which is not
    among the sources ("navigate to a URL, wait up to a timeout, poll a
    completion predicate, retry up to N times, raise a typed failure on
    exhaustion").
    [fetch_page(self.driver, url, wait_for_request_secs, stop_after_n)(check)]
    spends the wait and retry budget inside the call; its final result is
    the next load of the driver. *)
Definition fetch_page (url : string) : M unit :=
  fun w =>
    let b := self_driver w in
    let w' cur :=
      mkWorld (self_search_requests w)
              (mkBrowser (loads b) (S (clock b)) (requested b ++ [url])%list cur)
              (stdout w) (files w) in
    match loads b (clock b) with
    | Load_raises e => (Throw e, w' None)
    | Loaded p => (Return tt, w' (Some p))
    end.

(** the page now loaded; a driver without one finds no element *)
Definition current_page : M page :=
  fun w =>
    match current (self_driver w) with
    | Some p => (Return p, w)
    | None => (Throw (OtherException 0), w)
    end.

(** ** [int(s)] on a decimal literal

    Surrounding ASCII white space, an optional sign, then digits, single
    underscores allowed between digits; anything else is a [ValueError].
    Two things of [int] are left out: the limit of 4300 digits on a
    decimal text, and the white space and digits outside ASCII that it
    accepts as well. The statements on which texts are read back carry
    the limit as a hypothesis; the others hold whatever [int] makes of
    the text. *)

Module PyInt.

Definition is_space (a : ascii) : bool :=
  let n := nat_of_ascii a in
  (n =? 32)%nat || ((9 <=? n)%nat && (n <=? 13)%nat).

Definition digit_value (a : ascii) : option Z :=
  let n := nat_of_ascii a in
  if (48 <=? n)%nat && (n <=? 57)%nat then Some (Z.of_nat n - 48) else None.

Fixpoint lstrip_space (s : string) : string :=
  match s with
  | EmptyString => EmptyString
  | String a s' => if is_space a then lstrip_space s' else s
  end.

Fixpoint rstrip_space (s : string) : string :=
  match s with
  | EmptyString => EmptyString
  | String a s' =>
      match rstrip_space s' with
      | EmptyString => if is_space a then EmptyString else String a EmptyString
      | r => String a r
      end
  end.

(** [after_digit] tells whether the previous character was a digit *)
Fixpoint digits (acc : Z) (after_digit : bool) (s : string) : option Z :=
  match s with
  | EmptyString => if after_digit then Some acc else None
  | String a s' =>
      match digit_value a with
      | Some v => digits (10 * acc + v) true s'
      | None =>
          if Ascii.eqb a "_" && after_digit then digits acc false s' else None
      end
  end.

Definition int (s : string) : result Z :=
  let body :=
    match rstrip_space (lstrip_space s) with
    | String "-" s' => option_map Z.opp (digits 0 false s')
    | String "+" s' => digits 0 false s'
    | s' => digits 0 false s'
    end in
  match body with
  | Some n => Ok n
  | None => Raise ValueError
  end.

End PyInt.

(** ** Reading the result count *)

(** [int(text.replace(",", "").split(" ")[0])] *)
Definition parse_count_text (text : string) : result Z :=
  match list_index (PyStr.split_on " " (PyStr.remove_char "," text)) 0 with
  | Ok token => PyInt.int token
  | Raise e => Raise e
  end.

Definition _parse_number_of_results : M Z :=
  p <- current_page ;;
  text <- lift (show_result_count p) ;;
  lift (parse_count_text text).

(** [ceil(num_results / 100)]: the source divides in floating point.
    For a count below [2^46] in absolute value the quotient rounds as the
    exact one, so that its ceiling is the one below; the statements on
    the number of pages carry that bound. *)
Definition ceil_div (a b : Z) : Z := - ((- a) / b).

Definition _compute_number_of_pages : M Z :=
  num_results <- _parse_number_of_results ;;
  let num_pages := ceil_div num_results 100 in
  print (Log_found_pages num_results num_pages) ;;
  ret num_pages.

Definition fetch_first_page_results_number (url : string) : M Z :=
  try_except (fetch_page url)
    (fun e =>
       match e with
       | PageCheckFailedError =>
           Some (print (Log_no_first_page url) ;;
                 print Log_verify_parameters ;;
                 print Log_recommend_headless ;;
                 throw e)
       | _ => None
       end) ;;
  try_except _parse_number_of_results
    (fun e =>
       Some (print (Log_count_parse_failed url) ;;
             print (Log_error e) ;;
             throw e)).

(** ** The recursive partitioner, [_generate_search_requests] *)

(** Modelled from the spec: [split_date_range_in_n] of [src/utils.py],
    which is not among the sources. It yields the boundary dates of [n]
    contiguous sub-intervals covering [[start, end]]: [n] evenly spaced
    dates from [start] on, then [end]. With [n = 0] the only date is
    [end], so that the split "produces no sub-interval" (spec 4.3,
    step 4). *)
Definition split_date_range_in_n (start_date end_date : Datetime.date) (n : Z)
  : list Datetime.date :=
  (map (fun i => start_date + (Datetime.days_between start_date end_date * i) / n)
       (range 0 n) ++ [end_date])%list.

(** one turn of the loop over [enumerate(dates)]; [recurse] is the
    recursive call *)
Definition partition_sub_interval
    (recurse : Datetime.date -> Datetime.date -> M unit)
    (dates : list Datetime.date) (i : Z) (d : Datetime.date) : M unit :=
  try_except
    (start_ <- (if i =? 0 then ret d else lift (Datetime.add_days d 1)) ;;
     end_ <- lift (list_index dates (i + 1)) ;;
     print (Log_trying start_ end_) ;;
     recurse start_ end_)
    (fun e =>
       match e with
       | IndexError => Some (ret tt)
       | _ => None
       end).

(** what the partitioner does once [num_results] is known *)
Definition partition_on_count
    (recurse : Datetime.date -> Datetime.date -> M unit)
    (start_date end_date : Datetime.date) (request_args : string)
    (num_results : Z) : M unit :=
  if num_results <? 10000 then
    print (Log_less_than_10000 num_results start_date end_date) ;;
    append_search_request request_args
  else
    let num_batches :=
      Z.min (Datetime.days_between start_date end_date) DEFAULT_BATCHES_NUMBER in
    print (Log_splitting start_date end_date num_batches) ;;
    let dates := split_date_range_in_n start_date end_date num_batches in
    for_each (enumerate dates)
             (fun id => partition_sub_interval recurse dates (fst id) (snd id)).

(** the count of an interval: the page-1 count, or 10000 when reading it
    raised a [ValueError] *)
Definition first_page_count (start_date end_date : Datetime.date) (url : string)
  : M Z :=
  try_except (fetch_first_page_results_number url)
    (fun ve =>
       match ve with
       | ValueError =>
           Some (print (Log_setting_to_10000 start_date end_date ve) ;;
                 ret 10000)
       | _ => None
       end).

(** [fuel] bounds the depth of the recursion *)
Fixpoint _generate_search_requests (fuel : nat) (c : criteria)
    (start_date end_date : Datetime.date) : M unit :=
  match fuel with
  | O => out_of_fuel
  | S fuel' =>
      request_args <- lift (_generate_request_args c start_date end_date 1) ;;
      let url := BASE_URL ++ request_args in
      num_results <- first_page_count start_date end_date url ;;
      partition_on_count (_generate_search_requests fuel' c)
                         start_date end_date request_args num_results
  end.

(** ** The record parser, [_parse_table_rows] *)

Definition bind_result {A B} (r : result A) (k : A -> result B) : result B :=
  match r with
  | Ok a => k a
  | Raise e => Raise e
  end.

Notation "x <~ r ;; k" := (bind_result r (fun x => k))
  (at level 61, r at next level, right associativity) : monad_scope.

(** Modelled from the spec: [try_or_none] of [src/utils.py], which is not
    among the sources ("any field whose underlying sub-element is absent
    resolves to an explicit missing marker rather than raising"):
    [try_or_none(f)(x)] is [f(x)], or [None] when [f(x)] raises. *)
Definition try_or_none {A} (r : result A) : option A :=
  match r with
  | Ok a => Some a
  | Raise _ => None
  end.

Definition NoSuchElementException : exn := OtherException 1.

(** [row.find_element(By.CLASS_NAME, ...)] *)
Definition find_element {A} (el : option A) : result A :=
  match el with
  | Some x => Ok x
  | None => Raise NoSuchElementException
  end.

(** an attribute or method of a value that may be [None] *)
Definition deref {A} (o : option A) : result A :=
  match o with
  | Some x => Ok x
  | None => Raise AttributeError
  end.

(** an [Optional[str]] inside an f-string *)
Definition format_opt (o : option string) : string :=
  match o with
  | Some s => s
  | None => "None"
  end.

Definition archive_root : string := "https://www.sec.gov/Archives/edgar/data/".

(** the body of the loop of [_parse_table_rows] *)
Definition parse_table_row (r : table_row) : result filing_record :=
  let file_link_tag := try_or_none (find_element (el_file_num_link r)) in
  let filing_type := try_or_none (find_element (el_filetype r)) in
  ft <~ deref filing_type ;;
  filing_type_link <~ find_element (filetype_preview ft) ;;
  let cik :=
    try_or_none (t <~ find_element (el_cik r) ;;
                 list_index (PyStr.split_on " " t) 1) in
  cik_cleaned <~ (c <~ deref cik ;; Ok (PyStr.strip "0" c)) ;;
  let data_adsh := attr_data_adsh filing_type_link in
  data_adsh_no_dash <~ (a <~ deref data_adsh ;; Ok (PyStr.remove_char "-" a)) ;;
  let data_file_name := attr_data_file_name filing_type_link in
  let filing_details_url :=
    archive_root ++ cik_cleaned ++ "/" ++ data_adsh_no_dash ++ "/"
                 ++ format_opt data_adsh ++ "-index.html" in
  let filing_doc_url :=
    archive_root ++ cik_cleaned ++ "/" ++ data_adsh_no_dash ++ "/"
                 ++ format_opt data_file_name in
  Ok {| filing_type := filetype_text ft;
        filed_at := try_or_none (find_element (el_filed r));
        reporting_for := try_or_none (find_element (el_enddate r));
        entity_name := try_or_none (find_element (el_entity_name r));
        company_cik := cik;
        place_of_business := try_or_none (find_element (el_biz_location r));
        incorporated_location := try_or_none (find_element (el_incorporated r));
        file_num :=
          try_or_none (l <~ deref file_link_tag ;; Ok (link_innerText l));
        film_num := try_or_none (find_element (el_film_num r));
        file_num_search_url :=
          match try_or_none (deref file_link_tag) with
          | Some l => link_href l
          | None => None
          end;
        filing_details_url := filing_details_url;
        filing_document_url := filing_doc_url |}.

Fixpoint _parse_table_rows (rows : list table_row) : result (list filing_record) :=
  match rows with
  | [] => Ok []
  | r :: rows' =>
      rec <~ parse_table_row r ;;
      parsed_rows <~ _parse_table_rows rows' ;;
      Ok (rec :: parsed_rows)
  end.

(** Modelled from the spec: [extract_html_table_rows] of [src/browser.py],
    which is not among the sources ("given a located results table,
    returns its row elements, or raises ResultsSurfaceNotFoundError if
    none exist"); the rows go to the parser it is applied to. *)
Definition extract_html_table_rows {A} (parser : list table_row -> result A) : M A :=
  p <- current_page ;;
  rows <- lift (results_table p) ;;
  lift (parser rows).

(** ** The paginated harvester, [_fetch_search_request_results]

    The method is a generator. [consume] stands for the body of the
    [for] loop that iterates over it: it runs at each [yield], outside
    the [try] of the generator. *)

Definition generator (X : Type) : Type := (X -> M unit) -> M unit.

(** the [try] block of one page: the page's records, or [None] when the
    page is skipped *)
Definition fetch_results_page (search_request : string) (i : Z)
  : M (option (list filing_record)) :=
  let paginated_url := BASE_URL ++ search_request ++ "&page=" ++ PyStr.str_of_int i in
  try_except
    (fetch_page paginated_url ;;
     page_results <- extract_html_table_rows _parse_table_rows ;;
     ret (Some page_results))
    (fun e =>
       Some (match e with
             | PageCheckFailedError =>
                 print (Log_page_check_failed paginated_url) ;;
                 print (Log_error e) ;;
                 ret None
             | ResultsTableNotFoundError =>
                 print (Log_table_not_found paginated_url) ;;
                 print (Log_error e) ;;
                 ret None
             | _ =>
                 print (Log_page_unexpected i) ;;
                 print (Log_error e) ;;
                 ret None
             end)).

(** the loop [for i in range(1, num_pages + 1)] *)
Definition fetch_pages (search_request : string) (pages : list Z)
  : generator (list filing_record) :=
  fun consume =>
    for_each pages
      (fun i =>
         r <- fetch_results_page search_request i ;;
         match r with
         | Some page_results => consume page_results
         | None => ret tt
         end).

Definition _fetch_search_request_results (search_request : string)
  : generator (list filing_record) :=
  fun consume =>
    fetch_page (BASE_URL ++ search_request) ;;
    num_pages <- _compute_number_of_pages ;;
    fetch_pages search_request (range 1 (num_pages + 1)) consume.

(** ** The sink writer, [write_results_to_csv] *)

Definition fieldnames : list string :=
  [ "filing_type"; "filed_at"; "reporting_for"; "entity_name"; "company_cik";
    "place_of_business"; "incorporated_location"; "file_num"; "film_num";
    "file_num_search_url"; "filing_details_url"; "filing_document_url" ].

(** a cell: [None] is written as the empty string *)
Definition cell (o : option string) : string :=
  match o with
  | Some s => s
  | None => EmptyString
  end.

(** [writer.writerow(r)]: the values of [r] in the order of [fieldnames] *)
Definition csv_row (r : filing_record) : list string :=
  [ filing_type r; cell (filed_at r); cell (reporting_for r);
    cell (entity_name r); cell (company_cik r); cell (place_of_business r);
    cell (incorporated_location r); cell (file_num r); cell (film_num r);
    cell (file_num_search_url r); filing_details_url r; filing_document_url r ].

(** [f.tell() == 0] right after [open(filename, "a")] *)
Definition tell_is_zero (filename : string) : M bool :=
  fun w =>
    (Return (match files w filename with [] => true | _ :: _ => false end), w).

Definition write_line (filename : string) (line : list string) : M unit :=
  fun w =>
    (Return tt,
     mkWorld (self_search_requests w) (self_driver w) (stdout w)
             (fun f => if String.eqb f filename
                       then (files w filename ++ [line])%list
                       else files w f)).

Definition write_results_to_csv (data : generator (list filing_record))
    (filename : string) : M unit :=
  empty <- tell_is_zero filename ;;
  (if empty then write_line filename fieldnames else ret tt) ;;
  data (fun results_list_iterators =>
          for_each results_list_iterators
                   (fun r => write_line filename (csv_row r))) ;;
  print (Log_wrote filename).

(** a generator that yields the given pages and never raises *)
Definition iter_pages (pages : list (list filing_record))
  : generator (list filing_record) :=
  fun consume => for_each pages consume.

(** ** The harvest, [custom_text_search] *)

(** the body of the loop [for r in self.search_requests] *)
Definition harvest_request (r : string) : M unit :=
  try_except
    (write_results_to_csv (_fetch_search_request_results r) "results.csv")
    (fun e => Some (print (Log_request_failed r e) ;; print Log_skipping)).

Definition custom_text_search (fuel : nat) (c : criteria)
    (start_date end_date : Datetime.date) : M unit :=
  _generate_search_requests fuel c start_date end_date ;;
  search_requests <- get_search_requests ;;
  for_each search_requests harvest_request.

(** [SecEdgarScraper(driver)], in a file system [fs] *)
Definition new_scraper (driver : browser) (fs : string -> csv_file) : world :=
  mkWorld [] driver [] fs.

(** ** Concrete drivers, rows and dates for the worked runs *)

Module Sample.

Definition d2020_01_01 : Datetime.date := 737425.
Definition d2020_01_02 : Datetime.date := 737426.
Definition d2020_01_03 : Datetime.date := 737427.
Definition d2020_01_04 : Datetime.date := 737428.
Definition d2020_01_08 : Datetime.date := 737432.
Definition d9999_12_24 : Datetime.date := 3652052.

Definition page_showing (t : string) (rows : list table_row) : page_load :=
  Loaded (mkPage (Ok t) (Ok rows)).

(** a driver meeting the loads of [l], then [dflt] for ever *)
Definition loads_of_list (l : list page_load) (dflt : page_load)
  : nat -> page_load :=
  fun n => nth n l dflt.

Definition fresh_browser (l : nat -> page_load) : browser :=
  mkBrowser l 0 [] None.

Definition no_files : string -> csv_file := fun _ => [].

Definition fresh_world (l : nat -> page_load) : world :=
  new_scraper (fresh_browser l) no_files.

Definition keyword_a : criteria := mkCriteria ["a"] None None false.

(** a row of the entity [name], with every sub-element the URLs need *)
Definition row_named (name : string) : table_row :=
  mkRow None
        (Some (mkFiletype "8-K"
                 (Some (mkPreview (Some "0001-22-3") (Some "doc.htm")))))
        (Some "CIK 0000000042")
        None None (Some name) None None None.

Definition record_named (name : string) : filing_record :=
  {| filing_type := "8-K";
     filed_at := None;
     reporting_for := None;
     entity_name := Some name;
     company_cik := Some "0000000042";
     place_of_business := None;
     incorporated_location := None;
     file_num := None;
     film_num := None;
     file_num_search_url := None;
     filing_details_url :=
       "https://www.sec.gov/Archives/edgar/data/42/0001223/0001-22-3-index.html";
     filing_document_url :=
       "https://www.sec.gov/Archives/edgar/data/42/0001223/doc.htm" |}.

(** the loads of a harvest of two finalized queries: the first has 450
    matches, so five pages, of which the third is never verified; the
    second has 100 matches, so one page *)
Definition third_page_fails : nat -> page_load :=
  loads_of_list
    [ page_showing "450 search results" [];
      page_showing "450 search results" [row_named "A"];
      page_showing "450 search results" [row_named "B"];
      Load_raises PageCheckFailedError;
      page_showing "450 search results" [row_named "D"];
      page_showing "450 search results" [row_named "E"];
      page_showing "100 search results" [];
      page_showing "100 search results" [row_named "F"] ]
    (Load_raises PageCheckFailedError).

(** two keyword lists with the same joined phrase *)
Definition keywords_a_b : criteria := mkCriteria ["a"; "b"] None None false.
Definition keyword_a_b : criteria := mkCriteria ["a b"] None None false.

(** a row whose company identifier ends in a zero *)
Definition row_12340 : table_row :=
  mkRow (Some (mkFileLink "001-1" (Some "https://www.sec.gov/f")))
        (Some (mkFiletype "10-K"
                 (Some (mkPreview (Some "0001-22-3") (Some "doc.htm")))))
        (Some "CIK 0000012340")
        (Some "2020-01-02") None (Some "ACME") None None None.

Definition record_12340 : filing_record :=
  {| filing_type := "10-K";
     filed_at := Some "2020-01-02";
     reporting_for := None;
     entity_name := Some "ACME";
     company_cik := Some "0000012340";
     place_of_business := None;
     incorporated_location := None;
     file_num := Some "001-1";
     film_num := None;
     file_num_search_url := Some "https://www.sec.gov/f";
     filing_details_url :=
       "https://www.sec.gov/Archives/edgar/data/1234/0001223/0001-22-3-index.html";
     filing_document_url :=
       "https://www.sec.gov/Archives/edgar/data/1234/0001223/doc.htm" |}.

(** a source that finds nothing, whatever the query *)
Definition no_matches : nat -> page_load :=
  fun _ => page_showing "0 search results" [].

(** a source that reports the cap for every query *)
Definition always_saturated : nat -> page_load :=
  fun _ => page_showing "10,000 search results" [].

(** a source that reports 12,000 matches for the first query and 40 for
    every later one *)
Definition saturated_once : nat -> page_load :=
  fun k => match k with
           | O => page_showing "12,000 search results" []
           | S _ => page_showing "40 search results" []
           end.

(** a source that reports 12,000 matches for the first query and fails
    with an unexpected exception on the second *)
Definition fails_on_second : nat -> page_load :=
  fun k => match k with
           | O => page_showing "12,000 search results" []
           | S O => Load_raises (OtherException 7)
           | S (S _) => page_showing "40 search results" []
           end.

End Sample.

(** ** Vocabulary of the statements about the encoder *)

(** the entity as the encoder sees it: [None] and the empty string alike *)
Definition effective_entity (c : criteria) : option string :=
  if truthy (entity_identifier c) then entity_identifier c else None.

(** the category code sent, if any *)
Definition category_code (c : criteria) : result (option string) :=
  if truthy (filing_category c) then
    match dict_get FILING_CATEGORIES_MAPPING
            (match filing_category c with Some s => s | None => EmptyString end) with
    | Ok code => Ok (Some code)
    | Raise e => Raise e
    end
  else Ok None.

Definition optional_field (name : string) (v : option string) : string :=
  match v with
  | Some s => "&" ++ name ++ "=" ++ Urllib.quote_plus s
  | None => EmptyString
  end.

(** the encoded string, field by field *)
Definition request_string (phrase start_text end_text page_text : string)
    (entity code : option string) : string :=
  "q=" ++ Urllib.quote_plus (Urllib.quote phrase)
  ++ "&dateRange=custom&startdt=" ++ Urllib.quote_plus start_text
  ++ "&enddt=" ++ Urllib.quote_plus end_text
  ++ "&page=" ++ Urllib.quote_plus page_text
  ++ optional_field "entityName" entity
  ++ optional_field "category" code.

(** the category named, if any: [None] and the empty string alike *)
Definition effective_category (c : criteria) : option string :=
  if truthy (filing_category c) then filing_category c else None.

(** the value of an upper-case hexadecimal digit *)
Definition hex_value (a : ascii) : nat :=
  let n := nat_of_ascii a in
  if (n <=? 57)%nat then (n - 48)%nat else (n - 55)%nat.

(** [urllib.parse.unquote_plus] on bytes: the inverse used to show that
    the percent-encoding loses nothing *)
Fixpoint unquote_plus (s : string) : string :=
  match s with
  | EmptyString => EmptyString
  | String a s' =>
      if Ascii.eqb a "%" then
        match s' with
        | String h (String l s'') =>
            String (ascii_of_nat (16 * hex_value h + hex_value l)) (unquote_plus s'')
        | _ => String a (unquote_plus s')
        end
      else String (if Ascii.eqb a "+" then " "%char else a) (unquote_plus s')
  end.

(** what [quote_plus] and [quote] make of one byte *)
Definition quote_plus_byte (a : ascii) : string :=
  if Urllib.always_safe a then String a EmptyString
  else if Ascii.eqb a " " then "+" else Urllib.percent a.

Definition quote_byte (a : ascii) : string :=
  if Urllib.always_safe a || Urllib.safe_slash a then String a EmptyString
  else Urllib.percent a.

Fixpoint encode_bytes (f : ascii -> string) (s : string) : string :=
  match s with
  | EmptyString => EmptyString
  | String a s' => f a ++ encode_bytes f s'
  end.

(** a field value holds no [&] *)
Definition no_amp (s : string) : Prop := PyStr.contains_char "&" s = false.

(** what follows a field value: nothing, or the [&] of the next field *)
Definition field_end (t : string) : Prop :=
  t = EmptyString \/ exists u, t = String "&" u.

(** the check behind the month table of [month_day] *)
Definition month_day_ok (leap : bool) (n : Z) : bool :=
  let '(m, d) := Datetime.month_day leap n in
  (1 <=? m) && (m <=? 12) && (1 <=? d) && (d <=? 31) &&
  (Datetime._DAYS_BEFORE_MONTH m + Datetime.b2z ((2 <? m) && leap) + d =? n + 1).

(** ** Vocabulary of the statements about the partitioner *)

Definition interval : Type := (Datetime.date * Datetime.date)%type.

Definition in_interval (d : Datetime.date) (iv : interval) : Prop :=
  fst iv <= d <= snd iv.

(** [iv1] ends before [iv2] starts *)
Definition before (iv1 iv2 : interval) : Prop := snd iv1 < fst iv2.

Definition disjoint (iv1 iv2 : interval) : Prop :=
  forall d, ~ (in_interval d iv1 /\ in_interval d iv2).

(** the intervals of [ivs] follow one another from [s] to [e] without a gap *)
Fixpoint chain (s e : Datetime.date) (ivs : list interval) : Prop :=
  match ivs with
  | [] => False
  | iv :: rest =>
      fst iv = s /\ fst iv <= snd iv /\
      match rest with
      | [] => snd iv = e
      | _ :: _ => chain (snd iv + 1) e rest
      end
  end.

(** every load of the driver is a verified page that shows a count text *)
Definition counts_reported (l : nat -> page_load) : Prop :=
  forall k, exists p t, l k = Loaded p /\ show_result_count p = Ok t.

(** the query string of the interval [iv], page 1 *)
Definition encodes (c : criteria) (iv : interval) (r : string) : Prop :=
  _generate_request_args c (fst iv) (snd iv) 1 = Ok r.

(** what a run from [w] to [w'] appended to the finalized-query list and
    printed *)
Definition finalized_during (w w' : world) : list string :=
  skipn (List.length (self_search_requests w)) (self_search_requests w').

Definition printed_during (w w' : world) : list event :=
  skipn (List.length (stdout w)) (stdout w').

(** the degenerate case: some single day was found saturated, so that the
    split is into 0 batches *)
Definition single_day_saturated (evs : list event) : Prop :=
  exists d, In (Log_splitting d d 0) evs.

Definition no_split_logged (evs : list event) : Prop :=
  forall a b n, ~ In (Log_splitting a b n) evs.

(** the world after a [fetch_page] of [url] that loaded [p] *)
Definition fetched (url : string) (p : page) (w : world) : world :=
  mkWorld (self_search_requests w)
          (mkBrowser (loads (self_driver w)) (S (clock (self_driver w)))
                     (requested (self_driver w) ++ [url])%list (Some p))
          (stdout w) (files w).

(** the world after [first_page_count] met a count text that does not parse *)
Definition fetched_unparsable (s e : Datetime.date) (url : string) (p : page)
    (w : world) : world :=
  mkWorld (self_search_requests w)
          (self_driver (fetched url p w))
          (stdout w ++ [Log_count_parse_failed url; Log_error ValueError;
                        Log_setting_to_10000 s e ValueError])%list
          (files w).

(** a fetch failure of the driver aborts [m]: whenever a load that [m]
    asks for raises an exception other than [ValueError] and
    [IndexError], [m] ends with that exception right after that load *)
Definition aborts_on_fetch_failure {A} (m : M A) : Prop :=
  forall w r w',
    m w = (r, w') ->
    loads (self_driver w') = loads (self_driver w) /\
    (clock (self_driver w) <= clock (self_driver w'))%nat /\
    forall k x,
      (clock (self_driver w) <= k < clock (self_driver w'))%nat ->
      loads (self_driver w) k = Load_raises x ->
      x <> ValueError -> x <> IndexError ->
      r = Throw x /\ clock (self_driver w') = S k.

(** [m] leaves the driver alone *)
Definition no_fetch {A} (m : M A) : Prop :=
  forall w r w', m w = (r, w') -> self_driver w' = self_driver w.

(** the world after [print ev] *)
Definition logged (ev : event) (w : world) : world :=
  mkWorld (self_search_requests w) (self_driver w) (stdout w ++ [ev])%list (files w).

(** ** Vocabulary of the statements about the harvester *)

(** what the [try] block of a page gets out of a load: the records of
    the page, or the exception that makes the page be skipped *)
Definition page_outcome (l : page_load) : result (list filing_record) :=
  match l with
  | Load_raises x => Raise x
  | Loaded p =>
      match results_table p with
      | Ok rows => _parse_table_rows rows
      | Raise x => Raise x
      end
  end.

Definition page_records (l : page_load) : list filing_record :=
  match page_outcome l with
  | Ok recs => recs
  | Raise _ => []
  end.

(** the records of the [n] loads from the [k]-th on, skipped pages left out *)
Fixpoint records_of_loads (l : nat -> page_load) (k n : nat) : list filing_record :=
  match n with
  | O => []
  | S n' => (page_records (l k) ++ records_of_loads l (S k) n')%list
  end.

(** the loop of [write_results_to_csv] over one yielded page *)
Definition csv_sink (filename : string) : list filing_record -> M unit :=
  fun results_list_iterators =>
    for_each results_list_iterators (fun r => write_line filename (csv_row r)).

Definition paginated_url (search_request : string) (i : Z) : string :=
  BASE_URL ++ search_request ++ "&page=" ++ PyStr.str_of_int i.

(** ** Vocabulary of the statements about the sink writer *)

(** what a file holds after [write_results_to_csv] found it holding [old] *)
Definition with_header (old : csv_file) : csv_file :=
  match old with
  | [] => [fieldnames]
  | _ :: _ => old
  end.

(** two worlds that differ at most in the file [filename] *)
Definition only_file_changed (filename : string) (w w' : world) : Prop :=
  self_search_requests w' = self_search_requests w /\
  self_driver w' = self_driver w /\
  stdout w' = stdout w /\
  forall f, f <> filename -> files w' f = files w f.

(** ** Vocabulary of the statements about the finalized-query list *)

(** [m] only ever appends to the list [proj] of the world, be it
    [self.search_requests] or the printed lines *)
Definition grows {X A} (proj : world -> list X) (m : M A) : Prop :=
  forall w r w',
    m w = (r, w') -> exists l, proj w' = (proj w ++ l)%list.

(** ** Vocabulary of the further statements *)

(** every character of [s] passes [ok] *)
Fixpoint all_chars (ok : ascii -> bool) (s : string) : bool :=
  match s with
  | EmptyString => true
  | String a s' => ok a && all_chars ok s'
  end.

(** the characters a request string is made of: the unreserved ones,
    and [%], [+], [=] and [&] *)
Definition request_char (a : ascii) : bool :=
  Urllib.always_safe a || Ascii.eqb a "%" || Ascii.eqb a "+"
  || Ascii.eqb a "=" || Ascii.eqb a "&".

(** what reading the count off a load gives: the count, or the exception
    met on the way (by the fetch, by the element lookup or by [int]) *)
Definition count_outcome (l : page_load) : result Z :=
  match l with
  | Load_raises x => Raise x
  | Loaded p =>
      match show_result_count p with
      | Ok t => parse_count_text t
      | Raise x => Raise x
      end
  end.

(** the next load of the driver *)
Definition next_load (w : world) : page_load :=
  loads (self_driver w) (clock (self_driver w)).

(** the company identifier of a row: the second of the fields that single
    spaces cut the text of the [cik] element into, if there are two *)
Definition cik_of (r : table_row) : option string :=
  match el_cik r with
  | Some t =>
      match list_index (PyStr.split_on " " t) 1 with
      | Ok c => Some c
      | Raise _ => None
      end
  | None => None
  end.

(** the record of a row that has what the two URLs need *)
Definition record_of (r : table_row) (ft : filetype_cell) (lnk : preview_link)
    (cik adsh : string) : filing_record :=
  {| filing_type := filetype_text ft;
     filed_at := el_filed r;
     reporting_for := el_enddate r;
     entity_name := el_entity_name r;
     company_cik := Some cik;
     place_of_business := el_biz_location r;
     incorporated_location := el_incorporated r;
     file_num := option_map link_innerText (el_file_num_link r);
     film_num := el_film_num r;
     file_num_search_url :=
       match el_file_num_link r with
       | Some l => link_href l
       | None => None
       end;
     filing_details_url :=
       archive_root ++ PyStr.strip "0" cik ++ "/" ++ PyStr.remove_char "-" adsh
                    ++ "/" ++ adsh ++ "-index.html";
     filing_document_url :=
       archive_root ++ PyStr.strip "0" cik ++ "/" ++ PyStr.remove_char "-" adsh
                    ++ "/" ++ format_opt (attr_data_file_name lnk) |}.

(** the last character of [s] is [c] *)
Fixpoint ends_with (c : ascii) (s : string) : bool :=
  match s with
  | EmptyString => false
  | String a s' =>
      match s' with
      | EmptyString => Ascii.eqb a c
      | String _ _ => ends_with c s'
      end
  end.

(** the first day of the year 1000, [date(1000, 1, 1).toordinal()] *)
Definition year_1000 : Datetime.date := 364878.

(** what [fetch_first_page_results_number] prints when its fetch of [url]
    raises [x] *)
Definition first_page_failure_lines (x : exn) (url : string) : list event :=
  match x with
  | PageCheckFailedError =>
      [Log_no_first_page url; Log_verify_parameters; Log_recommend_headless]
  | _ => []
  end.

(** the world after a [fetch_page] of [url], whatever it met *)
Definition after_fetch (url : string) (w : world) : world :=
  mkWorld (self_search_requests w)
          (mkBrowser (loads (self_driver w)) (S (clock (self_driver w)))
                     (requested (self_driver w) ++ [url])%list
                     (match next_load w with
                      | Loaded p => Some p
                      | Load_raises _ => None
                      end))
          (stdout w) (files w).

(** a generator that yields the given pages and then raises [x] *)
Definition iter_pages_then_raise (pages : list (list filing_record)) (x : exn)
  : generator (list filing_record) :=
  fun consume => for_each pages consume ;; throw x.

(** ** Vocabulary of the statements about what a run leaves alone *)

(** however [m] ends, it takes a world to one that [R] relates to it *)
Definition stable {A} (R : world -> world -> Prop) (m : M A) : Prop :=
  forall w r w', m w = (r, w') -> R w w'.

(** no file is written *)
Definition same_files (w w' : world) : Prop := files w' = files w.

(** the only file written is [filename], and all that happens to it is
    that lines of [width] cells are put at its end *)
Definition appends_lines (filename : string) (width : nat) (w w' : world) : Prop :=
  (forall f, f <> filename -> files w' f = files w f) /\
  exists l, files w' filename = (files w filename ++ l)%list /\
            Forall (fun line => List.length line = width) l.

(** * Properties *)

(** ** The monad *)

Lemma bind_Return {A B} (m : M A) (k : A -> M B) w a w' :
  m w = (Return a, w') -> bind m k w = k a w'.
Proof. intros H. unfold bind. rewrite H. reflexivity. Qed.

Lemma bind_Throw {A B} (m : M A) (k : A -> M B) w e w' :
  m w = (Throw e, w') -> bind m k w = (Throw e, w').
Proof. intros H. unfold bind. rewrite H. reflexivity. Qed.

Lemma bind_OutOfFuel {A B} (m : M A) (k : A -> M B) w w' :
  m w = (OutOfFuel, w') -> bind m k w = (OutOfFuel, w').
Proof. intros H. unfold bind. rewrite H. reflexivity. Qed.

Lemma for_each_app {X} (xs ys : list X) (body : X -> M unit) w w' :
  for_each xs body w = (Return tt, w') ->
  for_each (xs ++ ys) body w = for_each ys body w'.
Proof.
  revert w. induction xs as [|x xs IH]; intros w H; simpl in *.
  - inversion H. reflexivity.
  - unfold bind in *. destruct (body x w) as [[[]| |] w1]; try discriminate.
    apply IH, H.
Qed.

(** ** The sink writer *)

Lemma only_file_changed_refl filename w : only_file_changed filename w w.
Proof. repeat split; reflexivity. Qed.

Lemma only_file_changed_trans filename w1 w2 w3 :
  only_file_changed filename w1 w2 -> only_file_changed filename w2 w3 ->
  only_file_changed filename w1 w3.
Proof.
  intros (A1 & A2 & A3 & A4) (B1 & B2 & B3 & B4).
  repeat split; try congruence.
  intros f Hf. rewrite B4, A4; auto.
Qed.

Lemma write_line_spec filename line w :
  exists w', write_line filename line w = (Return tt, w') /\
             files w' filename = (files w filename ++ [line])%list /\
             only_file_changed filename w w'.
Proof.
  eexists. split; [reflexivity|]. split.
  - simpl. rewrite String.eqb_refl. reflexivity.
  - repeat split; simpl; auto.
    intros f Hf. apply String.eqb_neq in Hf. rewrite Hf. reflexivity.
Qed.

Lemma write_records_spec filename (recs : list filing_record) w :
  exists w',
    for_each recs (fun r => write_line filename (csv_row r)) w = (Return tt, w') /\
    files w' filename = (files w filename ++ map csv_row recs)%list /\
    only_file_changed filename w w'.
Proof.
  revert w. induction recs as [|r recs IH]; intros w.
  - exists w. simpl. rewrite app_nil_r.
    repeat split; reflexivity.
  - destruct (write_line_spec filename (csv_row r) w) as (w1 & E1 & F1 & O1).
    destruct (IH w1) as (w2 & E2 & F2 & O2).
    exists w2. split.
    + simpl. rewrite (bind_Return _ _ _ _ _ E1). exact E2.
    + split.
      * rewrite F2, F1, <- app_assoc. reflexivity.
      * eapply only_file_changed_trans; eassumption.
Qed.

Lemma write_pages_spec filename (pages : list (list filing_record)) w :
  exists w',
    iter_pages pages
      (fun rs => for_each rs (fun r => write_line filename (csv_row r))) w
    = (Return tt, w') /\
    files w' filename = (files w filename ++ map csv_row (List.concat pages))%list /\
    only_file_changed filename w w'.
Proof.
  unfold iter_pages. revert w. induction pages as [|pg pages IH]; intros w.
  - exists w. simpl. rewrite app_nil_r. repeat split; reflexivity.
  - destruct (write_records_spec filename pg w) as (w1 & E1 & F1 & O1).
    destruct (IH w1) as (w2 & E2 & F2 & O2).
    exists w2. split.
    + simpl. rewrite (bind_Return _ _ _ _ _ E1). exact E2.
    + split.
      * rewrite F2, F1. simpl. rewrite map_app, app_assoc. reflexivity.
      * eapply only_file_changed_trans; eassumption.
Qed.

Lemma write_results_to_csv_spec filename pages w :
  exists w',
    write_results_to_csv (iter_pages pages) filename w = (Return tt, w') /\
    files w' filename
    = (with_header (files w filename) ++ map csv_row (List.concat pages))%list.
Proof.
  unfold write_results_to_csv.
  assert (Hhdr : exists w0,
             bind (tell_is_zero filename)
                  (fun empty => if empty then write_line filename fieldnames
                                else ret tt) w = (Return tt, w0) /\
             files w0 filename = with_header (files w filename)).
  { unfold bind, tell_is_zero.
    destruct (files w filename) as [|l old] eqn:E.
    - destruct (write_line_spec filename fieldnames w) as (w0 & E0 & F0 & _).
      exists w0. split; [exact E0|]. rewrite F0, E. reflexivity.
    - exists w. split; [reflexivity|]. rewrite E. reflexivity. }
  destruct Hhdr as (w0 & E0 & F0).
  destruct (write_pages_spec filename pages w0) as (w1 & E1 & F1 & _).
  eexists. split.
  - unfold bind in *.
    destruct (tell_is_zero filename w) as [[b| |] wt]; try discriminate.
    rewrite E0. rewrite E1. reflexivity.
  - simpl. rewrite F1, F0. reflexivity.
Qed.

Lemma with_header_nonempty (old rows : csv_file) :
  with_header (with_header old ++ rows)%list = (with_header old ++ rows)%list.
Proof. destruct old; reflexivity. Qed.

(** C9. [write_results_to_csv] writes the column header exactly when the
    file is empty as it is opened: a file found holding [old] holds
    afterwards the header if [old] is empty, else [old], followed by one
    line per record; so a fresh file gets one header line and N data
    lines, and a second call on the same file appends its data lines
    only. *)
Theorem write_results_to_csv_header_once :
  forall (pages1 pages2 : list (list filing_record)) (filename : string) (w : world),
  exists w1 w2,
    write_results_to_csv (iter_pages pages1) filename w = (Return tt, w1) /\
    write_results_to_csv (iter_pages pages2) filename w1 = (Return tt, w2) /\
    files w1 filename
    = (match files w filename with
       | [] => [fieldnames]
       | _ :: _ => files w filename
       end ++ map csv_row (List.concat pages1))%list /\
    files w2 filename = (files w1 filename ++ map csv_row (List.concat pages2))%list.
Proof.
  intros pages1 pages2 filename w.
  destruct (write_results_to_csv_spec filename pages1 w) as (w1 & E1 & F1).
  destruct (write_results_to_csv_spec filename pages2 w1) as (w2 & E2 & F2).
  exists w1, w2. repeat split; try assumption.
  rewrite F2, F1, with_header_nonempty. reflexivity.
Qed.

(** ** The partitioner: what one call does *)

Lemma split_on_nonempty c s : PyStr.split_on c s <> [].
Proof.
  induction s as [|a s IH]; simpl; [discriminate|].
  destruct (Ascii.eqb a c); [discriminate|].
  destruct (PyStr.split_on c s); discriminate.
Qed.

Lemma parse_count_text_raises t e :
  parse_count_text t = Raise e -> e = ValueError.
Proof.
  unfold parse_count_text, list_index. simpl.
  destruct (PyStr.split_on " " (PyStr.remove_char "," t)) as [|tok l] eqn:E.
  - now apply split_on_nonempty in E.
  - simpl. unfold PyInt.int.
    match goal with |- match ?b with _ => _ end = _ -> _ => destruct b end;
      congruence.
Qed.

Lemma dict_get_raises d k e : dict_get d k = Raise e -> e = KeyError.
Proof.
  induction d as [|[k' v] d IH]; simpl; [congruence|].
  destruct (String.eqb k' k); [discriminate|exact IH].
Qed.

Lemma _generate_request_args_raises c s e p x :
  _generate_request_args c s e p = Raise x -> x = ValueError \/ x = KeyError.
Proof.
  unfold _generate_request_args.
  destruct (e <? s); [left; congruence|].
  destruct (truthy (filing_category c)); [|discriminate].
  match goal with |- context [dict_get ?d ?k] => destruct (dict_get d k) eqn:E end;
    [discriminate|].
  apply dict_get_raises in E. right. congruence.
Qed.

Lemma _generate_request_args_ordered c s e p r :
  _generate_request_args c s e p = Ok r -> s <= e.
Proof.
  unfold _generate_request_args.
  destruct (Z.ltb_spec e s); [discriminate|auto].
Qed.

Lemma add_days_Ok d n x : Datetime.add_days d n = Ok x -> x = d + n.
Proof.
  unfold Datetime.add_days.
  destruct (_ && _); congruence.
Qed.

Lemma add_days_raises d n x : Datetime.add_days d n = Raise x -> x = OverflowError.
Proof.
  unfold Datetime.add_days.
  destruct (_ && _); congruence.
Qed.

Lemma print_logged ev w : print ev w = (Return tt, logged ev w).
Proof. reflexivity. Qed.

Lemma split_dates_0 s e : split_date_range_in_n s e 0 = [e].
Proof. reflexivity. Qed.

Lemma split_dates_1 s e : split_date_range_in_n s e 1 = [s; e].
Proof.
  unfold split_date_range_in_n, range. simpl map.
  rewrite Z.mul_0_r, Z.div_0_l, Z.add_0_r by lia. reflexivity.
Qed.

Lemma split_dates_2 s e :
  split_date_range_in_n s e 2 = [s; s + (e - s) / 2; e].
Proof.
  unfold split_date_range_in_n, range, Datetime.days_between. simpl map.
  rewrite Z.mul_0_r, Z.div_0_l, Z.add_0_r, Z.mul_1_r by lia. reflexivity.
Qed.

(** an interval of three days or more is cut into two sub-intervals, both
    well-formed and both shorter than it *)
Lemma longer_interval_shrinks s e :
  2 <= Datetime.days_between s e ->
  let m := s + (e - s) / 2 in
  s <= m /\ m + 1 <= e /\
  Datetime.days_between s m < Datetime.days_between s e /\
  Datetime.days_between (m + 1) e < Datetime.days_between s e.
Proof.
  unfold Datetime.days_between. intros H. cbv zeta.
  Z.div_mod_to_equations. lia.
Qed.

(** an interval of two days is cut into one sub-interval, itself *)
Lemma two_day_interval_not_split s :
  split_date_range_in_n s (s + 1)
    (Z.min (Datetime.days_between s (s + 1)) DEFAULT_BATCHES_NUMBER)
  = [s; s + 1].
Proof.
  unfold Datetime.days_between, DEFAULT_BATCHES_NUMBER.
  replace (Z.min (s + 1 - s) 2) with 1 by lia. apply split_dates_1.
Qed.

(** the turn of the loop that runs past the last boundary date *)
Lemma partition_sub_interval_last recurse dates i d w :
  list_index dates (i + 1) = Raise IndexError ->
  (if i =? 0 then Ok d else Datetime.add_days d 1) <> Raise OverflowError ->
  partition_sub_interval recurse dates i d w = (Return tt, w).
Proof.
  intros Hidx Hadd. unfold partition_sub_interval, try_except, bind.
  destruct (i =? 0).
  - simpl. rewrite Hidx. reflexivity.
  - destruct (Datetime.add_days d 1) as [x|x] eqn:E; simpl.
    + rewrite Hidx. reflexivity.
    + apply add_days_raises in E. congruence.
Qed.

Lemma partition_sub_interval_overflow recurse dates i d w :
  (if i =? 0 then Ok d else Datetime.add_days d 1) = Raise OverflowError ->
  partition_sub_interval recurse dates i d w = (Throw OverflowError, w).
Proof.
  intros Hadd. unfold partition_sub_interval, try_except, bind.
  destruct (i =? 0); [discriminate|]. rewrite Hadd. reflexivity.
Qed.

(** a turn of the loop that reaches the recursive call *)
Lemma partition_sub_interval_recurse recurse dates i d w start_ end_ :
  (if i =? 0 then Ok d else Datetime.add_days d 1) = Ok start_ ->
  list_index dates (i + 1) = Ok end_ ->
  partition_sub_interval recurse dates i d w
  = match recurse start_ end_ (logged (Log_trying start_ end_) w) with
    | (Throw IndexError, w') => (Return tt, w')
    | r => r
    end.
Proof.
  intros Hs He. unfold partition_sub_interval, try_except, bind.
  destruct (i =? 0).
  - inversion Hs; subst. simpl. rewrite He. simpl.
    destruct (recurse _ _ _) as [[[]|[]|] w']; reflexivity.
  - rewrite Hs. simpl. rewrite He. simpl.
    destruct (recurse _ _ _) as [[[]|[]|] w']; reflexivity.
Qed.

Lemma partition_sub_interval_no_IndexError recurse dates i d w :
  fst (partition_sub_interval recurse dates i d w) <> Throw IndexError.
Proof.
  unfold partition_sub_interval, try_except.
  match goal with |- context [bind ?m ?k w] => destruct (bind m k w) as [[[]|[]|] w'] end;
    simpl; discriminate.
Qed.

Lemma for_each_never {X} (xs : list X) (body : X -> M unit) ex :
  (forall x w, fst (body x w) <> Throw ex) ->
  forall w, fst (for_each xs body w) <> Throw ex.
Proof.
  intros Hb. induction xs as [|x xs IH]; intros w; simpl; [discriminate|].
  unfold bind. specialize (Hb x w).
  destruct (body x w) as [[[]|e|] w']; simpl in *; auto; discriminate.
Qed.

Lemma partition_on_count_no_IndexError recurse s e req n w :
  fst (partition_on_count recurse s e req n w) <> Throw IndexError.
Proof.
  unfold partition_on_count. destruct (n <? 10000).
  - simpl. discriminate.
  - unfold bind. rewrite print_logged.
    apply for_each_never. intros [i d] w0.
    apply partition_sub_interval_no_IndexError.
Qed.

(** the world after a [fetch_page] that loaded [p] *)
Lemma fetch_page_Loaded url w p :
  loads (self_driver w) (clock (self_driver w)) = Loaded p ->
  fetch_page url w
  = (Return tt,
     mkWorld (self_search_requests w)
             (mkBrowser (loads (self_driver w)) (S (clock (self_driver w)))
                        (requested (self_driver w) ++ [url])%list (Some p))
             (stdout w) (files w)).
Proof. intros H. unfold fetch_page. rewrite H. reflexivity. Qed.

Lemma fetch_page_raises url w x :
  loads (self_driver w) (clock (self_driver w)) = Load_raises x ->
  fetch_page url w
  = (Throw x,
     mkWorld (self_search_requests w)
             (mkBrowser (loads (self_driver w)) (S (clock (self_driver w)))
                        (requested (self_driver w) ++ [url])%list None)
             (stdout w) (files w)).
Proof. intros H. unfold fetch_page. rewrite H. reflexivity. Qed.

Lemma fetch_page_after url w :
  fetch_page url w
  = (match next_load w with
     | Load_raises x => Throw x
     | Loaded _ => Return tt
     end, after_fetch url w).
Proof.
  unfold fetch_page, after_fetch, next_load.
  destruct (loads (self_driver w) (clock (self_driver w))); reflexivity.
Qed.

(** with a driver that always shows a count text, reading the count of
    an interval returns, and touches neither the finalized queries nor
    the driver's future *)
Lemma first_page_count_reported s e url w :
  counts_reported (loads (self_driver w)) ->
  exists n w1 evs,
    first_page_count s e url w = (Return n, w1) /\
    self_search_requests w1 = self_search_requests w /\
    loads (self_driver w1) = loads (self_driver w) /\
    stdout w1 = (stdout w ++ evs)%list /\
    no_split_logged evs.
Proof.
  intros H. destruct (H (clock (self_driver w))) as (p & t & Hl & Ht).
  unfold first_page_count, fetch_first_page_results_number, try_except, bind.
  rewrite (fetch_page_Loaded _ _ _ Hl).
  unfold _parse_number_of_results, bind, current_page. simpl.
  rewrite Ht. simpl.
  destruct (parse_count_text t) as [n|x] eqn:E; simpl.
  - exists n. eexists. exists []. simpl. rewrite app_nil_r.
    repeat split; try reflexivity. intros a b k [].
  - apply parse_count_text_raises in E. subst x. simpl.
    exists 10000. eexists. eexists. simpl.
    split; [reflexivity|]. split; [reflexivity|]. split; [reflexivity|].
    split.
    + rewrite <- !app_assoc. reflexivity.
    + intros a b k Hin. simpl in Hin.
      repeat (destruct Hin as [Hin|Hin]; [discriminate|]). exact Hin.
Qed.

Lemma _generate_search_requests_no_IndexError fuel c s e w :
  counts_reported (loads (self_driver w)) ->
  fst (_generate_search_requests fuel c s e w) <> Throw IndexError.
Proof.
  intros H. destruct fuel as [|fuel]; [simpl; discriminate|].
  cbn [_generate_search_requests]. unfold bind at 1.
  destruct (_generate_request_args c s e 1) as [req|x] eqn:E;
    cbn [lift ret throw fst].
  - unfold bind.
    destruct (first_page_count_reported s e (BASE_URL ++ req) w H)
      as (n & w1 & evs & E1 & _).
    rewrite E1. apply partition_on_count_no_IndexError.
  - apply _generate_request_args_raises in E. destruct E; subst; discriminate.
Qed.

(** ** Chains of intervals *)

Lemma chain_app s m e l1 l2 :
  chain s m l1 -> chain (m + 1) e l2 -> chain s e (l1 ++ l2).
Proof.
  revert s. induction l1 as [|iv l1 IH]; intros s H1 H2; [contradiction|].
  destruct H1 as (Hs & Hle & Hrest). simpl.
  split; [exact Hs|]. split; [exact Hle|].
  destruct l1 as [|iv' l1].
  - simpl. subst m. destruct l2; [contradiction|exact H2].
  - change ((iv' :: l1) ++ l2)%list with (iv' :: (l1 ++ l2))%list.
    change (chain (snd iv + 1) e ((iv' :: l1) ++ l2)).
    apply IH; assumption.
Qed.

Lemma chain_ordered s e l : chain s e l -> s <= e.
Proof.
  revert s. induction l as [|iv l IH]; intros s H; [contradiction|].
  destruct H as (Hs & Hle & Hrest). destruct l as [|iv' l].
  - lia.
  - apply IH in Hrest. lia.
Qed.

Lemma chain_covers s e l d :
  chain s e l -> (s <= d <= e <-> exists iv, In iv l /\ in_interval d iv).
Proof.
  revert s. induction l as [|iv l IH]; intros s H; [contradiction|].
  destruct H as (Hs & Hle & Hrest). destruct l as [|iv' l].
  - split.
    + intros Hd. exists iv. split; [left; reflexivity|]. unfold in_interval. lia.
    + intros (iv0 & [<-|[]] & Hd). unfold in_interval in Hd. lia.
  - pose proof (chain_ordered _ _ _ Hrest) as Hord.
    specialize (IH _ Hrest). split.
    + intros Hd. destruct (Z_le_gt_dec d (snd iv)).
      * exists iv. split; [left; reflexivity|]. unfold in_interval. lia.
      * destruct (proj1 IH) as (iv0 & Hin & Hd0); [lia|].
        exists iv0. split; [right; exact Hin|exact Hd0].
    + intros (iv0 & [<-|Hin] & Hd).
      * unfold in_interval in Hd. lia.
      * assert (snd iv + 1 <= d <= e) by (apply IH; eauto). lia.
Qed.

Lemma chain_after s e l iv :
  chain s e l -> In iv l -> s <= fst iv /\ snd iv <= e.
Proof.
  revert s. induction l as [|iv0 l IH]; intros s H Hin; [contradiction|].
  destruct H as (Hs & Hle & Hrest). destruct l as [|iv' l].
  - destruct Hin as [<-|[]]. lia.
  - pose proof (chain_ordered _ _ _ Hrest).
    destruct Hin as [<-|Hin]; [lia|].
    destruct (IH _ Hrest Hin). lia.
Qed.

Lemma chain_sorted s e l : chain s e l -> ForallOrdPairs before l.
Proof.
  revert s. induction l as [|iv l IH]; intros s H; [constructor|].
  destruct H as (Hs & Hle & Hrest). destruct l as [|iv' l].
  - constructor; constructor.
  - constructor.
    + apply Forall_forall. intros iv0 Hin.
      destruct (chain_after _ _ _ _ Hrest Hin). unfold before. lia.
    + eapply IH, Hrest.
Qed.

Lemma before_disjoint iv1 iv2 : before iv1 iv2 -> disjoint iv1 iv2.
Proof. unfold before, disjoint, in_interval. intros H d. lia. Qed.

(** ** The partitioner: the pieces a finished run leaves *)

Lemma bind_unit_inv {B} (m : M unit) (k : unit -> M B) w b w' :
  bind m k w = (Return b, w') ->
  exists w1, m w = (Return tt, w1) /\ k tt w1 = (Return b, w').
Proof.
  unfold bind. destruct (m w) as [[[]|x|] w1]; try discriminate.
  intros H. exists w1. split; [reflexivity|exact H].
Qed.

Lemma last_turn_Return recurse dates i d w w' :
  list_index dates (i + 1) = Raise IndexError ->
  partition_sub_interval recurse dates i d w = (Return tt, w') ->
  w' = w.
Proof.
  intros Hidx H.
  destruct (if i =? 0 then Ok d else Datetime.add_days d 1) as [x|x] eqn:E.
  - rewrite partition_sub_interval_last in H; [congruence|exact Hidx|].
    rewrite E. discriminate.
  - assert (x = OverflowError); [|subst x].
    { destruct (i =? 0); [discriminate|]. eapply add_days_raises, E. }
    rewrite (partition_sub_interval_overflow _ _ _ _ _ E) in H. discriminate.
Qed.

Lemma recursive_turn_Return recurse dates i d w w' end_ :
  list_index dates (i + 1) = Ok end_ ->
  partition_sub_interval recurse dates i d w = (Return tt, w') ->
  (forall a b, fst (recurse a b (logged (Log_trying a b) w)) <> Throw IndexError) ->
  exists start_,
    (if i =? 0 then Ok d else Datetime.add_days d 1) = Ok start_ /\
    recurse start_ end_ (logged (Log_trying start_ end_) w) = (Return tt, w').
Proof.
  intros Hidx H Hno.
  destruct (if i =? 0 then Ok d else Datetime.add_days d 1) as [x|x] eqn:E.
  - exists x. split; [reflexivity|].
    rewrite (partition_sub_interval_recurse _ _ _ _ _ _ _ E Hidx) in H.
    specialize (Hno x end_).
    destruct (recurse x end_ _) as [[[]|[]|] w2]; simpl in *;
      try discriminate; try congruence.
  - assert (x = OverflowError); [|subst x].
    { destruct (i =? 0); [discriminate|]. eapply add_days_raises, E. }
    rewrite (partition_sub_interval_overflow _ _ _ _ _ E) in H. discriminate.
Qed.

(** A finished run on [[s, e]] cuts the interval into consecutive pieces;
    a piece is either finalized, with its page-1 query appended, or is a
    single day that the run found saturated and dropped. *)
Lemma partition_pieces fuel : forall c s e w w',
  counts_reported (loads (self_driver w)) ->
  _generate_search_requests fuel c s e w = (Return tt, w') ->
  exists (pieces : list (interval * bool)) rs evs,
    chain s e (map fst pieces) /\
    Forall2 (encodes c) (map fst (filter snd pieces)) rs /\
    self_search_requests w' = (self_search_requests w ++ rs)%list /\
    stdout w' = (stdout w ++ evs)%list /\
    (forall iv, In (iv, false) pieces ->
                In (Log_splitting (fst iv) (fst iv) 0) evs) /\
    loads (self_driver w') = loads (self_driver w).
Proof.
  induction fuel as [|fuel IH]; intros c s e w w' Hsrc H; [discriminate|].
  cbn [_generate_search_requests] in H. unfold bind at 1 in H.
  destruct (_generate_request_args c s e 1) as [req|x] eqn:Ereq;
    cbn [lift ret throw] in H; [|discriminate].
  pose proof (_generate_request_args_ordered _ _ _ _ _ Ereq) as Hse.
  unfold bind at 1 in H.
  destruct (first_page_count_reported s e (BASE_URL ++ req) w Hsrc)
    as (n & w1 & evs1 & E1 & R1 & L1 & O1 & NS1).
  rewrite E1 in H. unfold partition_on_count in H.
  destruct (Z.ltb_spec n 10000) as [Hn|Hn].
  - (* below the cap: the interval is finalized *)
    unfold bind in H. rewrite print_logged in H.
    unfold append_search_request in H. inversion H; subst w'; clear H.
    exists [((s, e), true)], [req], (evs1 ++ [Log_less_than_10000 n s e])%list.
    split; [simpl; auto|]. split; [constructor; [exact Ereq|constructor]|].
    split; [simpl; congruence|].
    split; [simpl; rewrite O1, <- app_assoc; reflexivity|].
    split; [|exact L1].
    intros iv [Hiv|[]]. discriminate.
  - (* saturated: split *)
    cbv zeta in H. unfold Datetime.days_between, DEFAULT_BATCHES_NUMBER in H.
    assert (Hno : forall w0, loads (self_driver w0) = loads (self_driver w) ->
                  forall a b, fst (_generate_search_requests fuel c a b
                                     (logged (Log_trying a b) w0))
                              <> Throw IndexError).
    { intros w0 Hw0 a b. apply _generate_search_requests_no_IndexError.
      simpl. rewrite Hw0. exact Hsrc. }
    assert (Hcases : e - s = 0 \/ e - s = 1 \/ 2 <= e - s) by lia.
    destruct Hcases as [Hd|[Hd|Hd]].
    + (* a single day: no sub-interval *)
      replace (Z.min (e - s) 2) with 0 in H by lia.
      apply bind_unit_inv in H. destruct H as (w2 & Hp & H).
      rewrite print_logged in Hp. inversion Hp; subst w2; clear Hp.
      rewrite split_dates_0 in H. cbn [enumerate enumerate_from for_each] in H.
      apply bind_unit_inv in H. destruct H as (w3 & Hb & H).
      inversion H; subst w3; clear H. cbn [fst snd] in Hb.
      apply last_turn_Return in Hb; [|reflexivity]. subst w'.
      exists [((s, e), false)], [], (evs1 ++ [Log_splitting s e 0])%list.
      split; [simpl; repeat split; auto; lia|]. split; [constructor|].
      split; [simpl; rewrite app_nil_r; exact R1|].
      split; [simpl; rewrite O1, <- app_assoc; reflexivity|].
      split; [|exact L1].
      intros iv [Hiv|[]]. inversion Hiv; subst iv. simpl.
      replace e with s by lia.
      apply in_or_app. right. left. reflexivity.
    + (* two days: one sub-interval, the interval itself *)
      replace (Z.min (e - s) 2) with 1 in H by lia.
      apply bind_unit_inv in H. destruct H as (w2 & Hp & H).
      rewrite print_logged in Hp. inversion Hp; subst w2; clear Hp.
      rewrite split_dates_1 in H.
      change (enumerate [s; e]) with [(0, s); (1, e)] in H.
      cbn [for_each] in H.
      apply bind_unit_inv in H. destruct H as (w3 & Hb1 & H).
      apply bind_unit_inv in H. destruct H as (w4 & Hb2 & H).
      inversion H; subst w4; clear H. cbn [fst snd] in Hb1, Hb2.
      apply last_turn_Return in Hb2; [|reflexivity]. subst w3.
      eapply recursive_turn_Return in Hb1;
        [|reflexivity|apply Hno; simpl; exact L1].
      destruct Hb1 as (st & Est & Hrec). inversion Est; subst st; clear Est.
      apply IH in Hrec; [|simpl; rewrite L1; exact Hsrc].
      destruct Hrec as (pieces & rs & evs & Hch & Hrs & Hsr & Hout & Hdrop & Hl).
      exists pieces, rs,
        (evs1 ++ [Log_splitting s e 1] ++ [Log_trying s e] ++ evs)%list.
      split; [exact Hch|]. split; [exact Hrs|].
      split; [rewrite Hsr; simpl; rewrite R1; reflexivity|].
      split; [rewrite Hout; simpl; rewrite O1, <- !app_assoc; reflexivity|].
      split; [|rewrite Hl; simpl; exact L1].
      intros iv Hiv. apply in_or_app. right. right. right.
      apply Hdrop, Hiv.
    + (* longer: two sub-intervals *)
      replace (Z.min (e - s) 2) with 2 in H by lia.
      apply bind_unit_inv in H. destruct H as (w2 & Hp & H).
      rewrite print_logged in Hp. inversion Hp; subst w2; clear Hp.
      rewrite split_dates_2 in H.
      set (m := s + (e - s) / 2) in *.
      change (enumerate [s; m; e]) with [(0, s); (1, m); (2, e)] in H.
      cbn [for_each] in H.
      apply bind_unit_inv in H. destruct H as (w3 & Hb1 & H).
      apply bind_unit_inv in H. destruct H as (w4 & Hb2 & H).
      apply bind_unit_inv in H. destruct H as (w5 & Hb3 & H).
      inversion H; subst w5; clear H. cbn [fst snd] in Hb1, Hb2, Hb3.
      apply last_turn_Return in Hb3; [|reflexivity]. subst w4.
      eapply recursive_turn_Return in Hb1;
        [|reflexivity|apply Hno; simpl; exact L1].
      destruct Hb1 as (st & Est & Hrec1). inversion Est; subst st; clear Est.
      apply IH in Hrec1; [|simpl; rewrite L1; exact Hsrc].
      destruct Hrec1
        as (pieces1 & rs1 & evs2 & Hch1 & Hrs1 & Hsr1 & Hout1 & Hdrop1 & Hl1).
      assert (L3 : loads (self_driver w3) = loads (self_driver w)).
      { rewrite Hl1. simpl. exact L1. }
      eapply recursive_turn_Return in Hb2; [|reflexivity|apply Hno; exact L3].
      destruct Hb2 as (st & Est & Hrec2). cbn [Z.eqb] in Est.
      apply add_days_Ok in Est. subst st.
      apply IH in Hrec2; [|simpl; rewrite L3; exact Hsrc].
      destruct Hrec2
        as (pieces2 & rs2 & evs3 & Hch2 & Hrs2 & Hsr2 & Hout2 & Hdrop2 & Hl2).
      exists (pieces1 ++ pieces2)%list, (rs1 ++ rs2)%list,
        (evs1 ++ [Log_splitting s e 2] ++ [Log_trying s m] ++ evs2
              ++ [Log_trying (m + 1) e] ++ evs3)%list.
      split; [rewrite map_app; eapply chain_app; eassumption|].
      split; [rewrite filter_app, map_app; apply Forall2_app; assumption|].
      split; [rewrite Hsr2; simpl; rewrite Hsr1; simpl;
              rewrite R1, app_assoc; reflexivity|].
      split; [rewrite Hout2; simpl; rewrite Hout1; simpl;
              rewrite O1, <- !app_assoc; reflexivity|].
      split; [|rewrite Hl2; simpl; exact L3].
      intros iv Hiv. apply in_app_or in Hiv.
      apply in_or_app. right. cbn [app]. right. right. apply in_or_app.
      destruct Hiv as [Hiv|Hiv]; [left; apply Hdrop1, Hiv|].
      right. right. apply Hdrop2, Hiv.
Qed.

Lemma skipn_app_exact {X} (l r : list X) : skipn (List.length l) (l ++ r) = r.
Proof. induction l as [|x l IH]; simpl; auto. Qed.

Lemma ordered_pairs_disjoint ivs :
  ForallOrdPairs before ivs -> ForallOrdPairs disjoint ivs.
Proof.
  induction 1 as [|iv l Hhd Htl IH]; constructor; [|exact IH].
  eapply Forall_impl; [|exact Hhd]. intros iv'. apply before_disjoint.
Qed.

Lemma all_finalized (pieces : list (interval * bool)) :
  (forall iv, ~ In (iv, false) pieces) -> filter snd pieces = pieces.
Proof.
  induction pieces as [|[iv b] l IH]; intros H; [reflexivity|].
  simpl. destruct b.
  - f_equal. apply IH. intros iv' Hin. apply (H iv'). right. exact Hin.
  - exfalso. apply (H iv). left. reflexivity.
Qed.

Lemma saturated_once_reported : counts_reported Sample.saturated_once.
Proof.
  intros [|k]; (eexists; eexists; split; [reflexivity|reflexivity]).
Qed.

(** ** Reading the count of an interval *)

Lemma first_page_count_shown s e url w p t n :
  loads (self_driver w) (clock (self_driver w)) = Loaded p ->
  show_result_count p = Ok t ->
  parse_count_text t = Ok n ->
  first_page_count s e url w = (Return n, fetched url p w).
Proof.
  intros Hl Ht Hn.
  unfold first_page_count, fetch_first_page_results_number, try_except, bind.
  rewrite (fetch_page_Loaded _ _ _ Hl).
  unfold _parse_number_of_results, bind, current_page. simpl.
  rewrite Ht. simpl. rewrite Hn. reflexivity.
Qed.

Lemma first_page_count_unparsable s e url w p t :
  loads (self_driver w) (clock (self_driver w)) = Loaded p ->
  show_result_count p = Ok t ->
  parse_count_text t = Raise ValueError ->
  first_page_count s e url w = (Return 10000, fetched_unparsable s e url p w).
Proof.
  intros Hl Ht Hn.
  unfold first_page_count, fetch_first_page_results_number, try_except, bind.
  rewrite (fetch_page_Loaded _ _ _ Hl).
  unfold _parse_number_of_results, bind, current_page. simpl.
  rewrite Ht. simpl. rewrite Hn. simpl.
  unfold fetched_unparsable. simpl. rewrite <- !app_assoc. reflexivity.
Qed.

(** C4. When the page-1 load of an interval is verified but its count
    text does not parse, the [ValueError] does not leave the partitioner:
    the count is taken to be 10000, the interval is not finalized, and
    the call goes on exactly as the split for a count of 10000
    prescribes. *)
Theorem unparsable_count_forces_split :
  forall fuel c (s e : Datetime.date) (w : world) p t req,
    _generate_request_args c s e 1 = Ok req ->
    loads (self_driver w) (clock (self_driver w)) = Loaded p ->
    show_result_count p = Ok t ->
    parse_count_text t = Raise ValueError ->
    let w1 := fetched_unparsable s e (BASE_URL ++ req) p w in
    let num_batches := Z.min (Datetime.days_between s e) DEFAULT_BATCHES_NUMBER in
    let dates := split_date_range_in_n s e num_batches in
    first_page_count s e (BASE_URL ++ req) w = (Return 10000, w1) /\
    self_search_requests w1 = self_search_requests w /\
    _generate_search_requests (S fuel) c s e w
    = partition_on_count (_generate_search_requests fuel c) s e req 10000 w1 /\
    _generate_search_requests (S fuel) c s e w
    = for_each (enumerate dates)
        (fun id => partition_sub_interval (_generate_search_requests fuel c)
                     dates (fst id) (snd id))
        (logged (Log_splitting s e num_batches) w1).
Proof.
  intros fuel c s e w p t req Hreq Hl Ht Hn w1 num_batches dates.
  pose proof (first_page_count_unparsable s e (BASE_URL ++ req) w p t Hl Ht Hn)
    as Hcount.
  assert (Hstep : _generate_search_requests (S fuel) c s e w
                  = partition_on_count (_generate_search_requests fuel c)
                      s e req 10000 w1).
  { cbn [_generate_search_requests]. unfold bind at 1. rewrite Hreq.
    cbn [lift ret]. unfold bind at 1. rewrite Hcount. reflexivity. }
  split; [exact Hcount|]. split; [reflexivity|]. split; [exact Hstep|].
  rewrite Hstep. reflexivity.
Qed.

Lemma unparsable_count_forces_split_witness :
  exists w1,
    first_page_count Sample.d2020_01_01 Sample.d2020_01_08
      (BASE_URL ++ "q=a&dateRange=custom&startdt=2020-01-01&enddt=2020-01-08&page=1")
      (Sample.fresh_world (fun _ => Sample.page_showing "No results" []))
    = (Return 10000, w1) /\
    self_search_requests w1 = [].
Proof.
  pose (p := mkPage (Ok "No results"%string) (Ok [])).
  destruct (unparsable_count_forces_split 3 Sample.keyword_a
              Sample.d2020_01_01 Sample.d2020_01_08
              (Sample.fresh_world (fun _ => Sample.page_showing "No results" []))
              p "No results"
              "q=a&dateRange=custom&startdt=2020-01-01&enddt=2020-01-08&page=1")
    as (H1 & H2 & _).
  - vm_compute. reflexivity.
  - reflexivity.
  - reflexivity.
  - vm_compute. reflexivity.
  - eexists. split; [exact H1|exact H2].
Defined.

(** ** A two-day interval that stays saturated *)

(** C2, at the failing input. On an interval of two days, [[s, s + 1]],
    [(end_date - start_date).days] is 1, so the split is into
    [min(1, 2) = 1] batch, whose only sub-interval is [[s, s + 1]]
    itself: with a source that keeps reporting the cap, the call recurses
    on the same interval whatever the recursion bound. *)
Theorem two_day_interval_recurses_for_ever :
  forall fuel (s : Datetime.date) sr k req cur out fs,
    fst (_generate_search_requests fuel Sample.keyword_a s (s + 1)
           (mkWorld sr (mkBrowser Sample.always_saturated k req cur) out fs))
    = OutOfFuel.
Proof.
  induction fuel as [|fuel IH]; intros s sr k req cur out fs; [reflexivity|].
  cbn [_generate_search_requests]. unfold bind at 1.
  destruct (_generate_request_args Sample.keyword_a s (s + 1) 1) as [r|x] eqn:E.
  - cbn [lift ret]. unfold bind at 1.
    rewrite (first_page_count_shown _ _ _ _
               (mkPage (Ok "10,000 search results"%string) (Ok []))
               "10,000 search results" 10000);
      [|reflexivity|reflexivity|vm_compute; reflexivity].
    unfold partition_on_count. change (10000 <? 10000) with false. cbv iota.
    unfold bind at 1. rewrite print_logged.
    unfold Datetime.days_between, DEFAULT_BATCHES_NUMBER.
    replace (Z.min (s + 1 - s) 2) with 1 by lia.
    rewrite split_dates_1.
    change (enumerate [s; s + 1]) with [(0, s); (1, s + 1)].
    cbn [for_each]. unfold bind at 1. cbn [fst snd].
    erewrite partition_sub_interval_recurse; [|reflexivity|reflexivity].
    unfold logged, fetched. cbn [self_search_requests self_driver stdout files
                                 loads clock requested current].
    match goal with
    | |- context [_generate_search_requests fuel _ s (s + 1) ?w] =>
        pose proof (IH s (self_search_requests w) (clock (self_driver w))
                      (requested (self_driver w)) (current (self_driver w))
                      (stdout w) (files w)) as H;
        cbn [self_search_requests self_driver stdout files
             loads clock requested current] in H;
        destruct (_generate_search_requests fuel Sample.keyword_a s (s + 1) w)
          as [[[]|ex|] w3]
    end; simpl in H; try discriminate H.
    reflexivity.
  - unfold _generate_request_args in E.
    destruct (Z.ltb_spec (s + 1) s); [lia|]. discriminate E.
Qed.

(** ** Fetch failures during partitioning *)

Lemma no_fetch_aborts {A} (m : M A) : no_fetch m -> aborts_on_fetch_failure m.
Proof.
  intros H w r w' E. apply H in E. rewrite E.
  split; [reflexivity|]. split; [lia|]. intros k x Hk. lia.
Qed.

Lemma no_fetch_ret {A} (a : A) : no_fetch (ret a).
Proof. intros w r w' E. inversion E. reflexivity. Qed.

Lemma no_fetch_throw {A} x : no_fetch (@throw A x).
Proof. intros w r w' E. inversion E. reflexivity. Qed.

Lemma no_fetch_lift {A} (r : result A) : no_fetch (lift r).
Proof. destruct r; [apply no_fetch_ret|apply no_fetch_throw]. Qed.

Lemma no_fetch_print ev : no_fetch (print ev).
Proof. intros w r w' E. inversion E. reflexivity. Qed.

Lemma no_fetch_append r : no_fetch (append_search_request r).
Proof. intros w r0 w' E. inversion E. reflexivity. Qed.

Lemma no_fetch_bind {A B} (m : M A) (k : A -> M B) :
  no_fetch m -> (forall a, no_fetch (k a)) -> no_fetch (bind m k).
Proof.
  intros Hm Hk w r w' E. unfold bind in E.
  destruct (m w) as [[a|x|] w1] eqn:E1.
  - apply Hk in E. apply Hm in E1. congruence.
  - inversion E; subst. eapply Hm, E1.
  - inversion E; subst. eapply Hm, E1.
Qed.

Lemma aborts_bind {A B} (m : M A) (k : A -> M B) :
  aborts_on_fetch_failure m -> (forall a, aborts_on_fetch_failure (k a)) ->
  aborts_on_fetch_failure (bind m k).
Proof.
  intros Hm Hk w r w' E. unfold bind in E.
  destruct (m w) as [[a|x|] w1] eqn:E1.
  - destruct (Hm _ _ _ E1) as (L1 & C1 & F1).
    destruct (Hk a _ _ _ E) as (L2 & C2 & F2).
    split; [congruence|]. split; [lia|].
    intros k0 x Hk0 Hx Hv Hi.
    destruct (Nat.lt_ge_cases k0 (clock (self_driver w1))) as [Hlt|Hge].
    + destruct (F1 k0 x) as (Habs & _); auto; [lia|discriminate Habs].
    + apply F2; auto; [lia|]. rewrite L1. exact Hx.
  - inversion E; subst. destruct (Hm _ _ _ E1) as (L1 & C1 & F1).
    split; [exact L1|]. split; [exact C1|]. intros k0 y Hk0 Hy Hv Hi.
    destruct (F1 k0 y Hk0 Hy Hv Hi) as (Habs & Hc).
    inversion Habs. split; [reflexivity|exact Hc].
  - inversion E; subst. destruct (Hm _ _ _ E1) as (L1 & C1 & F1).
    split; [exact L1|]. split; [exact C1|]. intros k0 y Hk0 Hy Hv Hi.
    destruct (F1 k0 y Hk0 Hy Hv Hi) as (Habs & Hc). discriminate Habs.
Qed.

(** a handler that only catches [ValueError] or [IndexError], and
    fetches nothing, keeps the property *)
Lemma aborts_try_except {A} (body : M A) handler :
  aborts_on_fetch_failure body ->
  (forall x h, handler x = Some h ->
               (x = ValueError \/ x = IndexError) /\ no_fetch h) ->
  aborts_on_fetch_failure (try_except body handler).
Proof.
  intros Hb Hh w r w' E. unfold try_except in E.
  destruct (body w) as [[a|x|] w1] eqn:E1.
  - inversion E; subst. apply (Hb _ _ _ E1).
  - destruct (handler x) as [h|] eqn:Eh.
    + destruct (Hh _ _ Eh) as (Hx & Hnf). apply Hnf in E.
      destruct (Hb _ _ _ E1) as (L1 & C1 & F1). rewrite E.
      split; [exact L1|]. split; [exact C1|].
      intros k0 y Hk0 Hy Hv Hi.
      destruct (F1 k0 y Hk0 Hy Hv Hi) as (Habs & _).
      inversion Habs; subst. destruct Hx; contradiction.
    + inversion E; subst. apply (Hb _ _ _ E1).
  - inversion E; subst. apply (Hb _ _ _ E1).
Qed.

Lemma aborts_for_each {X} (xs : list X) (body : X -> M unit) :
  (forall x, aborts_on_fetch_failure (body x)) ->
  aborts_on_fetch_failure (for_each xs body).
Proof.
  intros Hb. induction xs as [|x xs IH]; simpl.
  - apply no_fetch_aborts, no_fetch_ret.
  - apply aborts_bind; [apply Hb|intros _; exact IH].
Qed.

Lemma no_fetch_parse_number : no_fetch _parse_number_of_results.
Proof.
  unfold _parse_number_of_results.
  apply no_fetch_bind.
  - intros w r w' E. unfold current_page in E.
    destruct (current (self_driver w)); inversion E; reflexivity.
  - intros p. apply no_fetch_bind; [apply no_fetch_lift|].
    intros t. apply no_fetch_lift.
Qed.

Lemma aborts_fetch_first_page url :
  aborts_on_fetch_failure (fetch_first_page_results_number url).
Proof.
  unfold fetch_first_page_results_number. apply aborts_bind.
  - intros w r w' E. unfold try_except in E.
    destruct (loads (self_driver w) (clock (self_driver w))) as [x|p] eqn:El.
    + rewrite (fetch_page_raises _ _ _ El) in E.
      assert (Hr : r = Throw x /\ self_driver w'
                   = mkBrowser (loads (self_driver w)) (S (clock (self_driver w)))
                       (requested (self_driver w) ++ [url])%list None).
      { destruct x; inversion E; subst; split; reflexivity. }
      destruct Hr as (-> & ->). simpl.
      split; [reflexivity|]. split; [lia|].
      intros k0 y Hk0 Hy _ _. assert (k0 = clock (self_driver w)) by lia.
      subst k0. split; [congruence|reflexivity].
    + rewrite (fetch_page_Loaded _ _ _ El) in E. inversion E; subst. simpl.
      split; [reflexivity|]. split; [lia|].
      intros k0 y Hk0 Hy _ _. assert (k0 = clock (self_driver w)) by lia.
      subst k0. congruence.
  - intros _. apply no_fetch_aborts.
    intros w r w' E. unfold try_except in E.
    destruct (_parse_number_of_results w) as [[a|x|] w1] eqn:E1;
      apply no_fetch_parse_number in E1.
    + inversion E; subst. exact E1.
    + inversion E; subst. simpl. exact E1.
    + inversion E; subst. exact E1.
Qed.

Lemma aborts_first_page_count s e url :
  aborts_on_fetch_failure (first_page_count s e url).
Proof.
  unfold first_page_count. apply aborts_try_except.
  - apply aborts_fetch_first_page.
  - intros x h Hx. destruct x; try discriminate Hx.
    inversion Hx; subst. split; [left; reflexivity|].
    apply no_fetch_bind; [apply no_fetch_print|intros _; apply no_fetch_ret].
Qed.

Lemma aborts_partition_sub_interval recurse dates i d :
  (forall a b, aborts_on_fetch_failure (recurse a b)) ->
  aborts_on_fetch_failure (partition_sub_interval recurse dates i d).
Proof.
  intros Hrec. unfold partition_sub_interval. apply aborts_try_except.
  - apply aborts_bind.
    + destruct (i =? 0); apply no_fetch_aborts;
        [apply no_fetch_ret|apply no_fetch_lift].
    + intros st. apply aborts_bind; [apply no_fetch_aborts, no_fetch_lift|].
      intros en. apply aborts_bind; [apply no_fetch_aborts, no_fetch_print|].
      intros _. apply Hrec.
  - intros x h Hx. destruct x; try discriminate Hx.
    inversion Hx; subst. split; [right; reflexivity|apply no_fetch_ret].
Qed.

Lemma aborts_generate_search_requests fuel : forall c s e,
  aborts_on_fetch_failure (_generate_search_requests fuel c s e).
Proof.
  induction fuel as [|fuel IH]; intros c s e.
  - apply no_fetch_aborts. intros w r w' E. inversion E. reflexivity.
  - cbn [_generate_search_requests]. apply aborts_bind.
    + apply no_fetch_aborts, no_fetch_lift.
    + intros req. apply aborts_bind; [apply aborts_first_page_count|].
      intros n. unfold partition_on_count. destruct (n <? 10000).
      * apply no_fetch_aborts, no_fetch_bind;
          [apply no_fetch_print|intros _; apply no_fetch_append].
      * apply aborts_bind; [apply no_fetch_aborts, no_fetch_print|].
        intros _. apply aborts_for_each. intros [i d].
        apply aborts_partition_sub_interval. intros a b. apply IH.
Qed.

(** a fetch that fails: the count read prints the three lines of
    [fetch_first_page_results_number] when the exception is
    [PageCheckFailedError], nothing otherwise, and re-raises *)
Lemma first_page_count_fetch_failure s e url w x :
  next_load w = Load_raises x -> x <> ValueError ->
  exists w1,
    first_page_count s e url w = (Throw x, w1) /\
    stdout w1 = (stdout w ++ first_page_failure_lines x url)%list.
Proof.
  intros Hl Hx.
  unfold first_page_count, fetch_first_page_results_number, try_except, bind.
  rewrite fetch_page_after, Hl.
  destruct x; try contradiction; eexists; (split; [reflexivity|]);
    cbn [first_page_failure_lines after_fetch stdout print];
    rewrite ?app_nil_r, <- ?app_assoc; reflexivity.
Qed.

(** a turn of the loop that ends with an exception ends in the world in
    which it was raised: the handler of the loop adds nothing *)
Lemma turn_Throw recurse dates i d w y w' :
  partition_sub_interval recurse dates i d w = (Throw y, w') ->
  (y = OverflowError /\ w' = w) \/
  exists start_ end_,
    recurse start_ end_ (logged (Log_trying start_ end_) w) = (Throw y, w').
Proof.
  intros H.
  destruct (if i =? 0 then Ok d else Datetime.add_days d 1) as [st|z] eqn:Est.
  - destruct (list_index dates (i + 1)) as [en|z] eqn:Een.
    + right. exists st, en.
      rewrite (partition_sub_interval_recurse _ _ _ _ _ _ _ Est Een) in H.
      destruct (recurse st en _) as [[[]|[]|] w2]; try discriminate H; exact H.
    + assert (z = IndexError); [|subst z].
      { unfold list_index in Een.
        destruct (i + 1 <? 0); destruct (nth_error _ _); congruence. }
      rewrite partition_sub_interval_last in H;
        [discriminate H|exact Een|rewrite Est; discriminate].
  - assert (z = OverflowError); [|subst z].
    { destruct (i =? 0); [discriminate|]. eapply add_days_raises, Est. }
    rewrite (partition_sub_interval_overflow _ _ _ _ _ Est) in H.
    inversion H. left. split; reflexivity.
Qed.

(** C6, as the code has it. A fetch failure met during partitioning is
    not caught per sub-interval: when a load that the partitioner asks for
    raises an exception other than [ValueError] and [IndexError], the
    whole call ends with that exception right after that load, so no
    sibling sub-interval is partitioned after it. The handler of the loop
    catches [IndexError] alone, which is why no turn of the loop ever
    ends with one. As to what is printed: the count read that meets the
    failing load prints the three lines of
    [fetch_first_page_results_number] when the exception is
    [PageCheckFailedError] and nothing otherwise, and re-raises; and a
    turn of the loop that ends with an exception ends in the very world
    in which the exception was raised, the handler of the loop having
    printed nothing. *)
Theorem fetch_failure_aborts_partitioning :
  forall fuel c (s e : Datetime.date) (w w' : world) r (k : nat) (x : exn),
    _generate_search_requests fuel c s e w = (r, w') ->
    (clock (self_driver w) <= k < clock (self_driver w'))%nat ->
    loads (self_driver w) k = Load_raises x ->
    x <> ValueError -> x <> IndexError ->
    r = Throw x /\ clock (self_driver w') = S k /\
    (forall recurse dates i d w0,
      fst (partition_sub_interval recurse dates i d w0) <> Throw IndexError) /\
    (forall s0 e0 url w0,
       next_load w0 = Load_raises x ->
       exists w1,
         first_page_count s0 e0 url w0 = (Throw x, w1) /\
         stdout w1 = (stdout w0 ++ first_page_failure_lines x url)%list) /\
    (forall recurse dates i d w0 y w1,
       partition_sub_interval recurse dates i d w0 = (Throw y, w1) ->
       (y = OverflowError /\ w1 = w0) \/
       exists start_ end_,
         recurse start_ end_ (logged (Log_trying start_ end_) w0)
         = (Throw y, w1)).
Proof.
  intros fuel c s e w w' r k x Hrun Hk Hx Hv Hi.
  destruct (aborts_generate_search_requests fuel c s e w r w' Hrun)
    as (_ & _ & H).
  destruct (H k x Hk Hx Hv Hi) as (Hr & Hc).
  split; [exact Hr|]. split; [exact Hc|]. split; [|split].
  - intros. apply partition_sub_interval_no_IndexError.
  - intros s0 e0 url w0 Hl. apply first_page_count_fetch_failure; assumption.
  - intros recurse dates i d w0 y w1. apply turn_Throw.
Qed.

Lemma fetch_failure_aborts_partitioning_witness :
  fst (_generate_search_requests 5 Sample.keyword_a
         Sample.d2020_01_01 Sample.d2020_01_08
         (Sample.fresh_world Sample.fails_on_second))
  = Throw (OtherException 7).
Proof.
  pose (w := Sample.fresh_world Sample.fails_on_second).
  pose (run := _generate_search_requests 5 Sample.keyword_a
                 Sample.d2020_01_01 Sample.d2020_01_08 w).
  destruct (fetch_failure_aborts_partitioning 5 Sample.keyword_a
              Sample.d2020_01_01 Sample.d2020_01_08 w (snd run) (fst run)
              1%nat (OtherException 7)) as (Hr & _).
  - vm_compute. reflexivity.
  - vm_compute. lia.
  - reflexivity.
  - discriminate.
  - discriminate.
  - exact Hr.
Defined.

(** C6, as the spec states it, does not hold: the first sub-interval of a saturated
    interval meets an unexpected exception; the partitioner ends with it,
    never asks for the sibling sub-interval (two loads in all), and
    finalizes nothing. *)
Lemma sub_interval_failure_not_skipped :
  let '(r, w') :=
    _generate_search_requests 5 Sample.keyword_a
      Sample.d2020_01_01 Sample.d2020_01_08
      (Sample.fresh_world Sample.fails_on_second) in
  r = Throw (OtherException 7) /\
  requested (self_driver w')
  = [ BASE_URL ++ "q=a&dateRange=custom&startdt=2020-01-01&enddt=2020-01-08&page=1";
      BASE_URL ++ "q=a&dateRange=custom&startdt=2020-01-01&enddt=2020-01-04&page=1" ]%string /\
  self_search_requests w' = [] /\
  stdout w' = [ Log_splitting Sample.d2020_01_01 Sample.d2020_01_08 2;
                Log_trying Sample.d2020_01_01 Sample.d2020_01_04 ].
Proof. vm_compute. repeat split. Qed.

(** ** The record parser *)

(** the two URLs of a parsed row are built from [cik.strip("0")] *)
Lemma parse_table_row_urls r rec :
  parse_table_row r = Ok rec ->
  exists cik adsh file_name,
    company_cik rec = Some cik /\
    filing_details_url rec
    = archive_root ++ PyStr.strip "0" cik ++ "/" ++ PyStr.remove_char "-" adsh
                   ++ "/" ++ adsh ++ "-index.html" /\
    filing_document_url rec
    = archive_root ++ PyStr.strip "0" cik ++ "/" ++ PyStr.remove_char "-" adsh
                   ++ "/" ++ format_opt file_name.
Proof.
  unfold parse_table_row.
  destruct (try_or_none (find_element (el_filetype r))) as [ft|];
    cbn [deref bind_result]; [|discriminate].
  destruct (find_element (filetype_preview ft)) as [lnk|];
    cbn [bind_result]; [|discriminate].
  destruct (try_or_none _) as [cik|]; cbn [deref bind_result]; [|discriminate].
  destruct (attr_data_adsh lnk) as [adsh|]; cbn [deref bind_result format_opt];
    [|discriminate].
  intros H. inversion H; subst rec; clear H. cbn [company_cik filing_details_url
                                                    filing_document_url].
  exists cik, adsh, (attr_data_file_name lnk). repeat split.
Qed.

(** C7, at the failing input. For the row whose identifier reads
    [0000012340] the record keeps the raw identifier in [company_cik],
    but the path segment of both URLs is [1234]: [strip("0")] removes the
    trailing zero as well, where stripping the leading zeros gives
    [12340]. *)
Theorem cik_trailing_zero_lost :
  parse_table_row Sample.row_12340 = Ok Sample.record_12340 /\
  company_cik Sample.record_12340 = Some "0000012340"%string /\
  PyStr.lstrip "0" "0000012340" = "12340"%string /\
  PyStr.strip "0" "0000012340" = "1234"%string /\
  filing_details_url Sample.record_12340
  = (archive_root ++ "1234" ++ "/0001223/0001-22-3-index.html")%string /\
  filing_document_url Sample.record_12340
  = (archive_root ++ "1234" ++ "/0001223/doc.htm")%string.
Proof. vm_compute. repeat split. Qed.

(** ** The encoder: its output, field by field *)

Lemma append_assoc (a b c : string) : ((a ++ b) ++ c = a ++ (b ++ c))%string.
Proof. induction a as [|x a IH]; simpl; [reflexivity|]. rewrite IH. reflexivity. Qed.

Lemma append_nil_r (a : string) : (a ++ "" = a)%string.
Proof. induction a as [|x a IH]; simpl; [reflexivity|]. rewrite IH. reflexivity. Qed.

Lemma effective_entity_cases c :
  (truthy (entity_identifier c) = true /\
   exists s, entity_identifier c = Some s /\ effective_entity c = Some s) \/
  (truthy (entity_identifier c) = false /\ effective_entity c = None).
Proof.
  unfold effective_entity. destruct (truthy (entity_identifier c)) eqn:E.
  - left. split; [reflexivity|]. destruct (entity_identifier c) as [s|].
    + exists s. split; reflexivity.
    + discriminate E.
  - right. split; reflexivity.
Qed.

Lemma request_args_fields c s e p r :
  _generate_request_args c s e p = Ok r ->
  exists code,
    category_code c = Ok code /\
    r = request_string (search_phrase c) (Datetime.strftime_Ymd s)
          (Datetime.strftime_Ymd e) (PyStr.str_of_int p)
          (effective_entity c) code.
Proof.
  unfold _generate_request_args, category_code.
  destruct (e <? s); [discriminate|].
  destruct (effective_entity_cases c) as [(Ht & ent & He & Hf)|(Ht & Hf)];
    rewrite Ht, Hf; [rewrite He|];
    (destruct (truthy (filing_category c));
     [destruct (dict_get _ _) as [code|x]; [|discriminate]|]);
    intros H; inversion H; subst r; clear H;
    eexists; (split; [reflexivity|]);
    unfold Urllib.urlencode, request_string, optional_field;
    cbn [map app PyStr.join fst snd];
    change (Urllib.quote_plus "q") with "q"%string;
    change (Urllib.quote_plus "dateRange") with "dateRange"%string;
    change (Urllib.quote_plus "custom") with "custom"%string;
    change (Urllib.quote_plus "startdt") with "startdt"%string;
    change (Urllib.quote_plus "enddt") with "enddt"%string;
    change (Urllib.quote_plus "page") with "page"%string;
    change (Urllib.quote_plus "entityName") with "entityName"%string;
    change (Urllib.quote_plus "category") with "category"%string;
    repeat rewrite append_assoc; cbn [append]; repeat rewrite append_nil_r;
    reflexivity.
Qed.

(** ** The page field of a finalized query *)

Lemma page_1_field c s e r :
  _generate_request_args c s e 1 = Ok r ->
  exists pre suf, r = (pre ++ "&page=1" ++ suf)%string.
Proof.
  intros H. apply request_args_fields in H. destruct H as (code & _ & ->).
  unfold request_string.
  change (Urllib.quote_plus (PyStr.str_of_int 1)) with "1"%string.
  exists ("q=" ++ Urllib.quote_plus (Urllib.quote (search_phrase c))
          ++ "&dateRange=custom&startdt="
          ++ Urllib.quote_plus (Datetime.strftime_Ymd s)
          ++ "&enddt=" ++ Urllib.quote_plus (Datetime.strftime_Ymd e))%string,
         (optional_field "entityName" (effective_entity c)
          ++ optional_field "category" code)%string.
  repeat rewrite append_assoc. reflexivity.
Qed.

(** C3, as the code has it. Whenever the count of an interval is below
    10000, the string appended to [self.search_requests] is the query
    string of page 1 of that interval, as [_generate_request_args] built
    it with [page_number=1]: it carries the field [page=1]. *)
Theorem finalized_query_is_page_1 :
  forall fuel c (s e : Datetime.date) (w : world) p t n req,
    _generate_request_args c s e 1 = Ok req ->
    loads (self_driver w) (clock (self_driver w)) = Loaded p ->
    show_result_count p = Ok t ->
    parse_count_text t = Ok n ->
    n < 10000 ->
    exists w',
      _generate_search_requests (S fuel) c s e w = (Return tt, w') /\
      self_search_requests w' = (self_search_requests w ++ [req])%list /\
      exists pre suf, req = (pre ++ "&page=1" ++ suf)%string.
Proof.
  intros fuel c s e w p t n req Hreq Hl Ht Hn Hlt.
  eexists. split; [|split].
  - cbn [_generate_search_requests]. unfold bind at 1. rewrite Hreq.
    cbn [lift ret]. unfold bind at 1.
    rewrite (first_page_count_shown _ _ _ _ _ _ _ Hl Ht Hn).
    unfold partition_on_count.
    destruct (Z.ltb_spec n 10000) as [_|Hge]; [|lia].
    unfold bind. rewrite print_logged. reflexivity.
  - reflexivity.
  - eapply page_1_field, Hreq.
Qed.

Lemma finalized_query_is_page_1_witness :
  exists w',
    _generate_search_requests 1 Sample.keyword_a
      Sample.d2020_01_01 Sample.d2020_01_08
      (Sample.fresh_world (fun _ => Sample.page_showing "40 search results" []))
    = (Return tt, w') /\
    self_search_requests w'
    = ["q=a&dateRange=custom&startdt=2020-01-01&enddt=2020-01-08&page=1"%string].
Proof.
  destruct (finalized_query_is_page_1 0 Sample.keyword_a
              Sample.d2020_01_01 Sample.d2020_01_08
              (Sample.fresh_world
                 (fun _ => Sample.page_showing "40 search results" []))
              (mkPage (Ok "40 search results"%string) (Ok []))
              "40 search results" 40
              "q=a&dateRange=custom&startdt=2020-01-01&enddt=2020-01-08&page=1")
    as (w' & Hrun & Hsr & _).
  - vm_compute. reflexivity.
  - reflexivity.
  - reflexivity.
  - vm_compute. reflexivity.
  - lia.
  - exists w'. split; [exact Hrun|exact Hsr].
Defined.

(** C3, as the spec states it, does not hold: the query finalized for an interval
    with 40 matches holds a page-number field. *)
Lemma finalized_query_holds_page_field :
  let '(r, w') :=
    _generate_search_requests 1 Sample.keyword_a
      Sample.d2020_01_01 Sample.d2020_01_08
      (Sample.fresh_world (fun _ => Sample.page_showing "40 search results" [])) in
  r = Return tt /\
  self_search_requests w'
  = ["q=a&dateRange=custom&startdt=2020-01-01&enddt=2020-01-08&page=1"%string] /\
  Forall (fun q => PyStr.is_infix "page=" q = true) (self_search_requests w').
Proof. vm_compute. repeat split. repeat constructor. Qed.

(** ** The paginated harvester *)

Lemma fetch_results_page_spec r i w :
  exists w1,
    fetch_results_page r i w
    = (Return (match page_outcome (loads (self_driver w) (clock (self_driver w))) with
               | Ok recs => Some recs
               | Raise _ => None
               end), w1) /\
    self_search_requests w1 = self_search_requests w /\
    files w1 = files w /\
    loads (self_driver w1) = loads (self_driver w) /\
    clock (self_driver w1) = S (clock (self_driver w)) /\
    requested (self_driver w1)
    = (requested (self_driver w) ++ [paginated_url r i])%list.
Proof.
  unfold fetch_results_page, try_except, bind, fetch_page, page_outcome.
  destruct (loads (self_driver w) (clock (self_driver w))) as [x|p].
  - destruct x; eexists; (split; [reflexivity|]); repeat split.
  - unfold extract_html_table_rows, bind, current_page. simpl.
    destruct (results_table p) as [rows|x]; simpl.
    + destruct (_parse_table_rows rows) as [recs|x]; simpl.
      * eexists; (split; [reflexivity|]); repeat split.
      * destruct x; eexists; (split; [reflexivity|]); repeat split.
    + destruct x; eexists; (split; [reflexivity|]); repeat split.
Qed.

(** every page of the loop is asked for; a page whose load, table or rows
    fail adds nothing, every other page has its records written *)
Lemma fetch_pages_spec r filename pages : forall w,
  exists w',
    fetch_pages r pages (csv_sink filename) w = (Return tt, w') /\
    self_search_requests w' = self_search_requests w /\
    loads (self_driver w') = loads (self_driver w) /\
    clock (self_driver w') = (clock (self_driver w) + List.length pages)%nat /\
    requested (self_driver w')
    = (requested (self_driver w) ++ map (paginated_url r) pages)%list /\
    files w' filename
    = (files w filename
       ++ map csv_row (records_of_loads (loads (self_driver w))
                         (clock (self_driver w)) (List.length pages)))%list.
Proof.
  unfold fetch_pages.
  induction pages as [|i pages IH]; intros w.
  - exists w. simpl. rewrite !app_nil_r, Nat.add_0_r. repeat split.
  - destruct (fetch_results_page_spec r i w)
      as (w1 & E1 & S1 & F1 & L1 & C1 & R1).
    assert (Hsink : exists w2,
               (match page_outcome (loads (self_driver w) (clock (self_driver w))) with
                | Ok recs => csv_sink filename recs
                | Raise _ => ret tt
                end) w1 = (Return tt, w2) /\
               files w2 filename
               = (files w1 filename
                  ++ map csv_row
                       (page_records (loads (self_driver w) (clock (self_driver w)))))%list /\
               only_file_changed filename w1 w2).
    { unfold page_records.
      destruct (page_outcome _) as [recs|x].
      - apply write_records_spec.
      - exists w1. simpl. rewrite app_nil_r.
        split; [reflexivity|]. split; [reflexivity|].
        apply only_file_changed_refl. }
    destruct Hsink as (w2 & E2 & F2 & (S2 & D2 & _ & _)).
    destruct (IH w2) as (w' & E3 & S3 & L3 & C3 & R3 & F3).
    exists w'. split.
    + cbn [for_each]. unfold bind at 1. unfold bind at 1. rewrite E1.
      destruct (page_outcome _) as [recs|x]; rewrite E2; exact E3.
    + rewrite D2 in *. split; [congruence|]. split; [congruence|].
      split; [rewrite C3, C1; simpl; lia|].
      split; [rewrite R3, R1, <- app_assoc; reflexivity|].
      rewrite F3, F2, F1, L1, C1. cbn [List.length records_of_loads].
      rewrite map_app, app_assoc. reflexivity.
Qed.

Lemma compute_number_of_pages_outcome w :
  (exists n ev, _compute_number_of_pages w = (Return n, logged ev w)) \/
  (exists x, _compute_number_of_pages w = (Throw x, w)).
Proof.
  unfold _compute_number_of_pages, _parse_number_of_results, bind, current_page.
  destruct (current (self_driver w)) as [p|]; [|right; eexists; reflexivity].
  destruct (show_result_count p) as [t|x]; simpl;
    [|right; eexists; reflexivity].
  destruct (parse_count_text t) as [n|x]; simpl;
    [|right; eexists; reflexivity].
  left. eexists. eexists. reflexivity.
Qed.

Lemma fetch_search_request_results_outcome r filename w :
  exists res w',
    _fetch_search_request_results r (csv_sink filename) w = (res, w') /\
    res <> OutOfFuel /\
    self_search_requests w' = self_search_requests w /\
    loads (self_driver w') = loads (self_driver w) /\
    exists more,
      requested (self_driver w')
      = (requested (self_driver w) ++ (BASE_URL ++ r)%string :: more)%list.
Proof.
  unfold _fetch_search_request_results, bind at 1.
  destruct (loads (self_driver w) (clock (self_driver w))) as [x|p] eqn:El.
  - rewrite (fetch_page_raises _ _ _ El).
    eexists. eexists. split; [reflexivity|]. split; [discriminate|].
    simpl. repeat split. exists []. reflexivity.
  - rewrite (fetch_page_Loaded _ _ _ El). unfold bind at 1.
    match goal with
    | |- context [_compute_number_of_pages ?w0] =>
        destruct (compute_number_of_pages_outcome w0)
          as [(n & ev & E)|(x & E)]; rewrite E
    end.
    + match goal with
      | |- context [fetch_pages r ?pages (csv_sink filename) ?w0] =>
          destruct (fetch_pages_spec r filename pages w0)
            as (w' & E' & S1 & L1 & _ & R1 & _)
      end.
      rewrite E'. eexists. eexists. split; [reflexivity|].
      split; [discriminate|]. split; [exact S1|]. split; [exact L1|].
      eexists. rewrite R1. simpl. rewrite <- app_assoc. reflexivity.
    + eexists. eexists. split; [reflexivity|]. split; [discriminate|].
      simpl. repeat split. exists []. reflexivity.
Qed.

(** whatever happens to a finalized query, its turn of the harvest loop
    returns *)
Lemma harvest_request_returns r w :
  exists w',
    harvest_request r w = (Return tt, w') /\
    self_search_requests w' = self_search_requests w /\
    loads (self_driver w') = loads (self_driver w) /\
    exists more,
      requested (self_driver w')
      = (requested (self_driver w) ++ (BASE_URL ++ r)%string :: more)%list.
Proof.
  unfold harvest_request, try_except, write_results_to_csv.
  unfold bind at 1, tell_is_zero.
  assert (Hhdr : exists w0,
             (if match files w "results.csv" with [] => true | _ :: _ => false end
              then write_line "results.csv" fieldnames else ret tt) w
             = (Return tt, w0) /\
             self_search_requests w0 = self_search_requests w /\
             self_driver w0 = self_driver w).
  { destruct (files w "results.csv");
      eexists; (split; [reflexivity|]); split; reflexivity. }
  destruct Hhdr as (w0 & E0 & S0 & D0).
  unfold bind at 1. rewrite E0.
  change (fun results_list_iterators : list filing_record =>
            for_each results_list_iterators
              (fun r0 : filing_record => write_line "results.csv" (csv_row r0)))
    with (csv_sink "results.csv").
  destruct (fetch_search_request_results_outcome r "results.csv" w0)
    as (res & w1 & E1 & Hres & S1 & L1 & more & R1).
  unfold bind at 1. rewrite E1. rewrite D0 in *.
  destruct res as [[]|x|]; [| |contradiction].
  - eexists. split; [reflexivity|]. simpl.
    split; [congruence|]. split; [exact L1|]. exists more. exact R1.
  - eexists. split; [reflexivity|]. simpl.
    split; [congruence|]. split; [exact L1|]. exists more. exact R1.
Qed.

Lemma harvest_loop_returns rs : forall w,
  exists w',
    for_each rs harvest_request w = (Return tt, w') /\
    self_search_requests w' = self_search_requests w /\
    loads (self_driver w') = loads (self_driver w) /\
    (exists more,
       requested (self_driver w') = (requested (self_driver w) ++ more)%list) /\
    forall r, In r rs ->
      exists before_ after_,
        requested (self_driver w')
        = (requested (self_driver w) ++ before_
           ++ (BASE_URL ++ r)%string :: after_)%list.
Proof.
  induction rs as [|r rs IH]; intros w.
  - exists w. split; [reflexivity|]. split; [reflexivity|].
    split; [reflexivity|]. split; [exists []; rewrite app_nil_r; reflexivity|].
    intros r [].
  - destruct (harvest_request_returns r w) as (w1 & E1 & S1 & L1 & more1 & R1).
    destruct (IH w1) as (w' & E2 & S2 & L2 & (more2 & R2) & Hall).
    exists w'. split.
    + cbn [for_each]. unfold bind. rewrite E1. exact E2.
    + split; [congruence|]. split; [congruence|]. split.
      * eexists. rewrite R2, R1, <- app_assoc. reflexivity.
      * intros r0 [<-|Hin].
        -- exists [], (more1 ++ more2)%list.
           rewrite R2, R1, <- app_assoc. reflexivity.
        -- destruct (Hall r0 Hin) as (b & a & Hr).
           exists ((BASE_URL ++ r)%string :: more1 ++ b)%list, a.
           rewrite Hr, R1. rewrite <- !app_assoc. simpl.
           rewrite <- !app_assoc. reflexivity.
Qed.

Lemma range_length lo hi : List.length (range lo hi) = Z.to_nat (hi - lo).
Proof. unfold range. rewrite length_map, length_seq. reflexivity. Qed.

Lemma range_In lo hi i : In i (range lo hi) <-> lo <= i < hi.
Proof.
  unfold range. rewrite in_map_iff. split.
  - intros (k & <- & Hk). apply in_seq in Hk. lia.
  - intros H. exists (Z.to_nat (i - lo)). split; [lia|]. apply in_seq. lia.
Qed.

Lemma range_NoDup lo hi : NoDup (range lo hi).
Proof.
  unfold range. generalize (Z.to_nat (hi - lo)) as n. generalize 0%nat as a.
  intros a n. revert a. induction n as [|n IH]; intros a; cbn [seq map].
  - constructor.
  - constructor; [|apply IH].
    rewrite in_map_iff. intros (k & Hk & Hin). apply in_seq in Hin. lia.
Qed.

Lemma ceil_div_100 n : 100 * (ceil_div n 100 - 1) < n <= 100 * ceil_div n 100.
Proof. unfold ceil_div. Z.div_mod_to_equations. lia. Qed.

(** the file is opened, and given its header if it is empty, before the
    generator runs for the first time *)
Lemma write_results_to_csv_opens data filename w :
  exists w0,
    files w0 filename = with_header (files w filename) /\
    only_file_changed filename w w0 /\
    write_results_to_csv data filename w
    = bind (data (csv_sink filename)) (fun _ => print (Log_wrote filename)) w0.
Proof.
  unfold write_results_to_csv. unfold bind at 1. unfold tell_is_zero.
  destruct (files w filename) as [|l old] eqn:E.
  - destruct (write_line_spec filename fieldnames w) as (w0 & E0 & F0 & O0).
    exists w0. split; [rewrite F0, E; reflexivity|]. split; [exact O0|].
    unfold bind at 1. rewrite E0. reflexivity.
  - exists w. split; [rewrite E; reflexivity|].
    split; [apply only_file_changed_refl|]. reflexivity.
Qed.

Lemma fetch_search_request_results_raises r consume w x :
  count_outcome (next_load w) = Raise x ->
  _fetch_search_request_results r consume w
  = (Throw x, after_fetch (BASE_URL ++ r) w).
Proof.
  intros H. unfold _fetch_search_request_results. unfold bind at 1.
  rewrite fetch_page_after. unfold count_outcome in H.
  destruct (next_load w) as [y|p] eqn:El.
  - injection H as ->. reflexivity.
  - unfold _compute_number_of_pages, _parse_number_of_results, bind, current_page.
    unfold after_fetch. rewrite El. cbn [self_driver current].
    destruct (show_result_count p) as [t|y]; cbn [lift ret throw].
    + rewrite H. reflexivity.
    + injection H as ->. reflexivity.
Qed.

Lemma fetch_search_request_results_pages r filename w n :
  count_outcome (next_load w) = Ok n ->
  exists w',
    _fetch_search_request_results r (csv_sink filename) w = (Return tt, w') /\
    self_search_requests w' = self_search_requests w /\
    loads (self_driver w') = loads (self_driver w) /\
    clock (self_driver w')
    = (S (clock (self_driver w)) + Z.to_nat (ceil_div n 100))%nat /\
    requested (self_driver w')
    = (requested (self_driver w)
       ++ (BASE_URL ++ r)%string
          :: map (paginated_url r) (range 1 (ceil_div n 100 + 1)))%list /\
    files w' filename
    = (files w filename
       ++ map csv_row (records_of_loads (loads (self_driver w))
                         (S (clock (self_driver w)))
                         (Z.to_nat (ceil_div n 100))))%list.
Proof.
  intros H. unfold _fetch_search_request_results. unfold bind at 1.
  rewrite fetch_page_after. unfold count_outcome in H.
  destruct (next_load w) as [y|p] eqn:El; [discriminate|].
  destruct (show_result_count p) as [t|y] eqn:Et; [|discriminate].
  unfold bind at 1.
  assert (Hpages : _compute_number_of_pages (after_fetch (BASE_URL ++ r) w)
                   = (Return (ceil_div n 100),
                      logged (Log_found_pages n (ceil_div n 100))
                             (after_fetch (BASE_URL ++ r) w))).
  { unfold _compute_number_of_pages, _parse_number_of_results, bind, current_page.
    unfold after_fetch. rewrite El. cbn [self_driver current].
    rewrite Et. cbn [lift ret]. rewrite H. reflexivity. }
  rewrite Hpages.
  destruct (fetch_pages_spec r filename (range 1 (ceil_div n 100 + 1))
              (logged (Log_found_pages n (ceil_div n 100))
                      (after_fetch (BASE_URL ++ r) w)))
    as (w' & E' & S' & L' & C' & R' & F').
  rewrite range_length in C', F'.
  replace (ceil_div n 100 + 1 - 1) with (ceil_div n 100) in C', F' by lia.
  exists w'. split; [exact E'|]. split; [exact S'|]. split; [exact L'|].
  split; [exact C'|]. split.
  - rewrite R'. cbn [logged after_fetch self_driver requested].
    rewrite <- app_assoc. reflexivity.
  - exact F'.
Qed.

Lemma records_of_loads_split l : forall a k b,
  records_of_loads l k (a + S b)
  = (records_of_loads l k a ++ page_records (l (k + a)%nat)
     ++ records_of_loads l (S (k + a)) b)%list.
Proof.
  induction a as [|a IH]; intros k b.
  - cbn [Nat.add records_of_loads app]. rewrite Nat.add_0_r. reflexivity.
  - cbn [Nat.add records_of_loads]. rewrite IH, <- app_assoc.
    replace (S k + a)%nat with (k + S a)%nat by lia. reflexivity.
Qed.

(** the harvest of one finalized query whose first page shows a count
    that parses *)
Lemma harvest_request_pages r w n :
  count_outcome (next_load w) = Ok n ->
  exists w',
    harvest_request r w = (Return tt, w') /\
    self_search_requests w' = self_search_requests w /\
    clock (self_driver w')
    = (S (clock (self_driver w)) + Z.to_nat (ceil_div n 100))%nat /\
    requested (self_driver w')
    = (requested (self_driver w)
       ++ (BASE_URL ++ r)%string
          :: map (paginated_url r) (range 1 (ceil_div n 100 + 1)))%list /\
    files w' "results.csv"
    = (with_header (files w "results.csv")
       ++ map csv_row (records_of_loads (loads (self_driver w))
                         (S (clock (self_driver w)))
                         (Z.to_nat (ceil_div n 100))))%list.
Proof.
  intros H.
  destruct (write_results_to_csv_opens (_fetch_search_request_results r)
              "results.csv" w) as (w0 & F0 & (S0 & D0 & _ & _) & E0).
  assert (Hn : count_outcome (next_load w0) = Ok n).
  { unfold next_load. rewrite D0. exact H. }
  destruct (fetch_search_request_results_pages r "results.csv" w0 n Hn)
    as (w1 & E1 & S1 & L1 & C1 & R1 & F1).
  exists (logged (Log_wrote "results.csv") w1). split.
  - unfold harvest_request, try_except. rewrite E0. unfold bind. rewrite E1.
    reflexivity.
  - cbn [logged self_search_requests self_driver files].
    rewrite D0 in *. split; [congruence|]. split; [exact C1|].
    split; [exact R1|]. rewrite F1, F0. reflexivity.
Qed.

(** the page-skipping scenario of the spec (section 8), on the code:
    page 3 of 5 fails its verification; pages 1, 2, 4 and 5 are written,
    and the harvest goes on with the next finalized query *)
Example page_three_of_five_is_skipped :
  let '(r, w') :=
    for_each ["Q1"; "Q2"]%string harvest_request
      (Sample.fresh_world Sample.third_page_fails) in
  r = Return tt /\
  files w' "results.csv"
  = fieldnames :: map csv_row (map Sample.record_named ["A"; "B"; "D"; "E"; "F"]%string) /\
  requested (self_driver w')
  = [ BASE_URL ++ "Q1"; BASE_URL ++ "Q1&page=1"; BASE_URL ++ "Q1&page=2";
      BASE_URL ++ "Q1&page=3"; BASE_URL ++ "Q1&page=4"; BASE_URL ++ "Q1&page=5";
      BASE_URL ++ "Q2"; BASE_URL ++ "Q2&page=1" ]%string.
Proof. vm_compute. repeat split. Qed.

(** C5. A page of a finalized query whose fetch, table or rows fail is
    skipped, and nothing else is. When page [j] of a query fails, the
    harvest of the query still asks for every page, those after [j]
    included, writes the records of the pages before and after [j] as it
    does without the failure, and returns normally. And whatever the
    harvest of a query meets, that of the next one follows: the harvest
    loop returns normally, having asked for the first page of every
    finalized query. (The count of the query is below [2^46], where the
    floating-point quotient of the source rounds as the exact one.) *)
Theorem page_failure_skips_only_that_page :
  (forall (r : string) (w : world) (n : Z) (j : nat) (x : exn),
     count_outcome (next_load w) = Ok n ->
     Z.abs n < 2 ^ 46 ->
     (1 <= j <= Z.to_nat (ceil_div n 100))%nat ->
     page_outcome (loads (self_driver w) (clock (self_driver w) + j)%nat)
     = Raise x ->
     exists w',
       harvest_request r w = (Return tt, w') /\
       requested (self_driver w')
       = (requested (self_driver w)
          ++ (BASE_URL ++ r)%string
             :: map (paginated_url r) (range 1 (ceil_div n 100 + 1)))%list /\
       files w' "results.csv"
       = (with_header (files w "results.csv")
          ++ map csv_row (records_of_loads (loads (self_driver w))
                            (S (clock (self_driver w))) (j - 1))
          ++ map csv_row (records_of_loads (loads (self_driver w))
                            (S (clock (self_driver w) + j))
                            (Z.to_nat (ceil_div n 100) - j)))%list) /\
  (forall (r : string) (rs : list string) (w : world),
     exists w1,
       harvest_request r w = (Return tt, w1) /\
       for_each (r :: rs) harvest_request w = for_each rs harvest_request w1) /\
  (forall (rs : list string) (w : world),
    exists w',
      for_each rs harvest_request w = (Return tt, w') /\
      forall r, In r rs ->
        In (BASE_URL ++ r)%string
           (skipn (List.length (requested (self_driver w)))
                  (requested (self_driver w')))).
Proof.
  split; [|split].
  - intros r w n j x Hn _ Hj Hfail.
    destruct (harvest_request_pages r w n Hn) as (w' & E & _ & _ & R & F).
    exists w'. split; [exact E|]. split; [exact R|].
    rewrite F. f_equal.
    set (P := Z.to_nat (ceil_div n 100)) in *.
    replace P with ((j - 1) + S (P - j))%nat at 1 by lia.
    rewrite records_of_loads_split.
    replace (S (clock (self_driver w)) + (j - 1))%nat
      with (clock (self_driver w) + j)%nat by lia.
    unfold page_records at 1. rewrite Hfail. cbn [app].
    rewrite map_app. reflexivity.
  - intros r rs w.
    destruct (harvest_request_returns r w) as (w1 & E1 & _).
    exists w1. split; [exact E1|].
    cbn [for_each]. unfold bind. rewrite E1. reflexivity.
  - intros rs w.
    destruct (harvest_loop_returns rs w) as (w' & E & _ & _ & _ & Hall).
    exists w'. split; [exact E|].
    intros r Hin. destruct (Hall r Hin) as (b & a & Hr).
    rewrite Hr, skipn_app_exact. apply in_or_app. right. left. reflexivity.
Qed.

Lemma page_failure_skips_only_that_page_witness :
  exists w',
    harvest_request "Q" (Sample.fresh_world Sample.third_page_fails)
    = (Return tt, w') /\
    requested (self_driver w')
    = [ BASE_URL ++ "Q"; BASE_URL ++ "Q&page=1"; BASE_URL ++ "Q&page=2";
        BASE_URL ++ "Q&page=3"; BASE_URL ++ "Q&page=4";
        BASE_URL ++ "Q&page=5" ]%string /\
    files w' "results.csv"
    = fieldnames :: map csv_row (map Sample.record_named ["A"; "B"; "D"; "E"]%string).
Proof.
  destruct (proj1 page_failure_skips_only_that_page "Q"
              (Sample.fresh_world Sample.third_page_fails) 450 3%nat
              PageCheckFailedError)
    as (w' & E & R & F).
  - reflexivity.
  - reflexivity.
  - vm_compute. lia.
  - reflexivity.
  - exists w'. split; [exact E|]. split.
    + rewrite R. vm_compute. reflexivity.
    + rewrite F. vm_compute. reflexivity.
Defined.

(** ** The finalized-query list over the life of a scraper *)

Section Growth.

Context {X : Type} (proj : world -> list X).

Hypothesis proj_driver :
  forall w b,
    proj (mkWorld (self_search_requests w) b (stdout w) (files w)) = proj w.
Hypothesis grows_print : forall ev, grows proj (print ev).
Hypothesis grows_append : forall r, grows proj (append_search_request r).

Lemma grows_same {A} (m : M A) :
  (forall w r w', m w = (r, w') -> proj w' = proj w) -> grows proj m.
Proof.
  intros H w r w' E. exists []. rewrite app_nil_r. eapply H, E.
Qed.

Lemma grows_ret {A} (a : A) : grows proj (ret a).
Proof. apply grows_same. intros w r w' E. inversion E. reflexivity. Qed.

Lemma grows_throw {A} x : grows proj (@throw A x).
Proof. apply grows_same. intros w r w' E. inversion E. reflexivity. Qed.

Lemma grows_lift {A} (r : result A) : grows proj (lift r).
Proof. destruct r; [apply grows_ret|apply grows_throw]. Qed.

Lemma grows_fetch_page url : grows proj (fetch_page url).
Proof.
  apply grows_same. intros w r w' E. unfold fetch_page in E.
  destruct (loads _ _); inversion E; apply proj_driver.
Qed.

Lemma grows_current_page : grows proj current_page.
Proof.
  apply grows_same. intros w r w' E. unfold current_page in E.
  destruct (current _); inversion E; reflexivity.
Qed.

Lemma grows_bind {A B} (m : M A) (k : A -> M B) :
  grows proj m -> (forall a, grows proj (k a)) -> grows proj (bind m k).
Proof.
  intros Hm Hk w r w' E. unfold bind in E.
  destruct (m w) as [[a|x|] w1] eqn:E1.
  - destruct (Hk a _ _ _ E) as (l2 & H2). destruct (Hm _ _ _ E1) as (l1 & H1).
    exists (l1 ++ l2)%list. rewrite H2, H1, app_assoc. reflexivity.
  - inversion E; subst. eapply Hm, E1.
  - inversion E; subst. eapply Hm, E1.
Qed.

Lemma grows_try_except {A} (body : M A) handler :
  grows proj body ->
  (forall x h, handler x = Some h -> grows proj h) ->
  grows proj (try_except body handler).
Proof.
  intros Hb Hh w r w' E. unfold try_except in E.
  destruct (body w) as [[a|x|] w1] eqn:E1.
  - inversion E; subst. eapply Hb, E1.
  - destruct (handler x) as [h|] eqn:Eh.
    + destruct (Hh _ _ Eh _ _ _ E) as (l2 & H2).
      destruct (Hb _ _ _ E1) as (l1 & H1).
      exists (l1 ++ l2)%list. rewrite H2, H1, app_assoc. reflexivity.
    + inversion E; subst. eapply Hb, E1.
  - inversion E; subst. eapply Hb, E1.
Qed.

Lemma grows_for_each {Y} (xs : list Y) (body : Y -> M unit) :
  (forall x, grows proj (body x)) -> grows proj (for_each xs body).
Proof.
  intros Hb. induction xs as [|x xs IH]; simpl.
  - apply grows_ret.
  - apply grows_bind; [apply Hb|intros _; exact IH].
Qed.

Lemma grows_first_page_count s e url : grows proj (first_page_count s e url).
Proof.
  unfold first_page_count, fetch_first_page_results_number.
  apply grows_try_except.
  - apply grows_bind.
    + apply grows_try_except; [apply grows_fetch_page|].
      intros x h Hx. destruct x; try discriminate Hx. inversion Hx; subst.
      repeat (apply grows_bind; [apply grows_print|intros _]). apply grows_throw.
    + intros _. apply grows_try_except.
      * unfold _parse_number_of_results.
        apply grows_bind; [apply grows_current_page|intros p].
        apply grows_bind; [apply grows_lift|intros t]. apply grows_lift.
      * intros x h Hx. inversion Hx; subst.
        repeat (apply grows_bind; [apply grows_print|intros _]). apply grows_throw.
  - intros x h Hx. destruct x; try discriminate Hx. inversion Hx; subst.
    apply grows_bind; [apply grows_print|intros _; apply grows_ret].
Qed.

Lemma grows_partition_on_count recurse s e req n :
  (forall a b, grows proj (recurse a b)) ->
  grows proj (partition_on_count recurse s e req n).
Proof.
  intros Hrec. unfold partition_on_count. destruct (n <? 10000).
  - apply grows_bind; [apply grows_print|intros _; apply grows_append].
  - apply grows_bind; [apply grows_print|intros _].
    apply grows_for_each. intros [i d]. unfold partition_sub_interval.
    apply grows_try_except.
    + apply grows_bind.
      * cbn [fst snd]. destruct (i =? 0); [apply grows_ret|apply grows_lift].
      * intros st. apply grows_bind; [apply grows_lift|].
        intros en. apply grows_bind; [apply grows_print|].
        intros _. apply Hrec.
    + intros x h Hx. destruct x; try discriminate Hx. inversion Hx; subst.
      apply grows_ret.
Qed.

Lemma grows_generate_search_requests fuel : forall c s e,
  grows proj (_generate_search_requests fuel c s e).
Proof.
  induction fuel as [|fuel IH]; intros c s e.
  - apply grows_same. intros w r w' E. inversion E. reflexivity.
  - cbn [_generate_search_requests].
    apply grows_bind; [apply grows_lift|intros req].
    apply grows_bind; [apply grows_first_page_count|intros n].
    apply grows_partition_on_count. intros a b. apply IH.
Qed.

End Growth.

(** the partitioner never removes or rewrites a finalized query *)
Lemma appends_generate_search_requests fuel c s e :
  grows self_search_requests (_generate_search_requests fuel c s e).
Proof.
  apply grows_generate_search_requests.
  - reflexivity.
  - intros ev w r w' E. inversion E. exists []. simpl. rewrite app_nil_r.
    reflexivity.
  - intros r0 w r w' E. inversion E. exists [r0]. reflexivity.
Qed.

(** nor a printed line *)
Lemma prints_generate_search_requests fuel c s e :
  grows stdout (_generate_search_requests fuel c s e).
Proof.
  apply grows_generate_search_requests.
  - reflexivity.
  - intros ev w r w' E. inversion E. exists [ev]. reflexivity.
  - intros r0 w r w' E. inversion E. exists []. simpl. rewrite app_nil_r.
    reflexivity.
Qed.

Lemma prints_partition_on_count fuel c s e req n :
  grows stdout (partition_on_count (_generate_search_requests fuel c) s e req n).
Proof.
  apply grows_partition_on_count.
  - intros ev w r w' E. inversion E. exists [ev]. reflexivity.
  - intros r0 w r w' E. inversion E. exists []. simpl. rewrite app_nil_r.
    reflexivity.
  - intros a b. apply prints_generate_search_requests.
Qed.

(** C10, as the code has it. [self.search_requests] is emptied only by
    the constructor. The partitioning phase of a harvest appends its
    finalized queries behind those already there, and the harvest phase
    then paginates over the whole list, which it does not change: the
    queries of this invocation, preceded by those of every earlier
    invocation on the same scraper. On a scraper whose list is empty the
    list paginated over is that of this invocation's own partitioning. *)
Theorem harvest_reads_all_accumulated_queries :
  forall fuel c (s e : Datetime.date) (w w1 : world),
    _generate_search_requests fuel c s e w = (Return tt, w1) ->
    self_search_requests w1
    = (self_search_requests w ++ finalized_during w w1)%list /\
    custom_text_search fuel c s e w
    = for_each (self_search_requests w ++ finalized_during w w1)%list
               harvest_request w1 /\
    (exists w2,
       custom_text_search fuel c s e w = (Return tt, w2) /\
       self_search_requests w2 = self_search_requests w1) /\
    (self_search_requests w = [] ->
     custom_text_search fuel c s e w
     = for_each (finalized_during w w1) harvest_request w1).
Proof.
  intros fuel c s e w w1 Hrun.
  destruct (appends_generate_search_requests fuel c s e w _ _ Hrun) as (rs & Hrs).
  assert (Hfin : finalized_during w w1 = rs).
  { unfold finalized_during. rewrite Hrs. apply skipn_app_exact. }
  assert (Hcts : custom_text_search fuel c s e w
                 = for_each (self_search_requests w1) harvest_request w1).
  { unfold custom_text_search, bind, get_search_requests. rewrite Hrun.
    reflexivity. }
  rewrite Hfin, <- Hrs.
  split; [reflexivity|]. split; [exact Hcts|]. split.
  - destruct (harvest_loop_returns (self_search_requests w1) w1)
      as (w2 & E & S2 & _).
    exists w2. split; [rewrite Hcts; exact E|exact S2].
  - intros Hempty. rewrite Hcts, Hrs, Hempty. reflexivity.
Qed.

Lemma harvest_reads_all_accumulated_queries_witness :
  exists w2,
    custom_text_search 3 Sample.keyword_a Sample.d2020_01_01 Sample.d2020_01_02
      (Sample.fresh_world Sample.no_matches) = (Return tt, w2) /\
    self_search_requests w2
    = ["q=a&dateRange=custom&startdt=2020-01-01&enddt=2020-01-02&page=1"%string].
Proof.
  pose (w := Sample.fresh_world Sample.no_matches).
  pose (run := _generate_search_requests 3 Sample.keyword_a
                 Sample.d2020_01_01 Sample.d2020_01_02 w).
  destruct (harvest_reads_all_accumulated_queries 3 Sample.keyword_a
              Sample.d2020_01_01 Sample.d2020_01_02 w (snd run))
    as (_ & _ & (w2 & Hcts & Hsr) & _).
  - vm_compute. reflexivity.
  - exists w2. split; [exact Hcts|]. rewrite Hsr. vm_compute. reflexivity.
Defined.

(** C10, as the spec states it, does not hold: a second harvest on the same scraper
    finalizes one query of its own, and then paginates over the query of
    the first harvest as well. *)
Lemma second_harvest_repeats_first_queries :
  let '(r1, w1) :=
    custom_text_search 3 Sample.keyword_a Sample.d2020_01_01 Sample.d2020_01_02
      (Sample.fresh_world Sample.no_matches) in
  let '(r2, w2) :=
    custom_text_search 3 Sample.keyword_a Sample.d2020_01_04 Sample.d2020_01_08
      w1 in
  r1 = Return tt /\ r2 = Return tt /\
  finalized_during w1 w2
  = ["q=a&dateRange=custom&startdt=2020-01-04&enddt=2020-01-08&page=1"%string] /\
  skipn (List.length (requested (self_driver w1))) (requested (self_driver w2))
  = [ BASE_URL ++ "q=a&dateRange=custom&startdt=2020-01-04&enddt=2020-01-08&page=1";
      BASE_URL ++ "q=a&dateRange=custom&startdt=2020-01-01&enddt=2020-01-02&page=1";
      BASE_URL ++ "q=a&dateRange=custom&startdt=2020-01-04&enddt=2020-01-08&page=1"
    ]%string.
Proof. vm_compute. repeat split. Qed.

(** ** Dates and their text *)

Lemma month_day_all :
  forallb (fun k => month_day_ok true (Z.of_nat k) && month_day_ok false (Z.of_nat k))
          (seq 0 365) = true.
Proof. vm_compute. reflexivity. Qed.

Lemma month_day_table leap n :
  0 <= n < 365 ->
  exists m d,
    Datetime.month_day leap n = (m, d) /\ 1 <= m <= 12 /\ 1 <= d <= 31 /\
    Datetime._DAYS_BEFORE_MONTH m + Datetime.b2z ((2 <? m) && leap) + d = n + 1.
Proof.
  intros Hn.
  pose proof (proj1 (forallb_forall _ _) month_day_all (Z.to_nat n)) as H.
  assert (Hin : In (Z.to_nat n) (seq 0 365)) by (apply in_seq; lia).
  apply H in Hin. cbv beta in Hin. rewrite Z2Nat.id in Hin by lia.
  apply andb_prop in Hin. destruct Hin as [Ht Hf].
  assert (Hok : month_day_ok leap n = true) by (destruct leap; assumption).
  unfold month_day_ok in Hok. destruct (Datetime.month_day leap n) as [m d].
  exists m, d. split; [reflexivity|].
  repeat (apply andb_prop in Hok; destruct Hok as [Hok ?]).
  repeat match goal with
         | H : (_ <=? _) = true |- _ => apply Z.leb_le in H
         | H : (_ =? _) = true |- _ => apply Z.eqb_eq in H
         end.
  lia.
Qed.

Lemma is_leap_digits a b c d :
  0 <= b <= 3 -> 0 <= c <= 24 -> 0 <= d <= 3 ->
  Datetime._is_leap (a * 400 + 1 + b * 100 + c * 4 + d)
  = (d =? 3) && (negb (c =? 24) || (b =? 3)).
Proof.
  intros Hb Hc Hd. unfold Datetime._is_leap.
  set (y := a * 400 + 1 + b * 100 + c * 4 + d).
  destruct (Z.eqb_spec (y mod 4) 0), (Z.eqb_spec (y mod 100) 0),
    (Z.eqb_spec (y mod 400) 0), (Z.eqb_spec d 3), (Z.eqb_spec c 24),
    (Z.eqb_spec b 3); simpl; try reflexivity; exfalso; subst y;
    Z.div_mod_to_equations; lia.
Qed.

(** the digits of an ordinal: [n - 1 = 146097a + 36524b + 1461c + 365d + r] *)
Lemma ordinal_digits n :
  1 <= n ->
  exists a b c d r,
    n - 1 = 146097 * a + 36524 * b + 1461 * c + 365 * d + r /\
    0 <= a /\ 0 <= b <= 4 /\ 0 <= c <= 24 /\ 0 <= d <= 4 /\ 0 <= r < 365 /\
    (b = 4 -> c = 0 /\ d = 0 /\ r = 0) /\ (d = 4 -> r = 0 /\ c <= 23) /\
    Datetime._ord2ymd n
    = (if (d =? 4) || (b =? 4) then (a * 400 + 1 + b * 100 + c * 4 + d - 1, 12, 31)
       else let '(month, day) :=
              Datetime.month_day ((d =? 3) && (negb (c =? 24) || (b =? 3))) r in
            (a * 400 + 1 + b * 100 + c * 4 + d, month, day)).
Proof.
  intros Hn. unfold Datetime._ord2ymd, Datetime._DI400Y, Datetime._DI100Y,
    Datetime._DI4Y.
  set (n0 := n - 1).
  set (a := n0 / 146097). set (r1 := n0 mod 146097).
  set (b := r1 / 36524). set (r2 := r1 mod 36524).
  set (c := r2 / 1461). set (r3 := r2 mod 1461).
  set (d := r3 / 365). set (r4 := r3 mod 365).
  exists a, b, c, d, r4.
  assert (Hdm : n0 = 146097 * a + r1 /\ 0 <= r1 < 146097 /\
                r1 = 36524 * b + r2 /\ 0 <= r2 < 36524 /\
                r2 = 1461 * c + r3 /\ 0 <= r3 < 1461 /\
                r3 = 365 * d + r4 /\ 0 <= r4 < 365 /\ 0 <= a).
  { subst a r1 b r2 c r3 d r4. Z.div_mod_to_equations. lia. }
  destruct Hdm as (H1 & B1 & H2 & B2 & H3 & B3 & H4 & B4 & Ha).
  clearbody a r1 b r2 c r3 d r4.
  repeat split; try lia.
Qed.

Lemma ymd_of_ordinal_roundtrip n :
  1 <= n -> Datetime._ymd2ord (Datetime._ord2ymd n) = n.
Proof.
  intros Hn.
  destruct (ordinal_digits n Hn)
    as (a & b & c & d & r & Hsum & Ha & Hb & Hc & Hd & Hr & Hb4 & Hd4 & ->).
  destruct ((d =? 4) || (b =? 4)) eqn:Hcase.
  - unfold Datetime._ymd2ord, Datetime._days_before_month,
      Datetime._days_before_year, Datetime._is_leap.
    cbn [Datetime._DAYS_BEFORE_MONTH Z.ltb Z.compare Pos.compare
         Pos.compare_cont andb].
    apply orb_true_iff in Hcase.
    set (y := a * 400 + 1 + b * 100 + c * 4 + d - 1).
    assert (Hleap : (y mod 4 =? 0) && (negb (y mod 100 =? 0) || (y mod 400 =? 0))
                    = true).
    { destruct (Z.eqb_spec (y mod 4) 0), (Z.eqb_spec (y mod 100) 0),
        (Z.eqb_spec (y mod 400) 0); simpl; try reflexivity; exfalso;
        destruct Hcase as [Hc4|Hc4]; apply Z.eqb_eq in Hc4; subst y;
        Z.div_mod_to_equations; lia. }
    rewrite Hleap. unfold Datetime.b2z. subst y.
    destruct Hcase as [Hc4|Hc4]; apply Z.eqb_eq in Hc4;
      Z.div_mod_to_equations; lia.
  - apply orb_false_iff in Hcase. destruct Hcase as [Hd4' Hb4'].
    apply Z.eqb_neq in Hd4'. apply Z.eqb_neq in Hb4'.
    destruct (month_day_table ((d =? 3) && (negb (c =? 24) || (b =? 3))) r Hr)
      as (m & dd & Emd & Hm & Hdd & Hmd).
    rewrite Emd. unfold Datetime._ymd2ord, Datetime._days_before_month.
    rewrite is_leap_digits by lia.
    unfold Datetime._days_before_year. Z.div_mod_to_equations. lia.
Qed.

Lemma ymd_of_ordinal_range n :
  Datetime.valid_date n ->
  exists y m d,
    Datetime._ord2ymd n = (y, m, d) /\
    1 <= y <= 9999 /\ 1 <= m <= 12 /\ 1 <= d <= 31.
Proof.
  unfold Datetime.valid_date, Datetime.MINORDINAL, Datetime.MAXORDINAL.
  intros Hn.
  destruct (ordinal_digits n (proj1 Hn))
    as (a & b & c & d & r & Hsum & Ha & Hb & Hc & Hd & Hr & Hb4 & Hd4 & ->).
  destruct ((d =? 4) || (b =? 4)) eqn:Hcase.
  - eexists. eexists. eexists. split; [reflexivity|].
    apply orb_true_iff in Hcase.
    destruct Hcase as [Hc4|Hc4]; apply Z.eqb_eq in Hc4; lia.
  - apply orb_false_iff in Hcase. destruct Hcase as [Hd4' Hb4'].
    apply Z.eqb_neq in Hd4'. apply Z.eqb_neq in Hb4'.
    destruct (month_day_table ((d =? 3) && (negb (c =? 24) || (b =? 3))) r Hr)
      as (m & dd & Emd & Hm & Hdd & Hmd).
    rewrite Emd. exists (a * 400 + 1 + b * 100 + c * 4 + d), m, dd.
    split; [reflexivity|]. lia.
Qed.

Lemma digit_inj a b : Datetime.digit a = Datetime.digit b -> a mod 10 = b mod 10.
Proof.
  unfold Datetime.digit. intros H. apply (f_equal nat_of_ascii) in H.
  pose proof (Z.mod_pos_bound a 10 ltac:(lia)).
  pose proof (Z.mod_pos_bound b 10 ltac:(lia)).
  rewrite !nat_ascii_embedding in H by lia. lia.
Qed.

Lemma pad2_inj a b :
  0 <= a <= 99 -> 0 <= b <= 99 -> Datetime.pad2 a = Datetime.pad2 b -> a = b.
Proof.
  unfold Datetime.pad2. intros Ha Hb H. inversion H as [[H1 H2]].
  apply digit_inj in H1. apply digit_inj in H2.
  Z.div_mod_to_equations. lia.
Qed.

Lemma pad4_inj a b :
  0 <= a <= 9999 -> 0 <= b <= 9999 -> Datetime.pad4 a = Datetime.pad4 b -> a = b.
Proof.
  unfold Datetime.pad4, Datetime.pad2. intros Ha Hb H.
  inversion H as [[H1 H2 H3 H4]].
  apply digit_inj in H1. apply digit_inj in H2.
  apply digit_inj in H3. apply digit_inj in H4.
  Z.div_mod_to_equations. lia.
Qed.

(** two dates with the same [%Y-%m-%d] text are the same date *)
Lemma strftime_Ymd_inj d1 d2 :
  Datetime.valid_date d1 -> Datetime.valid_date d2 ->
  Datetime.strftime_Ymd d1 = Datetime.strftime_Ymd d2 -> d1 = d2.
Proof.
  intros V1 V2 H.
  rewrite <- (ymd_of_ordinal_roundtrip d1) by apply V1.
  rewrite <- (ymd_of_ordinal_roundtrip d2) by apply V2.
  unfold Datetime.strftime_Ymd in H.
  destruct (ymd_of_ordinal_range d1 V1) as (y1 & m1 & dd1 & E1 & Hy1 & Hm1 & Hd1).
  destruct (ymd_of_ordinal_range d2 V2) as (y2 & m2 & dd2 & E2 & Hy2 & Hm2 & Hd2).
  rewrite E1, E2 in *.
  assert (Hy : Datetime.pad4 y1 = Datetime.pad4 y2 /\
               Datetime.pad2 m1 = Datetime.pad2 m2 /\
               Datetime.pad2 dd1 = Datetime.pad2 dd2).
  { unfold Datetime.pad4, Datetime.pad2 in *. cbn [append] in H.
    inversion H. repeat split; congruence. }
  destruct Hy as (Hy & Hm & Hd).
  apply pad4_inj in Hy; [|lia|lia].
  apply pad2_inj in Hm; [|lia|lia].
  apply pad2_inj in Hd; [|lia|lia].
  congruence.
Qed.

Lemma str_of_int_inj a b : PyStr.str_of_int a = PyStr.str_of_int b -> a = b.
Proof.
  unfold PyStr.str_of_int. intros H.
  assert (Hnil : forall z, Z.to_int z <> Decimal.Pos Decimal.Nil /\
                           Z.to_int z <> Decimal.Neg Decimal.Nil).
  { intros [|p|p]; simpl; split; try discriminate;
      intros E; inversion E as [E']; revert E'; apply Unsigned.to_uint_nonnil. }
  apply (f_equal NilZero.int_of_string) in H.
  rewrite !NilZero.isi in H by apply Hnil.
  inversion H as [H']. apply (f_equal Z.of_int) in H'.
  rewrite !DecimalZ.of_to in H'. exact H'.
Qed.

(** ** Percent-encoding loses nothing *)

Lemma append_String a (s t : string) :
  (String a s ++ t = String a (s ++ t))%string.
Proof. reflexivity. Qed.

Lemma replace_char_app c d (s t : string) :
  PyStr.replace_char c d (s ++ t)
  = (PyStr.replace_char c d s ++ PyStr.replace_char c d t)%string.
Proof. induction s as [|a s IH]; simpl; [reflexivity|]. rewrite IH. reflexivity. Qed.

Lemma contains_char_app c (s t : string) :
  PyStr.contains_char c (s ++ t)
  = PyStr.contains_char c s || PyStr.contains_char c t.
Proof.
  induction s as [|a s IH]; simpl; [reflexivity|].
  rewrite IH, orb_assoc. reflexivity.
Qed.

Ltac each_byte a := destruct a as [[] [] [] [] [] [] [] []].

Lemma quote_plus_byte_no_space a :
  Ascii.eqb a " " = false ->
  (if Urllib.always_safe a || Urllib.no_safe a then String a EmptyString
   else Urllib.percent a) = quote_plus_byte a.
Proof. each_byte a; intros H; try reflexivity; discriminate H. Qed.

Lemma quote_plus_byte_replace a :
  PyStr.replace_char " " "+"
    (if Urllib.always_safe a || Urllib.safe_space a then String a EmptyString
     else Urllib.percent a) = quote_plus_byte a.
Proof. each_byte a; reflexivity. Qed.

Lemma quote_plus_bytes s :
  Urllib.quote_plus s = encode_bytes quote_plus_byte s.
Proof.
  unfold Urllib.quote_plus.
  destruct (PyStr.contains_char " " s) eqn:E; cbn [negb].
  - clear E. induction s as [|a s IH]; [reflexivity|].
    cbn [Urllib.quote_from_bytes encode_bytes].
    rewrite replace_char_app, IH, quote_plus_byte_replace. reflexivity.
  - induction s as [|a s IH]; [reflexivity|].
    cbn [PyStr.contains_char] in E. apply orb_false_iff in E.
    destruct E as [Ea Es].
    cbn [Urllib.quote_from_bytes encode_bytes].
    rewrite IH, quote_plus_byte_no_space by assumption. reflexivity.
Qed.

Lemma quote_bytes s : Urllib.quote s = encode_bytes quote_byte s.
Proof.
  unfold Urllib.quote. induction s as [|a s IH]; [reflexivity|].
  cbn [Urllib.quote_from_bytes encode_bytes]. rewrite IH. reflexivity.
Qed.

Lemma unquote_plus_byte a rest :
  unquote_plus (quote_plus_byte a ++ rest) = String a (unquote_plus rest).
Proof. each_byte a; reflexivity. Qed.

Lemma unquote_byte a rest :
  unquote_plus (quote_byte a ++ rest) = String a (unquote_plus rest).
Proof. each_byte a; reflexivity. Qed.

Lemma unquote_plus_quote_plus s : unquote_plus (Urllib.quote_plus s) = s.
Proof.
  rewrite quote_plus_bytes. induction s as [|a s IH]; [reflexivity|].
  cbn [encode_bytes]. rewrite unquote_plus_byte, IH. reflexivity.
Qed.

Lemma unquote_plus_quote s : unquote_plus (Urllib.quote s) = s.
Proof.
  rewrite quote_bytes. induction s as [|a s IH]; [reflexivity|].
  cbn [encode_bytes]. rewrite unquote_byte, IH. reflexivity.
Qed.

Lemma quote_plus_inj s t : Urllib.quote_plus s = Urllib.quote_plus t -> s = t.
Proof.
  intros H. apply (f_equal unquote_plus) in H.
  rewrite !unquote_plus_quote_plus in H. exact H.
Qed.

Lemma quote_inj s t : Urllib.quote s = Urllib.quote t -> s = t.
Proof.
  intros H. apply (f_equal unquote_plus) in H.
  rewrite !unquote_plus_quote in H. exact H.
Qed.

Lemma quote_plus_byte_no_amp a : no_amp (quote_plus_byte a).
Proof. unfold no_amp. each_byte a; reflexivity. Qed.

Lemma quote_plus_no_amp s : no_amp (Urllib.quote_plus s).
Proof.
  unfold no_amp. rewrite quote_plus_bytes.
  induction s as [|a s IH]; [reflexivity|].
  cbn [encode_bytes]. rewrite contains_char_app, IH, quote_plus_byte_no_amp.
  reflexivity.
Qed.

(** ** The encoder is injective on what it encodes *)

Lemma field_split (x y t t' : string) :
  no_amp x -> no_amp y -> field_end t -> field_end t' ->
  (x ++ t = y ++ t')%string -> x = y /\ t = t'.
Proof.
  unfold no_amp. revert y.
  induction x as [|a x IH]; intros [|b y] Hx Hy Ht Ht' H; cbn [append] in H.
  - split; [reflexivity|exact H].
  - exfalso. destruct Ht as [->|(u & ->)]; [discriminate H|].
    inversion H; subst. cbn [PyStr.contains_char] in Hy.
    rewrite Ascii.eqb_refl in Hy. discriminate Hy.
  - exfalso. destruct Ht' as [->|(u & ->)]; [discriminate H|].
    inversion H; subst. cbn [PyStr.contains_char] in Hx.
    rewrite Ascii.eqb_refl in Hx. discriminate Hx.
  - inversion H; subst. cbn [PyStr.contains_char] in Hx, Hy.
    apply orb_false_iff in Hx. apply orb_false_iff in Hy.
    destruct (IH y) as (Hxy & Htt); [tauto|tauto|exact Ht|exact Ht'|assumption|].
    subst. split; reflexivity.
Qed.

Lemma append_inj_l (p a b : string) : (p ++ a = p ++ b)%string -> a = b.
Proof.
  induction p as [|c p IH]; cbn [append]; intros H; [exact H|].
  inversion H. auto.
Qed.

Lemma optional_field_end name v : field_end (optional_field name v).
Proof.
  destruct v as [s|]; [right|left; reflexivity].
  eexists. reflexivity.
Qed.

Lemma optional_fields_end v1 v2 :
  field_end (optional_field "entityName" v1 ++ optional_field "category" v2).
Proof.
  destruct v1 as [s|]; [right; eexists; reflexivity|].
  apply optional_field_end.
Qed.

Lemma optional_fields_inj e1 k1 e2 k2 :
  (optional_field "entityName" e1 ++ optional_field "category" k1
   = optional_field "entityName" e2 ++ optional_field "category" k2)%string ->
  e1 = e2 /\ k1 = k2.
Proof.
  assert (Hcat : forall a b,
             optional_field "category" a = optional_field "category" b -> a = b).
  { intros [a|] [b|] H; try reflexivity; try discriminate H.
    cbn [optional_field append] in H. inversion H as [H'].
    apply quote_plus_inj in H'. congruence. }
  destruct e1 as [x1|], e2 as [x2|]; cbn [optional_field]; intros H.
  - rewrite !append_assoc in H. cbn [append] in H. inversion H as [H'].
    apply field_split in H'; try apply quote_plus_no_amp;
      try apply optional_field_end.
    destruct H' as (Hq & Hk). apply quote_plus_inj in Hq. apply Hcat in Hk.
    split; congruence.
  - exfalso. destruct k2 as [y|]; cbn [optional_field append] in H;
      rewrite ?append_assoc in H; cbn [append] in H; discriminate H.
  - exfalso. destruct k1 as [y|]; cbn [optional_field append] in H;
      rewrite ?append_assoc in H; cbn [append] in H; discriminate H.
  - cbn [append] in H. apply Hcat in H. split; [reflexivity|exact H].
Qed.

(** equal request strings have equal fields *)
Lemma request_string_inj ph1 s1 e1 p1 en1 k1 ph2 s2 e2 p2 en2 k2 :
  request_string ph1 s1 e1 p1 en1 k1 = request_string ph2 s2 e2 p2 en2 k2 ->
  ph1 = ph2 /\ s1 = s2 /\ e1 = e2 /\ p1 = p2 /\ en1 = en2 /\ k1 = k2.
Proof.
  unfold request_string. intros H.
  apply (append_inj_l "q=") in H.
  apply field_split in H; try apply quote_plus_no_amp;
    try (right; eexists; reflexivity).
  destruct H as (Hph & H).
  apply (append_inj_l "&dateRange=custom&startdt=") in H.
  apply field_split in H; try apply quote_plus_no_amp;
    try (right; eexists; reflexivity).
  destruct H as (Hs & H).
  apply (append_inj_l "&enddt=") in H.
  apply field_split in H; try apply quote_plus_no_amp;
    try (right; eexists; reflexivity).
  destruct H as (He & H).
  apply (append_inj_l "&page=") in H.
  apply field_split in H; try apply quote_plus_no_amp;
    try apply optional_fields_end.
  destruct H as (Hp & H).
  apply optional_fields_inj in H. destruct H as (Hen & Hk).
  apply quote_plus_inj, quote_inj in Hph.
  apply quote_plus_inj in Hs. apply quote_plus_inj in He.
  apply quote_plus_inj in Hp.
  repeat split; assumption.
Qed.

Lemma dict_get_In d k v : dict_get d k = Ok v -> In (k, v) d.
Proof.
  induction d as [|[k' v'] d IH]; cbn [dict_get]; [discriminate|].
  destruct (String.eqb_spec k' k) as [->|_].
  - intros H. inversion H. left. reflexivity.
  - intros H. right. apply IH, H.
Qed.

(** the category codes are pairwise different *)
Lemma category_codes_distinct k1 k2 v :
  dict_get FILING_CATEGORIES_MAPPING k1 = Ok v ->
  dict_get FILING_CATEGORIES_MAPPING k2 = Ok v ->
  k1 = k2.
Proof.
  intros H1 H2. apply dict_get_In in H1. apply dict_get_In in H2.
  unfold FILING_CATEGORIES_MAPPING in *. cbn [In] in H1.
  repeat (destruct H1 as [H1|H1];
          [inversion H1; subst; cbn [In] in H2;
           repeat (destruct H2 as [H2|H2];
                   [inversion H2; reflexivity|]); contradiction|]).
  contradiction.
Qed.

Lemma category_code_effective c :
  category_code c
  = match effective_category c with
    | Some k =>
        match dict_get FILING_CATEGORIES_MAPPING k with
        | Ok code => Ok (Some code)
        | Raise e => Raise e
        end
    | None => Ok None
    end.
Proof.
  unfold category_code, effective_category.
  destruct (truthy (filing_category c)) eqn:E; [|reflexivity].
  destruct (filing_category c); [reflexivity|discriminate E].
Qed.

Lemma category_code_inj c1 c2 code :
  category_code c1 = Ok code -> category_code c2 = Ok code ->
  effective_category c1 = effective_category c2.
Proof.
  rewrite !category_code_effective.
  destruct (effective_category c1) as [k1|], (effective_category c2) as [k2|];
    try reflexivity.
  - destruct (dict_get _ k1) as [v1|] eqn:E1; [|discriminate].
    destruct (dict_get _ k2) as [v2|] eqn:E2; [|discriminate].
    intros H1 H2. inversion H1; subst. inversion H2; subst.
    f_equal. eapply category_codes_distinct; eassumption.
  - destruct (dict_get _ k1); [|discriminate]. intros H1 H2.
    inversion H1; subst. discriminate H2.
  - destruct (dict_get _ k2); [|discriminate]. intros H1 H2.
    inversion H1; subst. discriminate H2.
Qed.

(** C8, as the code has it. The encoder is a function of the search
    phrase (the keywords joined by spaces, wrapped in double quotes for an
    exact search), the entity and the category (absent and empty alike),
    the two dates and the page number, and it is injective on these: for
    inputs it accepts, the encoded strings are equal exactly when these
    six agree. Keyword lists enter through their joined phrase only. *)
Theorem encoder_injective_on_fields :
  forall c1 c2 (s1 e1 s2 e2 : Datetime.date) (p1 p2 : Z) (r1 r2 : string),
    Datetime.valid_date s1 -> Datetime.valid_date e1 ->
    Datetime.valid_date s2 -> Datetime.valid_date e2 ->
    _generate_request_args c1 s1 e1 p1 = Ok r1 ->
    _generate_request_args c2 s2 e2 p2 = Ok r2 ->
    (r1 = r2 <->
     search_phrase c1 = search_phrase c2 /\
     effective_entity c1 = effective_entity c2 /\
     effective_category c1 = effective_category c2 /\
     s1 = s2 /\ e1 = e2 /\ p1 = p2).
Proof.
  intros c1 c2 s1 e1 s2 e2 p1 p2 r1 r2 Vs1 Ve1 Vs2 Ve2 H1 H2.
  destruct (request_args_fields _ _ _ _ _ H1) as (k1 & K1 & ->).
  destruct (request_args_fields _ _ _ _ _ H2) as (k2 & K2 & ->).
  split.
  - intros H. apply request_string_inj in H.
    destruct H as (Hph & Hs & He & Hp & Hen & Hk). subst k2.
    split; [exact Hph|]. split; [exact Hen|].
    split; [eapply category_code_inj; eassumption|].
    split; [apply strftime_Ymd_inj; assumption|].
    split; [apply strftime_Ymd_inj; assumption|].
    apply str_of_int_inj, Hp.
  - intros (Hph & Hen & Hcat & -> & -> & ->).
    rewrite category_code_effective in K1, K2. rewrite Hcat in K1.
    rewrite Hph, Hen. congruence.
Qed.

Lemma encoder_injective_on_fields_witness :
  search_phrase Sample.keywords_a_b = search_phrase Sample.keyword_a_b /\
  effective_entity Sample.keywords_a_b = effective_entity Sample.keyword_a_b /\
  effective_category Sample.keywords_a_b = effective_category Sample.keyword_a_b /\
  Sample.d2020_01_01 = Sample.d2020_01_01 /\
  Sample.d2020_01_08 = Sample.d2020_01_08 /\ 1 = 1.
Proof.
  pose (r := "q=a%2520b&dateRange=custom&startdt=2020-01-01&enddt=2020-01-08&page=1"%string).
  apply (proj1 (encoder_injective_on_fields
                  Sample.keywords_a_b Sample.keyword_a_b
                  Sample.d2020_01_01 Sample.d2020_01_08
                  Sample.d2020_01_01 Sample.d2020_01_08 1 1 r r
                  ltac:(vm_compute; split; discriminate)
                  ltac:(vm_compute; split; discriminate)
                  ltac:(vm_compute; split; discriminate)
                  ltac:(vm_compute; split; discriminate)
                  ltac:(vm_compute; reflexivity)
                  ltac:(vm_compute; reflexivity))).
  reflexivity.
Defined.

(** C8, as the spec states it, does not hold: the keyword lists [["a"; "b"]] and
    [["a b"]] differ, and so do the two criteria, yet they encode to the
    same string. *)
Lemma keyword_lists_collide :
  search_keywords Sample.keywords_a_b <> search_keywords Sample.keyword_a_b /\
  Sample.keywords_a_b <> Sample.keyword_a_b /\
  _generate_request_args Sample.keywords_a_b Sample.d2020_01_01
    Sample.d2020_01_08 1
  = Ok "q=a%2520b&dateRange=custom&startdt=2020-01-01&enddt=2020-01-08&page=1"%string /\
  _generate_request_args Sample.keyword_a_b Sample.d2020_01_01
    Sample.d2020_01_08 1
  = Ok "q=a%2520b&dateRange=custom&startdt=2020-01-01&enddt=2020-01-08&page=1"%string.
Proof.
  split; [discriminate|]. split; [discriminate|].
  split; vm_compute; reflexivity.
Qed.

(** ** When the partitioner stops *)

Lemma bind_OutOfFuel_inv {B} (m : M unit) (k : unit -> M B) w w' :
  bind m k w = (OutOfFuel, w') ->
  m w = (OutOfFuel, w') \/
  exists w1, m w = (Return tt, w1) /\ k tt w1 = (OutOfFuel, w').
Proof.
  unfold bind. destruct (m w) as [[[]|x|] w1]; intros H.
  - right. exists w1. split; [reflexivity|exact H].
  - discriminate H.
  - left. inversion H. reflexivity.
Qed.

Lemma turn_OutOfFuel recurse dates i d w w' :
  partition_sub_interval recurse dates i d w = (OutOfFuel, w') ->
  exists start_ end_,
    (if i =? 0 then Ok d else Datetime.add_days d 1) = Ok start_ /\
    list_index dates (i + 1) = Ok end_ /\
    recurse start_ end_ (logged (Log_trying start_ end_) w) = (OutOfFuel, w').
Proof.
  intros H.
  destruct (if i =? 0 then Ok d else Datetime.add_days d 1) as [st|x] eqn:Est.
  - destruct (list_index dates (i + 1)) as [en|x] eqn:Een.
    + exists st, en. split; [reflexivity|]. split; [reflexivity|].
      rewrite (partition_sub_interval_recurse _ _ _ _ _ _ _ Est Een) in H.
      destruct (recurse st en _) as [[[]|[]|] w2]; try discriminate H; exact H.
    + assert (x = IndexError); [|subst x].
      { unfold list_index in Een.
        destruct (i + 1 <? 0); destruct (nth_error _ _); congruence. }
      rewrite partition_sub_interval_last in H;
        [discriminate H|exact Een|rewrite Est; discriminate].
  - assert (x = OverflowError); [|subst x].
    { destruct (i =? 0); [discriminate|]. eapply add_days_raises, Est. }
    rewrite (partition_sub_interval_overflow _ _ _ _ _ Est) in H. discriminate H.
Qed.

(** With a source that always shows a count text, a recursion bound
    larger than the length of the interval is only ever exhausted when
    some interval of two days was found saturated: every other split
    shortens the interval. *)
Lemma out_of_fuel_needs_two_day_split fuel : forall c s e w w',
  counts_reported (loads (self_driver w)) ->
  s <= e -> e - s < Z.of_nat fuel ->
  _generate_search_requests fuel c s e w = (OutOfFuel, w') ->
  exists evs a,
    stdout w' = (stdout w ++ evs)%list /\ In (Log_splitting a (a + 1) 1) evs.
Proof.
  induction fuel as [|fuel IH]; intros c s e w w' Hsrc Hse Hlen H; [lia|].
  cbn [_generate_search_requests] in H. unfold bind at 1 in H.
  destruct (_generate_request_args c s e 1) as [req|x] eqn:Ereq;
    cbn [lift ret throw] in H; [|discriminate].
  unfold bind at 1 in H.
  destruct (first_page_count_reported s e (BASE_URL ++ req) w Hsrc)
    as (n & w1 & evs1 & E1 & R1 & L1 & O1 & NS1).
  rewrite E1 in H. unfold partition_on_count in H.
  destruct (Z.ltb_spec n 10000) as [Hn|Hn]; [discriminate H|].
  cbv zeta in H. unfold Datetime.days_between, DEFAULT_BATCHES_NUMBER in H.
  assert (Hno : forall w0, loads (self_driver w0) = loads (self_driver w) ->
                forall a b, fst (_generate_search_requests fuel c a b
                                   (logged (Log_trying a b) w0))
                            <> Throw IndexError).
  { intros w0 Hw0 a b. apply _generate_search_requests_no_IndexError.
    simpl. rewrite Hw0. exact Hsrc. }
  assert (Hcases : e - s = 0 \/ e - s = 1 \/ 2 <= e - s) by lia.
  destruct Hcases as [Hd|[Hd|Hd]].
  - (* a single day: the loop returns *)
    exfalso. replace (Z.min (e - s) 2) with 0 in H by lia.
    apply bind_OutOfFuel_inv in H. destruct H as [H|(w2 & _ & H)]; [discriminate H|].
    rewrite split_dates_0 in H. cbn [enumerate enumerate_from for_each] in H.
    apply bind_OutOfFuel_inv in H. destruct H as [H|(w3 & _ & H)]; [|discriminate H].
    apply turn_OutOfFuel in H. destruct H as (st & en & _ & Hen & _).
    discriminate Hen.
  - (* two days: the line of the split into one batch is printed *)
    replace (Z.min (e - s) 2) with 1 in H by lia.
    apply bind_OutOfFuel_inv in H. destruct H as [H|(w2 & Hp & H)]; [discriminate H|].
    rewrite print_logged in Hp. inversion Hp; subst w2; clear Hp.
    assert (Hg : grows stdout
                   (for_each (enumerate (split_date_range_in_n s e 1))
                      (fun id => partition_sub_interval
                                   (_generate_search_requests fuel c)
                                   (split_date_range_in_n s e 1) (fst id) (snd id)))).
    { apply grows_for_each. intros [i d]. unfold partition_sub_interval.
      apply grows_try_except.
      - apply grows_bind.
        + cbn [fst snd]. destruct (i =? 0); [apply grows_ret|apply grows_lift].
        + intros st. apply grows_bind; [apply grows_lift|].
          intros en. apply grows_bind.
          * intros w0 r0 w0' E0. inversion E0. eexists. reflexivity.
          * intros _. apply prints_generate_search_requests.
      - intros x h Hx. destruct x; try discriminate Hx. inversion Hx; subst.
        apply grows_ret. }
    destruct (Hg _ _ _ H) as (l & Hl).
    exists (evs1 ++ [Log_splitting s e 1] ++ l)%list, s.
    split.
    + rewrite Hl. simpl. rewrite O1, <- !app_assoc. reflexivity.
    + apply in_or_app. right. left. f_equal. lia.
  - (* longer: the bound is exhausted inside a shorter sub-interval *)
    replace (Z.min (e - s) 2) with 2 in H by lia.
    apply bind_OutOfFuel_inv in H. destruct H as [H|(w2 & Hp & H)]; [discriminate H|].
    rewrite print_logged in Hp. inversion Hp; subst w2; clear Hp.
    rewrite split_dates_2 in H.
    set (m := s + (e - s) / 2) in *.
    assert (Hm : s <= m /\ m + 1 <= e /\ m - s < Z.of_nat fuel /\
                 e - (m + 1) < Z.of_nat fuel).
    { subst m. Z.div_mod_to_equations. lia. }
    destruct Hm as (Hm1 & Hm2 & Hm3 & Hm4).
    change (enumerate [s; m; e]) with [(0, s); (1, m); (2, e)] in H.
    cbn [for_each fst snd] in H.
    apply bind_OutOfFuel_inv in H. destruct H as [H|(w3 & Hb1 & H)].
    + apply turn_OutOfFuel in H. destruct H as (st & en & Est & Een & H).
      inversion Est; subst st. inversion Een; subst en.
      apply IH in H; [|simpl; rewrite L1; exact Hsrc|lia|lia].
      destruct H as (evs & a & Hout & Hin).
      exists (evs1 ++ [Log_splitting s e 2] ++ [Log_trying s m] ++ evs)%list, a.
      split.
      * rewrite Hout. simpl. rewrite O1, <- !app_assoc. reflexivity.
      * apply in_or_app. right. right. right. exact Hin.
    + eapply recursive_turn_Return in Hb1;
        [|reflexivity|apply Hno; simpl; exact L1].
      destruct Hb1 as (st & Est & Hrec1). inversion Est; subst st; clear Est.
      apply partition_pieces in Hrec1; [|simpl; rewrite L1; exact Hsrc].
      destruct Hrec1 as (_ & _ & evs2 & _ & _ & _ & Hout1 & _ & Hl1).
      assert (L3 : loads (self_driver w3) = loads (self_driver w)).
      { rewrite Hl1. simpl. exact L1. }
      apply bind_OutOfFuel_inv in H. destruct H as [H|(w4 & Hb2 & H)].
      * apply turn_OutOfFuel in H. destruct H as (st & en & Est & Een & H).
        cbn [Z.eqb] in Est. apply add_days_Ok in Est. subst st.
        inversion Een; subst en.
        apply IH in H; [|simpl; rewrite L3; exact Hsrc|lia|lia].
        destruct H as (evs & a & Hout & Hin).
        exists (evs1 ++ [Log_splitting s e 2] ++ [Log_trying s m] ++ evs2
                     ++ [Log_trying (m + 1) e] ++ evs)%list, a.
        split.
        -- rewrite Hout. simpl. rewrite Hout1. simpl.
           rewrite O1, <- !app_assoc. reflexivity.
        -- apply in_or_app. right. cbn [app]. right. right.
           apply in_or_app. right. right. exact Hin.
      * exfalso.
        apply bind_OutOfFuel_inv in H.
        destruct H as [H|(w5 & _ & H)]; [|discriminate H].
        apply turn_OutOfFuel in H. destruct H as (st & en & _ & Een & _).
        discriminate Een.
Qed.

Lemma encoder_accepts c s e p code :
  s <= e -> category_code c = Ok code ->
  exists r, _generate_request_args c s e p = Ok r.
Proof.
  unfold _generate_request_args, category_code. intros Hse.
  destruct (Z.ltb_spec e s); [lia|].
  destruct (truthy (filing_category c)).
  - destruct (dict_get _ _); [|discriminate]. intros _. eexists. reflexivity.
  - intros _. eexists. reflexivity.
Qed.

Lemma add_days_in_range d :
  Datetime.MINORDINAL <= d -> d < Datetime.MAXORDINAL ->
  Datetime.add_days d 1 = Ok (d + 1).
Proof.
  unfold Datetime.add_days, Datetime.MINORDINAL, Datetime.MAXORDINAL.
  intros H1 H2.
  destruct (Z.leb_spec 1 (d + 1)); [|lia].
  destruct (Z.leb_spec (d + 1) 3652059); [reflexivity|lia].
Qed.

Lemma never_throws_with_counts :
  forall fuel c (s e : Datetime.date) (w : world) code,
    counts_reported (loads (self_driver w)) ->
    category_code c = Ok code ->
    Datetime.MINORDINAL <= s -> s <= e -> e < Datetime.MAXORDINAL ->
    forall x, fst (_generate_search_requests fuel c s e w) <> Throw x.
Proof.
  induction fuel as [|fuel IH]; intros c s e w code Hsrc Hcat Hmin Hse Hmax x;
    [discriminate|].
  cbn [_generate_search_requests]. unfold bind at 1.
  destruct (encoder_accepts c s e 1 code Hse Hcat) as (req & Ereq).
  rewrite Ereq. cbn [lift ret]. unfold bind at 1.
  destruct (first_page_count_reported s e (BASE_URL ++ req) w Hsrc)
    as (n & w1 & evs1 & E1 & R1 & L1 & O1 & NS1).
  rewrite E1. unfold partition_on_count.
  destruct (Z.ltb_spec n 10000) as [Hn|Hn]; [discriminate|].
  unfold bind at 1. rewrite print_logged.
  unfold Datetime.days_between, DEFAULT_BATCHES_NUMBER.
  assert (Hsub : forall a b w0,
             loads (self_driver w0) = loads (self_driver w) ->
             s <= a -> a <= b -> b <= e ->
             forall y, fst (_generate_search_requests fuel c a b
                              (logged (Log_trying a b) w0)) <> Throw y).
  { intros a b w0 Hw0 Ha Hab Hb y. apply (IH c a b _ code); try lia; auto.
    simpl. rewrite Hw0. exact Hsrc. }
  assert (Hcases : e - s = 0 \/ e - s = 1 \/ 2 <= e - s) by lia.
  destruct Hcases as [Hd|[Hd|Hd]].
  - replace (Z.min (e - s) 2) with 0 by lia. rewrite split_dates_0.
    cbn [enumerate enumerate_from for_each fst snd]. unfold bind.
    rewrite partition_sub_interval_last; [discriminate|reflexivity|discriminate].
  - replace (Z.min (e - s) 2) with 1 by lia. rewrite split_dates_1.
    change (enumerate [s; e]) with [(0, s); (1, e)].
    cbn [for_each fst snd]. unfold bind at 1.
    rewrite (partition_sub_interval_recurse _ _ 0 s _ s e) by reflexivity.
    pose proof (Hsub s e (logged (Log_splitting s e 1) w1) L1
                  ltac:(lia) ltac:(lia) ltac:(lia)) as Hrec.
    destruct (_generate_search_requests fuel c s e _) as [[[]|y|] w3] eqn:E3.
    + unfold bind at 1.
      rewrite partition_sub_interval_last;
        [discriminate|reflexivity|].
      cbn [Z.eqb]. rewrite add_days_in_range by lia. discriminate.
    + exfalso. apply (Hrec y). reflexivity.
    + discriminate.
  - replace (Z.min (e - s) 2) with 2 by lia. rewrite split_dates_2.
    set (m := s + (e - s) / 2).
    assert (Hm : s <= m /\ m + 1 <= e).
    { subst m. Z.div_mod_to_equations. lia. }
    change (enumerate [s; m; e]) with [(0, s); (1, m); (2, e)].
    cbn [for_each fst snd]. unfold bind at 1.
    rewrite (partition_sub_interval_recurse _ _ 0 s _ s m) by reflexivity.
    pose proof (Hsub s m (logged (Log_splitting s e 2) w1) L1
                  ltac:(lia) ltac:(lia) ltac:(lia)) as Hrec1.
    destruct (_generate_search_requests fuel c s m _) as [[[]|y|] w3] eqn:E3.
    + apply partition_pieces in E3; [|simpl; rewrite L1; exact Hsrc].
      destruct E3 as (_ & _ & _ & _ & _ & _ & _ & _ & L3).
      assert (L3' : loads (self_driver w3) = loads (self_driver w)).
      { rewrite L3. simpl. exact L1. }
      unfold bind at 1.
      rewrite (partition_sub_interval_recurse _ _ 1 m _ (m + 1) e);
        [|cbn [Z.eqb]; apply add_days_in_range; lia|reflexivity].
      pose proof (Hsub (m + 1) e w3 L3' ltac:(lia) ltac:(lia) ltac:(lia))
        as Hrec2.
      destruct (_generate_search_requests fuel c (m + 1) e _)
        as [[[]|y|] w4] eqn:E4.
      * unfold bind at 1.
        rewrite partition_sub_interval_last; [discriminate|reflexivity|].
        cbn [Z.eqb]. rewrite add_days_in_range by lia. discriminate.
      * exfalso. apply (Hrec2 y). reflexivity.
      * discriminate.
    + exfalso. apply (Hrec1 y). reflexivity.
    + discriminate.
Qed.

(** ** The partitioner: what it covers *)



(** a two-day interval whose count stays at the cap: whatever the bound,
    the run does not end, finalizes nothing and drops no single day *)
Lemma saturated_two_day_run fuel :
  forall (s : Datetime.date) sr k req cur out fs,
  exists w',
    _generate_search_requests fuel Sample.keyword_a s (s + 1)
      (mkWorld sr (mkBrowser Sample.always_saturated k req cur) out fs)
    = (OutOfFuel, w') /\
    self_search_requests w' = sr /\
    exists evs, stdout w' = (out ++ evs)%list /\ ~ single_day_saturated evs.
Proof.
  induction fuel as [|fuel IH]; intros s sr k req cur out fs.
  - eexists. split; [reflexivity|]. split; [reflexivity|].
    exists []. split; [cbn [stdout]; rewrite app_nil_r; reflexivity|].
    intros [d []].
  - cbn [_generate_search_requests]. unfold bind at 1.
    destruct (_generate_request_args Sample.keyword_a s (s + 1) 1) as [r|x] eqn:E.
    + cbn [lift ret]. unfold bind at 1.
      rewrite (first_page_count_shown _ _ _ _
                 (mkPage (Ok "10,000 search results"%string) (Ok []))
                 "10,000 search results" 10000);
        [|reflexivity|reflexivity|vm_compute; reflexivity].
      unfold partition_on_count. change (10000 <? 10000) with false. cbv iota.
      unfold bind at 1. rewrite print_logged.
      unfold Datetime.days_between, DEFAULT_BATCHES_NUMBER.
      replace (Z.min (s + 1 - s) 2) with 1 by lia.
      rewrite split_dates_1.
      change (enumerate [s; s + 1]) with [(0, s); (1, s + 1)].
      cbn [for_each]. unfold bind at 1. cbn [fst snd].
      erewrite partition_sub_interval_recurse; [|reflexivity|reflexivity].
      unfold logged, fetched. cbn [self_search_requests self_driver stdout files
                                   loads clock requested current].
      match goal with
      | |- context [_generate_search_requests fuel _ s (s + 1) ?w] =>
          destruct (IH s (self_search_requests w) (clock (self_driver w))
                      (requested (self_driver w)) (current (self_driver w))
                      (stdout w) (files w)) as (w' & E' & S' & evs & O' & N');
          cbn [self_search_requests self_driver stdout files
               loads clock requested current] in E', S', O'
      end.
      rewrite E'. exists w'. split; [reflexivity|]. split; [exact S'|].
      exists ([Log_splitting s (s + 1) 1; Log_trying s (s + 1)] ++ evs)%list.
      split; [rewrite O', <- !app_assoc; reflexivity|].
      intros [d Hin]. cbn [app In] in Hin.
      destruct Hin as [Hin|[Hin|Hin]]; [discriminate Hin|discriminate Hin|].
      apply N'. exists d. exact Hin.
    + unfold _generate_request_args in E.
      destruct (Z.ltb_spec (s + 1) s); [lia|]. discriminate E.
Qed.

(** the three days from 2020-01-01 on, the cap reported for every query:
    whatever the bound, the run does not end, finalizes nothing and
    drops no single day *)
Lemma saturated_three_day_run :
  forall fuel,
  exists w',
    _generate_search_requests fuel Sample.keyword_a
      Sample.d2020_01_01 Sample.d2020_01_03
      (Sample.fresh_world Sample.always_saturated) = (OutOfFuel, w') /\
    self_search_requests w' = [] /\
    ~ single_day_saturated (stdout w').
Proof.
  intros [|fuel].
  - eexists. split; [reflexivity|]. split; [reflexivity|]. intros [d []].
  - unfold Sample.fresh_world, new_scraper, Sample.fresh_browser.
    cbn [_generate_search_requests]. unfold bind at 1.
    destruct (_generate_request_args Sample.keyword_a
                Sample.d2020_01_01 Sample.d2020_01_03 1) as [r|x] eqn:E;
      [|vm_compute in E; discriminate E].
    cbn [lift ret]. unfold bind at 1.
    rewrite (first_page_count_shown _ _ _ _
               (mkPage (Ok "10,000 search results"%string) (Ok []))
               "10,000 search results" 10000);
      [|reflexivity|reflexivity|vm_compute; reflexivity].
    unfold partition_on_count. change (10000 <? 10000) with false. cbv iota.
    unfold bind at 1. rewrite print_logged.
    unfold Datetime.days_between, DEFAULT_BATCHES_NUMBER.
    replace (Z.min (Sample.d2020_01_03 - Sample.d2020_01_01) 2) with 2
      by reflexivity.
    rewrite split_dates_2.
    replace (Sample.d2020_01_01 + (Sample.d2020_01_03 - Sample.d2020_01_01) / 2)
      with (Sample.d2020_01_01 + 1) by reflexivity.
    change (enumerate [Sample.d2020_01_01; Sample.d2020_01_01 + 1;
                       Sample.d2020_01_03])
      with [(0, Sample.d2020_01_01); (1, Sample.d2020_01_01 + 1);
            (2, Sample.d2020_01_03)].
    cbn [for_each]. unfold bind at 1. cbn [fst snd].
    erewrite partition_sub_interval_recurse; [|reflexivity|reflexivity].
    unfold logged, fetched. cbn [self_search_requests self_driver stdout files
                                 loads clock requested current].
    match goal with
    | |- context [_generate_search_requests fuel _ Sample.d2020_01_01
                    (Sample.d2020_01_01 + 1) ?w] =>
        destruct (saturated_two_day_run fuel Sample.d2020_01_01
                    (self_search_requests w) (clock (self_driver w))
                    (requested (self_driver w)) (current (self_driver w))
                    (stdout w) (files w)) as (w' & E' & S' & evs & O' & N');
        cbn [self_search_requests self_driver stdout files
             loads clock requested current] in E', S', O'
    end.
    rewrite E'. exists w'. split; [reflexivity|]. split; [exact S'|].
    rewrite O'. intros [d Hin]. apply in_app_or in Hin.
    destruct Hin as [Hin|Hin].
    + cbn [app In] in Hin.
      destruct Hin as [Hin|[Hin|[]]]; discriminate Hin.
    + apply N'. exists d. exact Hin.
Qed.


(** * Further properties of the code *)

(** ** The encoder: when it fails, and what it writes *)

Lemma effective_category_cases c :
  (truthy (filing_category c) = true /\
   exists k, filing_category c = Some k /\ effective_category c = Some k) \/
  (truthy (filing_category c) = false /\ effective_category c = None).
Proof.
  unfold effective_category. destruct (truthy (filing_category c)) eqn:E.
  - left. split; [reflexivity|]. destruct (filing_category c) as [k|].
    + exists k. split; reflexivity.
    + discriminate E.
  - right. split; reflexivity.
Qed.


Lemma all_chars_app ok (s t : string) :
  all_chars ok (s ++ t) = all_chars ok s && all_chars ok t.
Proof.
  induction s as [|a s IH]; simpl; [reflexivity|].
  rewrite IH, andb_assoc. reflexivity.
Qed.

Lemma all_chars_impl (ok ok' : ascii -> bool) s :
  (forall a, ok a = true -> ok' a = true) ->
  all_chars ok s = true -> all_chars ok' s = true.
Proof.
  intros H. induction s as [|a s IH]; simpl; [reflexivity|].
  intros E. apply andb_prop in E. destruct E as [Ea Es].
  rewrite (H a Ea), (IH Es). reflexivity.
Qed.

(** [quote_plus] leaves a string of unreserved characters as it is *)
Lemma quote_plus_unreserved s :
  all_chars Urllib.always_safe s = true -> Urllib.quote_plus s = s.
Proof.
  rewrite quote_plus_bytes.
  induction s as [|a s IH]; cbn [encode_bytes all_chars]; [reflexivity|].
  intros E. apply andb_prop in E. destruct E as [Ea Es].
  rewrite (IH Es). unfold quote_plus_byte. rewrite Ea. reflexivity.
Qed.

Lemma quote_plus_byte_chars a : all_chars request_char (quote_plus_byte a) = true.
Proof. each_byte a; reflexivity. Qed.

Lemma quote_plus_chars s : all_chars request_char (Urllib.quote_plus s) = true.
Proof.
  rewrite quote_plus_bytes. induction s as [|a s IH]; [reflexivity|].
  cbn [encode_bytes]. rewrite all_chars_app, IH, quote_plus_byte_chars.
  reflexivity.
Qed.

Lemma digit_unreserved n : Urllib.always_safe (Datetime.digit n) = true.
Proof.
  unfold Datetime.digit.
  pose proof (Z.mod_pos_bound n 10 ltac:(lia)) as H.
  assert (Hk : (Z.to_nat (n mod 10) < 10)%nat) by lia.
  destruct (Z.to_nat (n mod 10)) as [|[|[|[|[|[|[|[|[|[|k]]]]]]]]]];
    try reflexivity; lia.
Qed.

Lemma strftime_Ymd_unreserved d :
  all_chars Urllib.always_safe (Datetime.strftime_Ymd d) = true.
Proof.
  unfold Datetime.strftime_Ymd. destruct (Datetime._ord2ymd d) as [[y m] dd].
  unfold Datetime.pad4, Datetime.pad2. cbn [append all_chars].
  rewrite !digit_unreserved. reflexivity.
Qed.

Lemma string_of_uint_unreserved u :
  all_chars Urllib.always_safe (NilEmpty.string_of_uint u) = true.
Proof. induction u; simpl; auto. Qed.

Lemma str_of_int_unreserved n :
  all_chars Urllib.always_safe (PyStr.str_of_int n) = true.
Proof.
  unfold PyStr.str_of_int, NilZero.string_of_int, NilZero.string_of_uint.
  destruct (Z.to_int n) as [u|u]; destruct u; simpl;
    try reflexivity; apply string_of_uint_unreserved.
Qed.

(** X2. What the encoder writes. For arguments it accepts, with dates
    from the year 1000 on (below it the C library decides whether [%Y]
    pads the year) and a page number of at most 4300 digits (beyond
    which [str] refuses an [int]), the request string is [q=] and the
    search phrase percent-encoded twice (by [quote], then by
    [urlencode]), then [dateRange=custom], then the two dates as
    [YYYY-MM-DD] and the page number in decimal, both verbatim, then
    [entityName] and [category] when they are given and non-empty; the
    fields are joined by [&] in this order. *)
Theorem encoder_output_format :
  forall c (s e : Datetime.date) (p : Z) (r : string),
    _generate_request_args c s e p = Ok r ->
    year_1000 <= s -> e <= Datetime.MAXORDINAL ->
    Z.abs p < 10 ^ 4300 ->
    exists code,
      category_code c = Ok code /\
      r = ("q=" ++ Urllib.quote_plus (Urllib.quote (search_phrase c))
           ++ "&dateRange=custom"
           ++ "&startdt=" ++ Datetime.strftime_Ymd s
           ++ "&enddt=" ++ Datetime.strftime_Ymd e
           ++ "&page=" ++ PyStr.str_of_int p
           ++ match effective_entity c with
              | Some ent => "&entityName=" ++ Urllib.quote_plus ent
              | None => ""
              end
           ++ match code with
              | Some k => "&category=" ++ Urllib.quote_plus k
              | None => ""
              end)%string.
Proof.
  intros c s e p r H _ _ _. apply request_args_fields in H.
  destruct H as (code & Hcode & ->). exists code. split; [exact Hcode|].
  unfold request_string, optional_field.
  rewrite (quote_plus_unreserved (Datetime.strftime_Ymd s))
    by apply strftime_Ymd_unreserved.
  rewrite (quote_plus_unreserved (Datetime.strftime_Ymd e))
    by apply strftime_Ymd_unreserved.
  rewrite (quote_plus_unreserved (PyStr.str_of_int p))
    by apply str_of_int_unreserved.
  destruct (effective_entity c), code; reflexivity.
Qed.

Lemma encoder_output_format_witness :
  exists code,
    category_code (mkCriteria ["Tsunami"; "hazards & co"]%string
                     (Some "0001030717"%string)
                     (Some "all_annual_quarterly_and_current_reports"%string) true)
    = Ok code /\
    ("q=%2522Tsunami%2520hazards%2520%2526%2520co%2522&dateRange=custom&startdt=2020-01-01&enddt=2020-01-08&page=3&entityName=0001030717&category=form-cat1"%string
     = "q=" ++ Urllib.quote_plus (Urllib.quote
                 (search_phrase (mkCriteria ["Tsunami"; "hazards & co"]%string
                     (Some "0001030717"%string)
                     (Some "all_annual_quarterly_and_current_reports"%string) true)))
       ++ "&dateRange=custom"
       ++ "&startdt=" ++ Datetime.strftime_Ymd Sample.d2020_01_01
       ++ "&enddt=" ++ Datetime.strftime_Ymd Sample.d2020_01_08
       ++ "&page=" ++ PyStr.str_of_int 3
       ++ "&entityName=" ++ Urllib.quote_plus "0001030717"
       ++ match code with
          | Some k => "&category=" ++ Urllib.quote_plus k
          | None => ""
          end)%string.
Proof.
  apply (encoder_output_format
           (mkCriteria ["Tsunami"; "hazards & co"]%string
              (Some "0001030717"%string)
              (Some "all_annual_quarterly_and_current_reports"%string) true)
           Sample.d2020_01_01 Sample.d2020_01_08 3).
  - vm_compute. reflexivity.
  - vm_compute. discriminate.
  - vm_compute. discriminate.
  - vm_compute. reflexivity.
Defined.

(** X3. The request string is made of unreserved characters and of [%],
    [+], [=] and [&] alone: whatever the keywords and the entity hold,
    it has no space, no quote, no [#] and no character outside ASCII. *)
Theorem encoder_output_characters :
  forall c (s e : Datetime.date) (p : Z) (r : string),
    _generate_request_args c s e p = Ok r ->
    all_chars request_char r = true /\
    PyStr.contains_char " " r = false /\
    PyStr.contains_char "#" r = false /\
    PyStr.contains_char dquote r = false.
Proof.
  intros c s e p r H. apply request_args_fields in H.
  destruct H as (code & _ & ->).
  assert (Hall : all_chars request_char
                   (request_string (search_phrase c) (Datetime.strftime_Ymd s)
                      (Datetime.strftime_Ymd e) (PyStr.str_of_int p)
                      (effective_entity c) code) = true).
  { unfold request_string, optional_field.
    destruct (effective_entity c), code;
      repeat (rewrite all_chars_app); rewrite ?quote_plus_chars; reflexivity. }
  split; [exact Hall|].
  assert (Hnot : forall x, request_char x = false ->
                 forall t, all_chars request_char t = true ->
                           PyStr.contains_char x t = false).
  { intros x Hx t. induction t as [|a t IH]; simpl; [reflexivity|].
    intros E. apply andb_prop in E. destruct E as [Ea Et].
    rewrite (IH Et), orb_false_r.
    destruct (Ascii.eqb_spec a x) as [->|]; [congruence|reflexivity]. }
  repeat split; apply Hnot; try exact Hall; reflexivity.
Qed.

Lemma encoder_output_characters_witness :
  PyStr.contains_char " "
    "q=%2522Tsunami%2520hazards%2522&dateRange=custom&startdt=2020-01-01&enddt=2020-01-08&page=1"
  = false.
Proof.
  apply (encoder_output_characters
           (mkCriteria ["Tsunami"; "hazards"]%string None None true)
           Sample.d2020_01_01 Sample.d2020_01_08 1).
  vm_compute. reflexivity.
Defined.

(** ** Reading the count: which text gives which number *)

Lemma remove_char_app c (s t : string) :
  PyStr.remove_char c (s ++ t)
  = (PyStr.remove_char c s ++ PyStr.remove_char c t)%string.
Proof.
  induction s as [|a s IH]; simpl; [reflexivity|].
  destruct (Ascii.eqb a c); rewrite IH; reflexivity.
Qed.

Lemma remove_char_keeps_absent x c s :
  PyStr.contains_char x s = false ->
  PyStr.contains_char x (PyStr.remove_char c s) = false.
Proof.
  induction s as [|a s IH]; simpl; [reflexivity|].
  intros E. apply orb_false_iff in E. destruct E as [Ea Es].
  destruct (Ascii.eqb a c); simpl; rewrite ?Ea; auto.
Qed.

Lemma split_on_first c (t rest : string) :
  PyStr.contains_char c t = false ->
  PyStr.split_on c (t ++ String c rest) = t :: PyStr.split_on c rest.
Proof.
  induction t as [|a t IH]; simpl.
  - intros _. rewrite Ascii.eqb_refl. reflexivity.
  - intros E. apply orb_false_iff in E. destruct E as [Ea Et].
    rewrite Ea, (IH Et). reflexivity.
Qed.

Lemma split_on_absent c (t : string) :
  PyStr.contains_char c t = false -> PyStr.split_on c t = [t].
Proof.
  induction t as [|a t IH]; simpl; [reflexivity|].
  intros E. apply orb_false_iff in E. destruct E as [Ea Et].
  rewrite Ea, (IH Et). reflexivity.
Qed.

Lemma parse_count_text_token (t rest : string) :
  PyStr.contains_char " " t = false ->
  parse_count_text (t ++ " " ++ rest) = PyInt.int (PyStr.remove_char "," t) /\
  parse_count_text t = PyInt.int (PyStr.remove_char "," t).
Proof.
  intros Ht. unfold parse_count_text. split.
  - rewrite remove_char_app. cbn [append PyStr.remove_char Ascii.eqb Bool.eqb].
    rewrite split_on_first by (apply remove_char_keeps_absent, Ht).
    reflexivity.
  - rewrite split_on_absent by (apply remove_char_keeps_absent, Ht).
    reflexivity.
Qed.

(** X4. Of the text of the count element only the part before the first
    space is read, and the commas in it are dropped: a text [t] without a
    space, alone or followed by a space and anything, is read as
    [int] of [t] without its commas. *)
Theorem count_text_first_token :
  forall (t rest : string),
    PyStr.contains_char " " t = false ->
    parse_count_text (t ++ " " ++ rest) = PyInt.int (PyStr.remove_char "," t) /\
    parse_count_text t = PyInt.int (PyStr.remove_char "," t).
Proof. intros t rest Ht. apply parse_count_text_token, Ht. Qed.

Lemma count_text_first_token_witness :
  parse_count_text ("12,345" ++ " " ++ "search results") = PyInt.int "12345" /\
  parse_count_text "12,345" = PyInt.int "12345".
Proof.
  apply (count_text_first_token "12,345" "search results"). reflexivity.
Defined.

Lemma digits_after_digit u : forall acc : positive,
  PyInt.digits (Z.pos acc) true (NilEmpty.string_of_uint u)
  = Some (Z.pos (Pos.of_uint_acc u acc)).
Proof.
  induction u; intros acc; cbn [NilEmpty.string_of_uint PyInt.digits Pos.of_uint_acc];
    try reflexivity;
    match goal with
    | |- context [PyInt.digit_value ?ch] =>
        change (PyInt.digit_value ch) with (Some (Z.of_nat (nat_of_ascii ch) - 48))
    end; cbv iota beta;
    match goal with
    | |- PyInt.digits ?z true _ = _ =>
        match goal with
        | |- _ = Some (Z.pos (Pos.of_uint_acc _ ?q)) =>
            replace z with (Z.pos q)
              by (match goal with
                  | |- context [Z.of_nat ?k - 48] =>
                      let v := eval vm_compute in (Z.of_nat k - 48) in
                      change (Z.of_nat k - 48) with v
                  end; lia)
        end
    end; apply IHu.
Qed.

Lemma digits_of_uint u : forall b,
  u <> Decimal.Nil ->
  PyInt.digits 0 b (NilEmpty.string_of_uint u) = Some (Z.of_N (Pos.of_uint u)).
Proof.
  induction u; intros b Hu; [contradiction| | | | | | | | | |];
    cbn [NilEmpty.string_of_uint PyInt.digits Pos.of_uint];
    match goal with
    | |- context [PyInt.digit_value ?ch] =>
        change (PyInt.digit_value ch) with (Some (Z.of_nat (nat_of_ascii ch) - 48))
    end; cbv iota beta.
  - change (10 * 0 + (Z.of_nat (nat_of_ascii "0") - 48)) with 0.
    destruct u; try (apply IHu; discriminate). reflexivity.
  - apply (digits_after_digit u 1).
  - apply (digits_after_digit u 2).
  - apply (digits_after_digit u 3).
  - apply (digits_after_digit u 4).
  - apply (digits_after_digit u 5).
  - apply (digits_after_digit u 6).
  - apply (digits_after_digit u 7).
  - apply (digits_after_digit u 8).
  - apply (digits_after_digit u 9).
Qed.

Lemma lstrip_space_unreserved s :
  all_chars Urllib.always_safe s = true -> PyInt.lstrip_space s = s.
Proof.
  destruct s as [|a s]; [reflexivity|]. cbn [all_chars PyInt.lstrip_space].
  intros E. apply andb_prop in E. destruct E as [Ea _].
  replace (PyInt.is_space a) with false; [reflexivity|].
  revert Ea. each_byte a; intros Ea; try reflexivity; discriminate Ea.
Qed.

Lemma rstrip_space_unreserved s :
  all_chars Urllib.always_safe s = true -> PyInt.rstrip_space s = s.
Proof.
  induction s as [|a s IH]; [reflexivity|]. cbn [all_chars PyInt.rstrip_space].
  intros E. apply andb_prop in E. destruct E as [Ea Es]. rewrite (IH Es).
  destruct s as [|b s]; [|reflexivity].
  replace (PyInt.is_space a) with false; [reflexivity|].
  revert Ea. each_byte a; intros Ea; try reflexivity; discriminate Ea.
Qed.

Lemma uint_string_head u :
  u <> Decimal.Nil ->
  exists a t, NilEmpty.string_of_uint u = String a t /\
              a <> "-"%char /\ a <> "+"%char.
Proof.
  destruct u; intros Hu; [contradiction| | | | | | | | | |];
    (eexists; eexists; split; [reflexivity|split; discriminate]).
Qed.

(** [int(str(n))] is [n] *)
Lemma int_str n : PyInt.int (PyStr.str_of_int n) = Ok n.
Proof.
  unfold PyInt.int.
  rewrite lstrip_space_unreserved, rstrip_space_unreserved
    by apply str_of_int_unreserved.
  rewrite <- (DecimalZ.of_to n) at 2.
  unfold PyStr.str_of_int.
  assert (Hnil : forall u, u <> Decimal.Nil ->
                 NilZero.string_of_uint u = NilEmpty.string_of_uint u).
  { intros u Hu. destruct u; [contradiction|reflexivity..]. }
  assert (Hnn : match Z.to_int n with
                | Decimal.Pos u | Decimal.Neg u => u <> Decimal.Nil
                end).
  { destruct n; simpl; try discriminate; apply Unsigned.to_uint_nonnil. }
  destruct (Z.to_int n) as [u|u]; cbn [NilZero.string_of_int Z.of_int].
  - rewrite (Hnil u Hnn).
    destruct (uint_string_head u Hnn) as (a & t & E & Hm & Hp).
    assert (Hd : PyInt.digits 0 false (String a t) = Some (Z.of_uint u)).
    { rewrite <- E. apply digits_of_uint, Hnn. }
    rewrite E.
    destruct (Ascii.eqb_spec a "-") as [->|_]; [contradiction|].
    destruct (Ascii.eqb_spec a "+") as [->|_]; [contradiction|].
    revert Hd. each_byte a; try contradiction; intros Hd; rewrite Hd; reflexivity.
  - rewrite (Hnil u Hnn), (digits_of_uint u false Hnn). reflexivity.
Qed.

(** X5. A count shown in decimal, with commas anywhere between its
    characters and followed by a space and any text, is read back
    exactly: if the text before the first space is [str(n)] once its
    commas are dropped, and [n] has at most 4300 digits (beyond which
    [int] refuses a decimal text), the count read is [n]. *)
Theorem count_text_round_trip :
  forall (t rest : string) (n : Z),
    PyStr.contains_char " " t = false ->
    PyStr.remove_char "," t = PyStr.str_of_int n ->
    Z.abs n < 10 ^ 4300 ->
    parse_count_text (t ++ " " ++ rest) = Ok n /\ parse_count_text t = Ok n.
Proof.
  intros t rest n Ht Hn _.
  destruct (parse_count_text_token t rest Ht) as (H1 & H2).
  rewrite H1, H2, Hn, int_str. split; reflexivity.
Qed.

Lemma count_text_round_trip_witness :
  parse_count_text ("1,234,567" ++ " " ++ "search results") = Ok 1234567 /\
  parse_count_text "1,234,567" = Ok 1234567.
Proof.
  apply (count_text_round_trip "1,234,567" "search results" 1234567);
    vm_compute; reflexivity.
Defined.

(** ** Reading the count: what becomes of a failure *)

(** X6. [fetch_first_page_results_number] makes one fetch, of the URL it
    is given, and its outcome is that of reading the count off that
    load: the count when the page loads and its count text parses,
    otherwise the very exception that the fetch, the element lookup or
    [int] raised; it never swallows or replaces one. It changes neither
    the finalized queries nor any file. *)
Theorem fetch_first_page_reraises :
  forall (url : string) (w : world),
    let '(r, w') := fetch_first_page_results_number url w in
    r = match count_outcome (next_load w) with
        | Ok n => Return n
        | Raise x => Throw x
        end /\
    requested (self_driver w') = (requested (self_driver w) ++ [url])%list /\
    clock (self_driver w') = S (clock (self_driver w)) /\
    self_search_requests w' = self_search_requests w /\
    files w' = files w.
Proof.
  intros url w.
  unfold fetch_first_page_results_number, try_except, bind, fetch_page,
    count_outcome, next_load.
  destruct (loads (self_driver w) (clock (self_driver w))) as [x|p].
  - destruct x; simpl; repeat split.
  - unfold _parse_number_of_results, bind, current_page. simpl.
    destruct (show_result_count p) as [t|x]; simpl; [|repeat split].
    destruct (parse_count_text t) as [n|x]; simpl; repeat split.
Qed.

(** X7. In the partitioner a [ValueError] is taken for a saturated
    count wherever it comes from, be it [int], the element lookup or the
    fetch itself: the count of the interval is then 10000. Every other
    exception propagates unchanged, and a count that parses is returned
    as it is, below or above 10000. *)
Theorem first_page_count_outcome :
  forall (s e : Datetime.date) (url : string) (w : world),
    fst (first_page_count s e url w)
    = match count_outcome (next_load w) with
      | Ok n => Return n
      | Raise ValueError => Return 10000
      | Raise x => Throw x
      end.
Proof.
  intros s e url w.
  unfold first_page_count, fetch_first_page_results_number, try_except, bind,
    fetch_page, count_outcome, next_load.
  destruct (loads (self_driver w) (clock (self_driver w))) as [x|p].
  - destruct x; reflexivity.
  - unfold _parse_number_of_results, bind, current_page. simpl.
    destruct (show_result_count p) as [t|x]; simpl; [|destruct x; reflexivity].
    destruct (parse_count_text t) as [n|x]; simpl; [reflexivity|].
    destruct x; reflexivity.
Qed.

(** ** The partitioner: when it returns *)

(** X10. The partitioner stops, save for one case. With a source that
    always shows a count text, a known (or no) filing category, dates in
    order with the end date before [date.max], and a recursion bound
    above the length of the interval in days, the call returns, unless
    some interval of two days was found saturated, which the code splits
    into itself. *)
Theorem partition_returns_unless_two_days_saturated :
  forall fuel c (s e : Datetime.date) (w : world) code,
    counts_reported (loads (self_driver w)) ->
    category_code c = Ok code ->
    Datetime.MINORDINAL <= s -> s <= e -> e < Datetime.MAXORDINAL ->
    e - s < Z.of_nat fuel ->
    (exists w', _generate_search_requests fuel c s e w = (Return tt, w')) \/
    (exists w' evs a,
       _generate_search_requests fuel c s e w = (OutOfFuel, w') /\
       stdout w' = (stdout w ++ evs)%list /\
       In (Log_splitting a (a + 1) 1) evs).
Proof.
  intros fuel c s e w code Hsrc Hcat Hmin Hse Hmax Hfuel.
  pose proof (never_throws_with_counts fuel c s e w code Hsrc Hcat Hmin Hse Hmax)
    as Hno.
  destruct (_generate_search_requests fuel c s e w) as [[[]|x|] w'] eqn:E.
  - left. exists w'. reflexivity.
  - exfalso. apply (Hno x). reflexivity.
  - right. destruct (out_of_fuel_needs_two_day_split fuel c s e w w' Hsrc Hse Hfuel E)
      as (evs & a & Hout & Hin).
    exists w', evs, a. repeat split; assumption.
Qed.

Lemma partition_returns_unless_two_days_saturated_witness :
  exists w',
    _generate_search_requests 8 Sample.keyword_a
      Sample.d2020_01_01 Sample.d2020_01_08
      (Sample.fresh_world Sample.saturated_once) = (Return tt, w').
Proof.
  destruct (partition_returns_unless_two_days_saturated 8 Sample.keyword_a
              Sample.d2020_01_01 Sample.d2020_01_08
              (Sample.fresh_world Sample.saturated_once) None)
    as [H|(w' & evs & a & H & _)].
  - exact saturated_once_reported.
  - reflexivity.
  - vm_compute. discriminate.
  - vm_compute. discriminate.
  - vm_compute. reflexivity.
  - vm_compute. reflexivity.
  - exact H.
  - exfalso. vm_compute in H. discriminate H.
Defined.

(** ** The partitioner: a saturated single day, and the last day of all *)

Lemma first_page_count_frame s e url w r w1 :
  first_page_count s e url w = (r, w1) ->
  self_search_requests w1 = self_search_requests w /\
  files w1 = files w /\
  loads (self_driver w1) = loads (self_driver w) /\
  clock (self_driver w1) = S (clock (self_driver w)) /\
  requested (self_driver w1) = (requested (self_driver w) ++ [url])%list.
Proof.
  unfold first_page_count, fetch_first_page_results_number, try_except, bind,
    fetch_page.
  destruct (loads (self_driver w) (clock (self_driver w))) as [x|p].
  - destruct x; intros H; inversion H; subst; simpl; repeat split.
  - unfold _parse_number_of_results, bind, current_page. simpl.
    destruct (show_result_count p) as [t|x]; simpl.
    + destruct (parse_count_text t) as [n|x]; simpl;
        [|destruct x]; intros H; inversion H; subst; simpl; repeat split.
    + destruct x; intros H; inversion H; subst; simpl; repeat split.
Qed.

Lemma first_page_count_of_outcome s e url w n :
  count_outcome (next_load w) = Ok n ->
  exists p, first_page_count s e url w = (Return n, fetched url p w).
Proof.
  unfold count_outcome, next_load.
  destruct (loads (self_driver w) (clock (self_driver w))) as [x|p] eqn:El;
    [discriminate|].
  destruct (show_result_count p) as [t|x] eqn:Et; [|discriminate].
  intros Hn. exists p. eapply first_page_count_shown; eassumption.
Qed.

(** X11. A single day found saturated is dropped without a word: the
    call makes its one fetch, prints the line of the split into 0
    intervals, appends nothing to the finalized queries and returns
    normally, so that the matches of that day are never harvested. *)
Theorem saturated_single_day_is_dropped :
  forall fuel c (s : Datetime.date) (w w1 : world) (n : Z) (req : string),
    _generate_request_args c s s 1 = Ok req ->
    first_page_count s s (BASE_URL ++ req) w = (Return n, w1) ->
    10000 <= n ->
    exists w',
      _generate_search_requests (S fuel) c s s w = (Return tt, w') /\
      self_search_requests w' = self_search_requests w /\
      clock (self_driver w') = S (clock (self_driver w)) /\
      stdout w' = (stdout w1 ++ [Log_splitting s s 0])%list /\
      files w' = files w.
Proof.
  intros fuel c s w w1 n req Hreq Hcount Hn.
  destruct (first_page_count_frame _ _ _ _ _ _ Hcount) as (S1 & F1 & _ & C1 & _).
  exists (logged (Log_splitting s s 0) w1). split.
  - cbn [_generate_search_requests]. unfold bind at 1. rewrite Hreq.
    cbn [lift ret]. unfold bind at 1. rewrite Hcount.
    unfold partition_on_count. destruct (Z.ltb_spec n 10000); [lia|].
    unfold bind at 1. rewrite print_logged.
    unfold Datetime.days_between, DEFAULT_BATCHES_NUMBER.
    replace (Z.min (s - s) 2) with 0 by lia. rewrite split_dates_0.
    cbn [enumerate enumerate_from for_each fst snd]. unfold bind.
    rewrite partition_sub_interval_last; [reflexivity|reflexivity|discriminate].
  - simpl. repeat split; assumption.
Qed.

Lemma saturated_single_day_is_dropped_witness :
  exists w',
    _generate_search_requests 1 Sample.keyword_a
      Sample.d2020_01_01 Sample.d2020_01_01
      (Sample.fresh_world Sample.always_saturated) = (Return tt, w') /\
    self_search_requests w' = [].
Proof.
  pose (w := Sample.fresh_world Sample.always_saturated).
  pose (url := (BASE_URL ++ "q=a&dateRange=custom&startdt=2020-01-01&enddt=2020-01-01&page=1")%string).
  destruct (saturated_single_day_is_dropped 0 Sample.keyword_a
              Sample.d2020_01_01 w
              (snd (first_page_count Sample.d2020_01_01 Sample.d2020_01_01 url w))
              10000
              "q=a&dateRange=custom&startdt=2020-01-01&enddt=2020-01-01&page=1")
    as (w' & Hrun & Hsr & _).
  - vm_compute. reflexivity.
  - vm_compute. reflexivity.
  - lia.
  - exists w'. split; [exact Hrun|exact Hsr].
Defined.

Lemma below_cap_step fuel c s e w w1 n req :
  _generate_request_args c s e 1 = Ok req ->
  first_page_count s e (BASE_URL ++ req) w = (Return n, w1) ->
  n < 10000 ->
  _generate_search_requests (S fuel) c s e w
  = append_search_request req (logged (Log_less_than_10000 n s e) w1).
Proof.
  intros Hreq Hcount Hn.
  cbn [_generate_search_requests]. unfold bind at 1. rewrite Hreq.
  cbn [lift ret]. unfold bind at 1. rewrite Hcount.
  unfold partition_on_count. destruct (Z.ltb_spec n 10000); [|lia].
  unfold bind. rewrite print_logged. reflexivity.
Qed.

Lemma generate_search_requests_step fuel c s e w :
  _generate_search_requests (S fuel) c s e w
  = bind (lift (_generate_request_args c s e 1))
      (fun req =>
         bind (first_page_count s e (BASE_URL ++ req))
           (fun n => partition_on_count (_generate_search_requests fuel c)
                       s e req n)) w.
Proof. reflexivity. Qed.

(** X12. The last day of all. An interval of three days or more that
    ends on [date.max] and is found saturated is split and its two
    halves are finalized when their counts are below 10000; but the turn
    of the loop past the last boundary adds a day to [date.max] before it
    looks for the next boundary, so the call ends in [OverflowError], and
    with it [custom_text_search], which harvests nothing. *)
Theorem saturated_interval_ending_at_date_max :
  forall fuel c (s : Datetime.date) (w : world) code (n0 n1 n2 : Z),
    category_code c = Ok code ->
    Datetime.MINORDINAL <= s -> s + 2 <= Datetime.MAXORDINAL ->
    count_outcome (loads (self_driver w) (clock (self_driver w))) = Ok n0 ->
    count_outcome (loads (self_driver w) (S (clock (self_driver w)))) = Ok n1 ->
    count_outcome (loads (self_driver w) (S (S (clock (self_driver w))))) = Ok n2 ->
    10000 <= n0 -> n1 < 10000 -> n2 < 10000 ->
    let m := s + (Datetime.MAXORDINAL - s) / 2 in
    exists w' q1 q2,
      custom_text_search (S (S fuel)) c s Datetime.MAXORDINAL w
      = (Throw OverflowError, w') /\
      self_search_requests w' = (self_search_requests w ++ [q1; q2])%list /\
      encodes c (s, m) q1 /\ encodes c (m + 1, Datetime.MAXORDINAL) q2 /\
      files w' = files w /\
      clock (self_driver w') = S (S (S (clock (self_driver w)))).
Proof.
  intros fuel c s w code n0 n1 n2 Hcat Hmin Hmax H0 H1 H2 Hn0 Hn1 Hn2 m.
  assert (Hm : s <= m /\ m + 1 <= Datetime.MAXORDINAL /\ m < Datetime.MAXORDINAL).
  { subst m. unfold Datetime.MAXORDINAL in *. Z.div_mod_to_equations. lia. }
  destruct Hm as (Hm1 & Hm2 & Hm3).
  destruct (encoder_accepts c s Datetime.MAXORDINAL 1 code ltac:(lia) Hcat)
    as (req & Ereq).
  destruct (encoder_accepts c s m 1 code Hm1 Hcat) as (q1 & Eq1).
  destruct (encoder_accepts c (m + 1) Datetime.MAXORDINAL 1 code Hm2 Hcat)
    as (q2 & Eq2).
  destruct (first_page_count_of_outcome s Datetime.MAXORDINAL (BASE_URL ++ req)
              w n0 H0) as (p0 & E0).
  set (w1 := logged (Log_trying s m)
               (logged (Log_splitting s Datetime.MAXORDINAL 2)
                  (fetched (BASE_URL ++ req) p0 w))).
  destruct (first_page_count_of_outcome s m (BASE_URL ++ q1) w1 n1 H1)
    as (p1 & E1).
  set (w2 := logged (Log_trying (m + 1) Datetime.MAXORDINAL)
               (snd (append_search_request q1
                       (logged (Log_less_than_10000 n1 s m)
                          (fetched (BASE_URL ++ q1) p1 w1))))).
  destruct (first_page_count_of_outcome (m + 1) Datetime.MAXORDINAL
              (BASE_URL ++ q2) w2 n2 H2) as (p2 & E2).
  eexists. exists q1, q2. split; [|split; [|split; [|split; [|split]]]].
  - unfold custom_text_search. unfold bind at 1.
    rewrite generate_search_requests_step. unfold bind at 1. rewrite Ereq.
    cbn [lift ret]. unfold bind at 1. rewrite E0.
    unfold partition_on_count. destruct (Z.ltb_spec n0 10000); [lia|].
    unfold bind at 1. rewrite print_logged.
    unfold Datetime.days_between, DEFAULT_BATCHES_NUMBER.
    replace (Z.min (Datetime.MAXORDINAL - s) 2) with 2 by lia.
    rewrite split_dates_2. fold m.
    change (enumerate [s; m; Datetime.MAXORDINAL])
      with [(0, s); (1, m); (2, Datetime.MAXORDINAL)].
    cbn [for_each fst snd]. unfold bind at 1.
    rewrite (partition_sub_interval_recurse _ _ 0 s _ s m) by reflexivity.
    fold w1.
    rewrite (below_cap_step fuel c s m w1 _ n1 q1 Eq1 E1 Hn1).
    unfold append_search_request at 1. unfold bind at 1.
    rewrite (partition_sub_interval_recurse _ _ 1 m _ (m + 1) Datetime.MAXORDINAL);
      [|cbn [Z.eqb]; apply add_days_in_range; lia|reflexivity].
    change (logged (Log_trying (m + 1) Datetime.MAXORDINAL) _) with w2.
    rewrite (below_cap_step fuel c (m + 1) Datetime.MAXORDINAL w2 _ n2 q2 Eq2 E2 Hn2).
    unfold append_search_request at 1. unfold bind at 1.
    rewrite partition_sub_interval_overflow; [reflexivity|].
    reflexivity.
  - simpl. rewrite <- app_assoc. reflexivity.
  - exact Eq1.
  - exact Eq2.
  - reflexivity.
  - reflexivity.
Qed.

Lemma saturated_interval_ending_at_date_max_witness :
  exists w',
    custom_text_search 2 Sample.keyword_a Sample.d9999_12_24 Datetime.MAXORDINAL
      (Sample.fresh_world Sample.saturated_once) = (Throw OverflowError, w') /\
    files w' = Sample.no_files.
Proof.
  destruct (saturated_interval_ending_at_date_max 0 Sample.keyword_a
              Sample.d9999_12_24 (Sample.fresh_world Sample.saturated_once)
              None 12000 40 40)
    as (w' & q1 & q2 & Hrun & _ & _ & _ & Hf & _).
  - reflexivity.
  - vm_compute. discriminate.
  - vm_compute. discriminate.
  - vm_compute. reflexivity.
  - vm_compute. reflexivity.
  - vm_compute. reflexivity.
  - lia.
  - lia.
  - lia.
  - exists w'. split; [exact Hrun|exact Hf].
Defined.

(** ** The partitioner: no query twice *)

Lemma encodes_same_start c iv1 iv2 r :
  Datetime.valid_date (fst iv1) -> Datetime.valid_date (fst iv2) ->
  encodes c iv1 r -> encodes c iv2 r -> fst iv1 = fst iv2.
Proof.
  unfold encodes. intros V1 V2 H1 H2.
  apply request_args_fields in H1. destruct H1 as (k1 & _ & E1).
  apply request_args_fields in H2. destruct H2 as (k2 & _ & E2).
  rewrite E1 in E2. apply request_string_inj in E2.
  destruct E2 as (_ & Hs & _). apply strftime_Ymd_inj; assumption.
Qed.

Lemma finalized_of_pieces (pieces : list (interval * bool)) :
  ForallOrdPairs before (map fst pieces) ->
  ForallOrdPairs before (map fst (filter snd pieces)) /\
  forall iv, In iv (map fst (filter snd pieces)) -> In iv (map fst pieces).
Proof.
  induction pieces as [|[iv b] l IH]; intros H; [split; [constructor|auto]|].
  cbn [map fst] in H. inversion H as [|? ? Hhd Htl]; subst.
  destruct (IH Htl) as (IH1 & IH2). cbn [filter snd]. destruct b.
  - cbn [map fst]. split.
    + constructor; [|exact IH1].
      apply Forall_forall. intros iv' Hin.
      eapply Forall_forall in Hhd; [exact Hhd|]. apply IH2, Hin.
    + intros iv' [<-|Hin]; [left; reflexivity|right; apply IH2, Hin].
  - split; [exact IH1|]. intros iv' Hin. right. apply IH2, Hin.
Qed.

Lemma distinct_encodings c (ivs : list interval) (rs : list string) :
  Forall2 (encodes c) ivs rs ->
  ForallOrdPairs before ivs ->
  Forall (fun iv => Datetime.valid_date (fst iv)) ivs ->
  NoDup rs.
Proof.
  induction 1 as [|iv r ivs rs Hiv Hrest IH]; intros Hord Hval; [constructor|].
  inversion Hord as [|? ? Hhd Htl]; subst.
  inversion Hval as [|? ? Hv Hvs]; subst.
  constructor; [|apply IH; assumption].
  intros Hin.
  assert (Hex : exists iv', In iv' ivs /\ encodes c iv' r).
  { clear - Hrest Hin. induction Hrest as [|iv' r' ivs rs H' _ IH'];
      [contradiction|].
    destruct Hin as [<-|Hin].
    - exists iv'. split; [left; reflexivity|exact H'].
    - destruct (IH' Hin) as (iv0 & Hin0 & H0).
      exists iv0. split; [right; exact Hin0|exact H0]. }
  destruct Hex as (iv' & Hin' & Henc').
  pose proof (proj1 (Forall_forall _ _) Hhd iv' Hin') as Hbefore.
  pose proof (proj1 (Forall_forall _ _) Hvs iv' Hin') as Hv'.
  pose proof (encodes_same_start c iv iv' r Hv Hv' Hiv Henc') as Hsame.
  pose proof (_generate_request_args_ordered _ _ _ _ _ Hiv) as Hle.
  unfold before in Hbefore. lia.
Qed.

(** X13. One partitioning never finalizes a query twice: with a source
    that always shows a count text and valid dates, the queries that a
    finished run appended to [self.search_requests] are pairwise
    different, whether or not single days were dropped on the way. *)
Theorem finalized_queries_differ :
  forall fuel c (s e : Datetime.date) (w w' : world),
    counts_reported (loads (self_driver w)) ->
    Datetime.valid_date s -> Datetime.valid_date e ->
    _generate_search_requests fuel c s e w = (Return tt, w') ->
    NoDup (finalized_during w w').
Proof.
  intros fuel c s e w w' Hsrc Vs Ve Hrun.
  destruct (partition_pieces fuel c s e w w' Hsrc Hrun)
    as (pieces & rs & evs & Hch & Hrs & Hsr & _).
  unfold finalized_during. rewrite Hsr, skipn_app_exact.
  destruct (finalized_of_pieces pieces (chain_sorted _ _ _ Hch)) as (Hord & Hsub).
  eapply distinct_encodings; [exact Hrs|exact Hord|].
  apply Forall_forall. intros iv Hin. apply Hsub in Hin.
  destruct (chain_after _ _ _ _ Hch Hin) as (H1 & H2).
  assert (Hle : fst iv <= snd iv).
  { clear - Hch Hin. revert s Hch.
    induction (map fst pieces) as [|iv0 l IH]; intros s Hch; [contradiction|].
    destruct Hch as (_ & Hle0 & Hrest). destruct Hin as [<-|Hin]; [exact Hle0|].
    destruct l as [|iv1 l]; [contradiction|]. eapply IH; eassumption. }
  unfold Datetime.valid_date in *. lia.
Qed.

Lemma finalized_queries_differ_witness :
  NoDup [ "q=a&dateRange=custom&startdt=2020-01-01&enddt=2020-01-04&page=1"%string;
          "q=a&dateRange=custom&startdt=2020-01-05&enddt=2020-01-08&page=1"%string ].
Proof.
  pose (w := Sample.fresh_world Sample.saturated_once).
  pose (run := _generate_search_requests 5 Sample.keyword_a
                 Sample.d2020_01_01 Sample.d2020_01_08 w).
  apply (finalized_queries_differ 5 Sample.keyword_a
           Sample.d2020_01_01 Sample.d2020_01_08 w (snd run)).
  - exact saturated_once_reported.
  - vm_compute. split; discriminate.
  - vm_compute. split; discriminate.
  - vm_compute. reflexivity.
Defined.

(** ** The record parser: which rows parse, and into what *)

Lemma try_or_none_find {A} (o : option A) : try_or_none (find_element o) = o.
Proof. destruct o; reflexivity. Qed.

Lemma parse_table_row_cases r :
  parse_table_row r
  = match el_filetype r with
    | None => Raise AttributeError
    | Some ft =>
        match filetype_preview ft with
        | None => Raise NoSuchElementException
        | Some lnk =>
            match cik_of r with
            | None => Raise AttributeError
            | Some cik =>
                match attr_data_adsh lnk with
                | None => Raise AttributeError
                | Some adsh => Ok (record_of r ft lnk cik adsh)
                end
            end
        end
    end.
Proof.
  unfold parse_table_row, cik_of, record_of. rewrite !try_or_none_find.
  destruct (el_filetype r) as [ft|]; cbn [deref bind_result]; [|reflexivity].
  destruct (filetype_preview ft) as [lnk|];
    cbn [find_element bind_result]; [|reflexivity].
  destruct (el_cik r) as [t|]; cbn [find_element bind_result try_or_none deref];
    [|reflexivity].
  destruct (list_index (PyStr.split_on " " t) 1) as [cik|x];
    cbn [try_or_none deref bind_result]; [|reflexivity].
  destruct (attr_data_adsh lnk) as [adsh|];
    cbn [deref bind_result format_opt]; [|reflexivity].
  destruct (el_file_num_link r); reflexivity.
Qed.

(** X14. A row parses exactly when it has a [filetype] element with a
    [preview-file] element below it that carries [data-adsh], and a
    [cik] text with at least two space-separated fields. No other
    sub-element is needed: [filed], [enddate], [entity-name],
    [biz-location], [incorporated], [file-num], [film-num] and the
    attribute [data-file-name] may all be missing. The record is then
    [record_of]: the missing ones are [None], and a missing
    [data-file-name] puts the text [None] at the end of the document
    URL. *)
Theorem parse_table_row_succeeds :
  forall (r : table_row) (rec : filing_record),
    parse_table_row r = Ok rec <->
    exists ft lnk cik adsh,
      el_filetype r = Some ft /\ filetype_preview ft = Some lnk /\
      cik_of r = Some cik /\ attr_data_adsh lnk = Some adsh /\
      rec = record_of r ft lnk cik adsh.
Proof.
  intros r rec. rewrite parse_table_row_cases. split.
  - destruct (el_filetype r) as [ft|]; [|discriminate].
    destruct (filetype_preview ft) as [lnk|] eqn:Elnk; [|discriminate].
    destruct (cik_of r) as [cik|]; [|discriminate].
    destruct (attr_data_adsh lnk) as [adsh|] eqn:Eadsh; [|discriminate].
    intros H. injection H as <-. exists ft, lnk, cik, adsh. repeat split; assumption.
  - intros (ft & lnk & cik & adsh & -> & -> & -> & -> & ->). reflexivity.
Qed.

(** X15. A row that does not parse raises [NoSuchElementException] when
    its [filetype] element has no [preview-file] below it, and
    [AttributeError] in every other case: no [filetype] element, no
    usable [cik] text, or no [data-adsh] attribute. *)
Theorem parse_table_row_fails :
  forall (r : table_row) (x : exn),
    parse_table_row r = Raise x <->
    (x = NoSuchElementException /\
     exists ft, el_filetype r = Some ft /\ filetype_preview ft = None) \/
    (x = AttributeError /\
     (el_filetype r = None \/
      exists ft lnk, el_filetype r = Some ft /\ filetype_preview ft = Some lnk /\
                     (cik_of r = None \/ attr_data_adsh lnk = None))).
Proof.
  intros r x. rewrite parse_table_row_cases. split.
  - destruct (el_filetype r) as [ft|].
    + destruct (filetype_preview ft) as [lnk|] eqn:Elnk.
      * destruct (cik_of r) as [cik|].
        -- destruct (attr_data_adsh lnk) as [adsh|] eqn:Eadsh; [discriminate|].
           intros H. inversion H. right. split; [reflexivity|]. right.
           exists ft, lnk. auto.
        -- intros H. inversion H. right. split; [reflexivity|]. right.
           exists ft, lnk. auto.
      * intros H. inversion H. left. split; [reflexivity|]. exists ft. auto.
    + intros H. inversion H. right. split; [reflexivity|]. left. reflexivity.
  - intros [(-> & ft & -> & ->)|(-> & [->|(ft & lnk & -> & -> & [->| ->])])];
      try reflexivity.
    destruct (cik_of r); reflexivity.
Qed.

(** X16. The company identifier is the second of the fields that single
    spaces cut the [cik] text into, whatever follows it; a [cik] text
    without a space gives none, so that the row does not parse. *)
Theorem cik_is_second_field :
  forall (r : table_row) (label cik rest : string),
    PyStr.contains_char " " label = false ->
    PyStr.contains_char " " cik = false ->
    (el_cik r = Some (label ++ " " ++ cik) -> cik_of r = Some cik) /\
    (el_cik r = Some (label ++ " " ++ cik ++ " " ++ rest) -> cik_of r = Some cik) /\
    (el_cik r = Some label ->
     cik_of r = None /\ exists x, parse_table_row r = Raise x).
Proof.
  intros r label cik rest Hl Hc. unfold cik_of. split; [|split].
  - intros ->. cbn [append]. rewrite (split_on_first " " label cik Hl).
    rewrite (split_on_absent " " cik Hc). reflexivity.
  - intros ->. cbn [append].
    rewrite (split_on_first " " label _ Hl).
    rewrite (split_on_first " " cik rest Hc).
    destruct (PyStr.split_on " " rest); reflexivity.
  - intros E. assert (Hnone : cik_of r = None).
    { unfold cik_of. rewrite E, (split_on_absent " " label Hl). reflexivity. }
    split; [rewrite E, (split_on_absent " " label Hl); reflexivity|].
    rewrite parse_table_row_cases, Hnone.
    destruct (el_filetype r) as [ft|]; [|eexists; reflexivity].
    destruct (filetype_preview ft); eexists; reflexivity.
Qed.

Lemma cik_is_second_field_witness :
  cik_of Sample.row_12340 = Some "0000012340"%string.
Proof.
  apply (proj1 (cik_is_second_field Sample.row_12340 "CIK" "0000012340" ""
                  eq_refl eq_refl)).
  reflexivity.
Defined.

Lemma lstrip_keeps_end c s :
  ends_with c s = false -> ends_with c (PyStr.lstrip c s) = false.
Proof.
  induction s as [|a s IH]; [reflexivity|].
  cbn [PyStr.lstrip]. intros H. destruct (Ascii.eqb a c) eqn:Ea; [|exact H].
  apply IH. cbn [ends_with] in H. destruct s; [congruence|exact H].
Qed.

Lemma rstrip_no_end c s : ends_with c s = false -> PyStr.rstrip c s = s.
Proof.
  induction s as [|a s IH]; [reflexivity|].
  cbn [ends_with PyStr.rstrip]. destruct s as [|b s].
  - intros ->. reflexivity.
  - intros H. rewrite (IH H). reflexivity.
Qed.

(** X17. For a company identifier that does not end in [0], the path
    segment of the two URLs is the identifier without its leading zeros:
    there [strip("0")] and [lstrip("0")] agree. *)
Theorem cik_segment_without_trailing_zero :
  forall (r : table_row) (rec : filing_record) (cik : string),
    parse_table_row r = Ok rec ->
    cik_of r = Some cik ->
    ends_with "0" cik = false ->
    exists adsh file_name,
      filing_details_url rec
      = archive_root ++ PyStr.lstrip "0" cik ++ "/" ++ PyStr.remove_char "-" adsh
                     ++ "/" ++ adsh ++ "-index.html" /\
      filing_document_url rec
      = archive_root ++ PyStr.lstrip "0" cik ++ "/" ++ PyStr.remove_char "-" adsh
                     ++ "/" ++ format_opt file_name.
Proof.
  intros r rec cik H Hcik Hend. rewrite parse_table_row_cases, Hcik in H.
  destruct (el_filetype r) as [ft|]; [|discriminate].
  destruct (filetype_preview ft) as [lnk|]; [|discriminate].
  destruct (attr_data_adsh lnk) as [adsh|]; [|discriminate].
  inversion H; subst rec. exists adsh, (attr_data_file_name lnk).
  cbn [record_of filing_details_url filing_document_url].
  unfold PyStr.strip. rewrite rstrip_no_end by (apply lstrip_keeps_end, Hend).
  split; reflexivity.
Qed.

Lemma cik_segment_without_trailing_zero_witness :
  exists adsh file_name,
    filing_details_url (Sample.record_named "A")
    = archive_root ++ PyStr.lstrip "0" "0000000042" ++ "/"
                   ++ PyStr.remove_char "-" adsh ++ "/" ++ adsh ++ "-index.html" /\
    filing_document_url (Sample.record_named "A")
    = archive_root ++ PyStr.lstrip "0" "0000000042" ++ "/"
                   ++ PyStr.remove_char "-" adsh ++ "/" ++ format_opt file_name.
Proof.
  apply (cik_segment_without_trailing_zero (Sample.row_named "A")
           (Sample.record_named "A") "0000000042"); reflexivity.
Defined.

(** ** The record parser: a page of rows *)

Lemma parse_table_rows_Forall2 rows : forall recs,
  _parse_table_rows rows = Ok recs <->
  Forall2 (fun r rec => parse_table_row r = Ok rec) rows recs.
Proof.
  induction rows as [|r rows IH]; intros recs; cbn [_parse_table_rows].
  - split.
    + intros H. inversion H. constructor.
    + intros H. inversion H. reflexivity.
  - unfold bind_result at 1. destruct (parse_table_row r) as [rec|x] eqn:Er.
    + unfold bind_result. destruct (_parse_table_rows rows) as [recs'|x] eqn:E.
      * split.
        -- intros H. injection H as <-. constructor; [exact Er|].
           apply IH. reflexivity.
        -- intros H. inversion H as [|? ? ? ? H1 H2]; subst.
           apply IH in H2. congruence.
      * split; [discriminate|].
        intros H. inversion H as [|? ? ? ? H1 H2]; subst.
        apply IH in H2. discriminate H2.
    + split; [discriminate|]. intros H. inversion H; subst. congruence.
Qed.

Lemma parse_table_rows_first_failure pre : forall r post x,
  Forall (fun r0 => exists rec, parse_table_row r0 = Ok rec) pre ->
  parse_table_row r = Raise x ->
  _parse_table_rows (pre ++ r :: post) = Raise x.
Proof.
  induction pre as [|r0 pre IH]; intros r post x Hpre Hr.
  - cbn [app _parse_table_rows]. rewrite Hr. reflexivity.
  - inversion Hpre as [|? ? (rec0 & H0) Hrest]; subst.
    cbn [app _parse_table_rows]. rewrite H0. cbn [bind_result].
    change ((fix app (l m : list table_row) {struct l} : list table_row :=
               match l with
               | [] => m
               | a :: l1 => a :: app l1 m
               end) pre (r :: post)) with (pre ++ r :: post)%list.
    rewrite (IH r post x Hrest Hr). reflexivity.
Qed.

(** X18. [_parse_table_rows] is all or nothing: it returns one record
    per row, in the order of the rows, exactly when every row parses;
    otherwise it raises what the first row that does not parse raises,
    and the records of the rows before it are lost with it. *)
Theorem parse_table_rows_all_or_nothing :
  forall (rows : list table_row),
    (forall recs,
       _parse_table_rows rows = Ok recs <->
       Forall2 (fun r rec => parse_table_row r = Ok rec) rows recs) /\
    (forall recs, _parse_table_rows rows = Ok recs ->
                  List.length recs = List.length rows) /\
    (forall pre r post x,
       rows = (pre ++ r :: post)%list ->
       Forall (fun r0 => exists rec, parse_table_row r0 = Ok rec) pre ->
       parse_table_row r = Raise x ->
       _parse_table_rows rows = Raise x).
Proof.
  intros rows. split; [|split].
  - apply parse_table_rows_Forall2.
  - intros recs H. apply parse_table_rows_Forall2 in H.
    symmetry. eapply Forall2_length, H.
  - intros pre r post x -> Hpre Hr.
    apply parse_table_rows_first_failure; assumption.
Qed.

Lemma parse_table_rows_all_or_nothing_witness :
  _parse_table_rows
    [Sample.row_named "A"; mkRow None None None None None None None None None]
  = Raise AttributeError.
Proof.
  apply (proj2 (proj2 (parse_table_rows_all_or_nothing
                         [Sample.row_named "A";
                          mkRow None None None None None None None None None]))
           [Sample.row_named "A"]
           (mkRow None None None None None None None None None) []
           AttributeError).
  - reflexivity.
  - constructor; [|constructor]. eexists. reflexivity.
  - reflexivity.
Defined.

Lemma parse_table_row_raises r x :
  parse_table_row r = Raise x -> x = AttributeError \/ x = NoSuchElementException.
Proof.
  rewrite parse_table_row_cases.
  destruct (el_filetype r) as [ft|]; [|intros H; inversion H; auto].
  destruct (filetype_preview ft) as [lnk|]; [|intros H; inversion H; auto].
  destruct (cik_of r) as [cik|]; [|intros H; inversion H; auto].
  destruct (attr_data_adsh lnk) as [adsh|]; [discriminate|].
  intros H; inversion H; auto.
Qed.

(** X19. One row that does not parse costs the whole page: when the
    table of a page has such a row, the page loop yields nothing for
    the page, so that the rows before and after it are not written
    either, prints that an unexpected error occurred with the exception
    of that row, and goes on. *)
Theorem malformed_row_loses_page :
  forall (r : string) (i : Z) (w : world) (p : page)
         (pre post : list table_row) (bad : table_row) (x : exn),
    next_load w = Loaded p ->
    results_table p = Ok (pre ++ bad :: post)%list ->
    Forall (fun r0 => exists rec, parse_table_row r0 = Ok rec) pre ->
    parse_table_row bad = Raise x ->
    page_records (next_load w) = [] /\
    exists w1,
      fetch_results_page r i w = (Return None, w1) /\
      files w1 = files w /\
      stdout w1 = (stdout w ++ [Log_page_unexpected i; Log_error x])%list.
Proof.
  intros r i w p pre post bad x Hload Htable Hpre Hbad.
  pose proof (parse_table_rows_first_failure pre bad post x Hpre Hbad) as Hrows.
  split.
  - unfold page_records, page_outcome. rewrite Hload, Htable, Hrows. reflexivity.
  - unfold next_load in Hload.
    unfold fetch_results_page, try_except, bind at 1.
    rewrite (fetch_page_Loaded _ _ _ Hload).
    unfold extract_html_table_rows, bind, current_page.
    cbn [self_driver current]. rewrite Htable. cbn [lift ret]. rewrite Hrows.
    cbn [lift throw].
    destruct (parse_table_row_raises _ _ Hbad) as [-> | ->];
      eexists; (split; [reflexivity|]); split; cbn; try reflexivity;
      rewrite <- app_assoc; reflexivity.
Qed.

Lemma malformed_row_loses_page_witness :
  page_records
    (Sample.page_showing "1 search results"
       [Sample.row_named "A"; mkRow None None None None None None None None None;
        Sample.row_named "B"]) = [].
Proof.
  pose (bad := mkRow None None None None None None None None None).
  pose (l := fun _ : nat =>
               Sample.page_showing "1 search results"
                 [Sample.row_named "A"; bad; Sample.row_named "B"]).
  destruct (malformed_row_loses_page "Q" 1 (Sample.fresh_world l)
              (mkPage (Ok "1 search results")
                      (Ok [Sample.row_named "A"; bad; Sample.row_named "B"]))
              [Sample.row_named "A"] [Sample.row_named "B"] bad AttributeError)
    as (H & _).
  - reflexivity.
  - reflexivity.
  - constructor; [|constructor]. eexists. reflexivity.
  - reflexivity.
  - exact H.
Defined.

(** ** The harvest of one finalized query *)

(** X20. The harvest of one finalized query whose first page shows a
    count [n] that parses (below [2^46] in absolute value, where the
    floating-point quotient of the source rounds as the exact one): the
    file gets its header if it was empty, then one line per record of
    every page that did not fail, in page order. The requests are the
    query itself and then its pages 1 to [ceil(n / 100)], one load each,
    and the turn returns normally with the finalized queries as they
    were. *)
Theorem harvest_request_writes_pages :
  forall (r : string) (w : world) (n : Z),
    count_outcome (next_load w) = Ok n ->
    Z.abs n < 2 ^ 46 ->
    exists w',
      harvest_request r w = (Return tt, w') /\
      self_search_requests w' = self_search_requests w /\
      clock (self_driver w')
      = (S (clock (self_driver w)) + Z.to_nat (ceil_div n 100))%nat /\
      requested (self_driver w')
      = (requested (self_driver w)
         ++ (BASE_URL ++ r)%string
            :: map (paginated_url r) (range 1 (ceil_div n 100 + 1)))%list /\
      files w' "results.csv"
      = (with_header (files w "results.csv")
         ++ map csv_row (records_of_loads (loads (self_driver w))
                           (S (clock (self_driver w)))
                           (Z.to_nat (ceil_div n 100))))%list.
Proof. intros r w n H _. apply harvest_request_pages, H. Qed.

Lemma harvest_request_writes_pages_witness :
  exists w',
    harvest_request "Q" (Sample.fresh_world Sample.third_page_fails)
    = (Return tt, w') /\
    files w' "results.csv"
    = fieldnames :: map csv_row (map Sample.record_named ["A"; "B"; "D"; "E"]%string).
Proof.
  destruct (harvest_request_writes_pages "Q"
              (Sample.fresh_world Sample.third_page_fails) 450)
    as (w' & E & _ & _ & _ & F).
  - reflexivity.
  - reflexivity.
  - exists w'. split; [exact E|]. rewrite F. vm_compute. reflexivity.
Defined.

(** X21. The harvest of one finalized query whose first page cannot be
    fetched, or shows no count that parses: the turn still returns
    normally, after one load and two printed lines. By then the file has
    been opened, so a file that was empty is left holding the header
    alone; no other line and no other file is written. *)
Theorem harvest_request_query_failure :
  forall (r : string) (w : world) (x : exn),
    count_outcome (next_load w) = Raise x ->
    exists w',
      harvest_request r w = (Return tt, w') /\
      self_search_requests w' = self_search_requests w /\
      clock (self_driver w') = S (clock (self_driver w)) /\
      requested (self_driver w')
      = (requested (self_driver w) ++ [(BASE_URL ++ r)%string])%list /\
      stdout w' = (stdout w ++ [Log_request_failed r x; Log_skipping])%list /\
      files w' "results.csv" = with_header (files w "results.csv") /\
      forall f, f <> "results.csv"%string -> files w' f = files w f.
Proof.
  intros r w x H.
  destruct (write_results_to_csv_opens (_fetch_search_request_results r)
              "results.csv" w) as (w0 & F0 & (S0 & D0 & O0 & X0) & E0).
  assert (Hx : count_outcome (next_load w0) = Raise x).
  { unfold next_load. rewrite D0. exact H. }
  eexists. split.
  - unfold harvest_request, try_except. rewrite E0. unfold bind at 1.
    rewrite (fetch_search_request_results_raises _ _ _ _ Hx).
    unfold bind, print. reflexivity.
  - cbn [after_fetch self_search_requests self_driver stdout files clock requested].
    rewrite D0, O0. split; [exact S0|]. split; [reflexivity|].
    split; [reflexivity|]. split; [rewrite <- app_assoc; reflexivity|].
    split; [exact F0|exact X0].
Qed.

Lemma harvest_request_query_failure_witness :
  exists w',
    harvest_request "Q"
      (Sample.fresh_world (fun _ => Load_raises PageCheckFailedError))
    = (Return tt, w') /\
    files w' "results.csv" = [fieldnames].
Proof.
  destruct (harvest_request_query_failure "Q"
              (Sample.fresh_world (fun _ => Load_raises PageCheckFailedError))
              PageCheckFailedError)
    as (w' & E & _ & _ & _ & _ & F & _).
  - reflexivity.
  - exists w'. split; [exact E|]. rewrite F. reflexivity.
Defined.



(** X23. [write_results_to_csv] keeps what it wrote when its generator
    raises: the header, if the file was empty, and the records of the
    pages yielded before the exception stay in the file; the exception
    goes on to the caller and the line reporting success is not
    printed. *)
Theorem write_results_keeps_rows_before_failure :
  forall (pages : list (list filing_record)) (x : exn) (filename : string)
         (w : world),
  exists w',
    write_results_to_csv (iter_pages_then_raise pages x) filename w
    = (Throw x, w') /\
    files w' filename
    = (with_header (files w filename) ++ map csv_row (List.concat pages))%list /\
    stdout w' = stdout w.
Proof.
  intros pages x filename w.
  destruct (write_results_to_csv_opens (iter_pages_then_raise pages x) filename w)
    as (w0 & F0 & (_ & _ & O0 & _) & E0).
  destruct (write_pages_spec filename pages w0) as (w1 & E1 & F1 & (_ & _ & O1 & _)).
  exists w1. split.
  - rewrite E0. unfold iter_pages_then_raise, csv_sink. unfold iter_pages in E1.
    unfold bind at 1. unfold bind at 1. rewrite E1. reflexivity.
  - split; [rewrite F1, F0; reflexivity|congruence].
Qed.

(** ** What a run leaves alone *)

Section Stable.

Context (R : world -> world -> Prop).

Hypothesis R_refl : forall w, R w w.
Hypothesis R_trans : forall w1 w2 w3, R w1 w2 -> R w2 w3 -> R w1 w3.
Hypothesis R_driver :
  forall w b, R w (mkWorld (self_search_requests w) b (stdout w) (files w)).
Hypothesis R_print : forall ev, stable R (print ev).
Hypothesis R_append : forall r, stable R (append_search_request r).
Hypothesis R_write :
  forall line, List.length line = 12%nat ->
               stable R (write_line "results.csv" line).

Lemma stable_same {A} (m : M A) :
  (forall w r w', m w = (r, w') -> w' = w) -> stable R m.
Proof. intros H w r w' E. rewrite (H _ _ _ E). apply R_refl. Qed.

Lemma stable_ret {A} (a : A) : stable R (ret a).
Proof. apply stable_same. intros w r w' E. inversion E. reflexivity. Qed.

Lemma stable_throw {A} x : stable R (@throw A x).
Proof. apply stable_same. intros w r w' E. inversion E. reflexivity. Qed.

Lemma stable_lift {A} (r : result A) : stable R (lift r).
Proof. destruct r; [apply stable_ret|apply stable_throw]. Qed.

Lemma stable_fetch_page url : stable R (fetch_page url).
Proof.
  intros w r w' E. rewrite fetch_page_after in E. inversion E. apply R_driver.
Qed.

Lemma stable_current_page : stable R current_page.
Proof.
  apply stable_same. intros w r w' E. unfold current_page in E.
  destruct (current _); inversion E; reflexivity.
Qed.

Lemma stable_bind {A B} (m : M A) (k : A -> M B) :
  stable R m -> (forall a, stable R (k a)) -> stable R (bind m k).
Proof.
  intros Hm Hk w r w' E. unfold bind in E.
  destruct (m w) as [[a|x|] w1] eqn:E1.
  - eapply R_trans; [eapply Hm, E1|eapply Hk, E].
  - inversion E; subst. eapply Hm, E1.
  - inversion E; subst. eapply Hm, E1.
Qed.

Lemma stable_try_except {A} (body : M A) handler :
  stable R body ->
  (forall x h, handler x = Some h -> stable R h) ->
  stable R (try_except body handler).
Proof.
  intros Hb Hh w r w' E. unfold try_except in E.
  destruct (body w) as [[a|x|] w1] eqn:E1.
  - inversion E; subst. eapply Hb, E1.
  - destruct (handler x) as [h|] eqn:Eh.
    + eapply R_trans; [eapply Hb, E1|eapply (Hh _ _ Eh), E].
    + inversion E; subst. eapply Hb, E1.
  - inversion E; subst. eapply Hb, E1.
Qed.

Lemma stable_for_each {Y} (xs : list Y) (body : Y -> M unit) :
  (forall x, stable R (body x)) -> stable R (for_each xs body).
Proof.
  intros Hb. induction xs as [|x xs IH]; simpl.
  - apply stable_ret.
  - apply stable_bind; [apply Hb|intros _; exact IH].
Qed.

Lemma stable_parse_number_of_results : stable R _parse_number_of_results.
Proof.
  unfold _parse_number_of_results.
  apply stable_bind; [apply stable_current_page|intros p].
  apply stable_bind; [apply stable_lift|intros t]. apply stable_lift.
Qed.

Lemma stable_first_page_count s e url : stable R (first_page_count s e url).
Proof.
  unfold first_page_count, fetch_first_page_results_number.
  apply stable_try_except.
  - apply stable_bind.
    + apply stable_try_except; [apply stable_fetch_page|].
      intros x h Hx. destruct x; try discriminate Hx. inversion Hx; subst.
      repeat (apply stable_bind; [apply R_print|intros _]). apply stable_throw.
    + intros _. apply stable_try_except.
      * apply stable_parse_number_of_results.
      * intros x h Hx. inversion Hx; subst.
        repeat (apply stable_bind; [apply R_print|intros _]). apply stable_throw.
  - intros x h Hx. destruct x; try discriminate Hx. inversion Hx; subst.
    apply stable_bind; [apply R_print|intros _; apply stable_ret].
Qed.

Lemma stable_partition_on_count recurse s e req n :
  (forall a b, stable R (recurse a b)) ->
  stable R (partition_on_count recurse s e req n).
Proof.
  intros Hrec. unfold partition_on_count. destruct (n <? 10000).
  - apply stable_bind; [apply R_print|intros _; apply R_append].
  - apply stable_bind; [apply R_print|intros _].
    apply stable_for_each. intros [i d]. unfold partition_sub_interval.
    apply stable_try_except.
    + apply stable_bind.
      * cbn [fst snd]. destruct (i =? 0); [apply stable_ret|apply stable_lift].
      * intros st. apply stable_bind; [apply stable_lift|].
        intros en. apply stable_bind; [apply R_print|].
        intros _. apply Hrec.
    + intros x h Hx. destruct x; try discriminate Hx. inversion Hx; subst.
      apply stable_ret.
Qed.

Lemma stable_generate_search_requests fuel : forall c s e,
  stable R (_generate_search_requests fuel c s e).
Proof.
  induction fuel as [|fuel IH]; intros c s e.
  - apply stable_same. intros w r w' E. inversion E. reflexivity.
  - cbn [_generate_search_requests].
    apply stable_bind; [apply stable_lift|intros req].
    apply stable_bind; [apply stable_first_page_count|intros n].
    apply stable_partition_on_count. intros a b. apply IH.
Qed.

Lemma stable_fetch_results_page r i : stable R (fetch_results_page r i).
Proof.
  unfold fetch_results_page. apply stable_try_except.
  - apply stable_bind; [apply stable_fetch_page|intros _].
    apply stable_bind; [|intros recs; apply stable_ret].
    unfold extract_html_table_rows.
    apply stable_bind; [apply stable_current_page|intros p].
    apply stable_bind; [apply stable_lift|intros rows]. apply stable_lift.
  - intros x h Hx. inversion Hx; subst.
    destruct x;
      repeat (apply stable_bind; [apply R_print|intros _]); apply stable_ret.
Qed.

Lemma stable_fetch_search_request_results r consume :
  (forall recs, stable R (consume recs)) ->
  stable R (_fetch_search_request_results r consume).
Proof.
  intros Hc. unfold _fetch_search_request_results.
  apply stable_bind; [apply stable_fetch_page|intros _].
  apply stable_bind.
  - unfold _compute_number_of_pages.
    apply stable_bind; [apply stable_parse_number_of_results|intros n].
    apply stable_bind; [apply R_print|intros _; apply stable_ret].
  - intros p. unfold fetch_pages. apply stable_for_each. intros i.
    apply stable_bind; [apply stable_fetch_results_page|].
    intros [recs|]; [apply Hc|apply stable_ret].
Qed.

Lemma stable_harvest_request r : stable R (harvest_request r).
Proof.
  unfold harvest_request. apply stable_try_except.
  - unfold write_results_to_csv.
    apply stable_bind.
    { apply stable_same. intros w r0 w' E. inversion E. reflexivity. }
    intros empty. apply stable_bind.
    { destruct empty; [apply R_write; reflexivity|apply stable_ret]. }
    intros _. apply stable_bind; [|intros _; apply R_print].
    apply stable_fetch_search_request_results. intros recs.
    apply stable_for_each. intros rec. apply R_write. reflexivity.
  - intros x h Hx. inversion Hx; subst.
    apply stable_bind; [apply R_print|intros _; apply R_print].
Qed.

Lemma stable_custom_text_search fuel c s e :
  stable R (custom_text_search fuel c s e).
Proof.
  unfold custom_text_search.
  apply stable_bind; [apply stable_generate_search_requests|intros _].
  apply stable_bind.
  - apply stable_same. intros w r w' E. inversion E. reflexivity.
  - intros rs. apply stable_for_each. intros r. apply stable_harvest_request.
Qed.

End Stable.

Lemma generate_search_requests_same_files fuel c s e :
  stable same_files (_generate_search_requests fuel c s e).
Proof.
  apply stable_generate_search_requests; unfold stable, same_files.
  - reflexivity.
  - intros w1 w2 w3 H1 H2. congruence.
  - reflexivity.
  - intros ev w r w' E. inversion E. reflexivity.
  - intros r0 w r w' E. inversion E. reflexivity.
Qed.

Lemma appends_lines_refl filename width w : appends_lines filename width w w.
Proof.
  split; [reflexivity|]. exists []. rewrite app_nil_r. split; [reflexivity|constructor].
Qed.

Lemma custom_text_search_appends_lines fuel c s e :
  stable (appends_lines "results.csv" 12) (custom_text_search fuel c s e).
Proof.
  apply stable_custom_text_search.
  - apply appends_lines_refl.
  - intros w1 w2 w3 (A1 & l1 & B1 & C1) (A2 & l2 & B2 & C2). split.
    + intros f Hf. rewrite A2, A1; auto.
    + exists (l1 ++ l2)%list. split.
      * rewrite B2, B1, app_assoc. reflexivity.
      * apply Forall_app. split; assumption.
  - intros w b. apply (appends_lines_refl "results.csv" 12 w).
  - intros ev w r w' E. inversion E. apply (appends_lines_refl "results.csv" 12 w).
  - intros r0 w r w' E. inversion E. apply (appends_lines_refl "results.csv" 12 w).
  - intros line Hlen w r w' E. inversion E. split; cbn [files].
    + intros f Hf. apply String.eqb_neq in Hf. rewrite Hf. reflexivity.
    + exists [line]. rewrite String.eqb_refl. split; [reflexivity|].
      constructor; [exact Hlen|constructor].
Qed.

(** X24. The partitioner never writes a file: whatever
    [_generate_search_requests] meets and however it ends, every file is
    afterwards as it was before. *)
Theorem partitioner_writes_no_file :
  forall fuel c (s e : Datetime.date) (w w' : world) r,
    _generate_search_requests fuel c s e w = (r, w') ->
    files w' = files w.
Proof.
  intros fuel c s e w w' r H.
  exact (generate_search_requests_same_files fuel c s e w r w' H).
Qed.

Lemma partitioner_writes_no_file_witness :
  files (snd (_generate_search_requests 5 Sample.keyword_a
                Sample.d2020_01_01 Sample.d2020_01_08
                (Sample.fresh_world Sample.saturated_once)))
  = Sample.no_files.
Proof.
  apply (partitioner_writes_no_file 5 Sample.keyword_a
           Sample.d2020_01_01 Sample.d2020_01_08
           (Sample.fresh_world Sample.saturated_once) _
           (fst (_generate_search_requests 5 Sample.keyword_a
                   Sample.d2020_01_01 Sample.d2020_01_08
                   (Sample.fresh_world Sample.saturated_once)))).
  vm_compute. reflexivity.
Defined.

(** X25. A harvest writes to [results.csv] and to no other file, and it
    only ever puts lines at the end of it, each of twelve cells: however
    [custom_text_search] ends, what the file held before is still there,
    at its beginning. *)
Theorem harvest_only_appends_to_results_csv :
  forall fuel c (s e : Datetime.date) (w w' : world) r,
    custom_text_search fuel c s e w = (r, w') ->
    (forall f, f <> "results.csv"%string -> files w' f = files w f) /\
    exists l,
      files w' "results.csv" = (files w "results.csv" ++ l)%list /\
      Forall (fun line => List.length line = List.length fieldnames) l.
Proof.
  intros fuel c s e w w' r H.
  exact (custom_text_search_appends_lines fuel c s e w r w' H).
Qed.

Lemma harvest_only_appends_to_results_csv_witness :
  exists l,
    files (snd (custom_text_search 3 Sample.keyword_a
                  Sample.d2020_01_01 Sample.d2020_01_02
                  (Sample.fresh_world Sample.no_matches))) "results.csv"
    = (Sample.no_files "results.csv" ++ l)%list /\
    Forall (fun line => List.length line = List.length fieldnames) l.
Proof.
  apply (harvest_only_appends_to_results_csv 3 Sample.keyword_a
           Sample.d2020_01_01 Sample.d2020_01_02
           (Sample.fresh_world Sample.no_matches) _
           (fst (custom_text_search 3 Sample.keyword_a
                   Sample.d2020_01_01 Sample.d2020_01_02
                   (Sample.fresh_world Sample.no_matches)))).
  vm_compute. reflexivity.
Defined.

(** X26. A fetch failure during partitioning ends the whole harvest
    before it writes anything: when a load that the partitioner asks for
    raises an exception other than [ValueError] and [IndexError],
    [custom_text_search] ends with that exception right after that
    load, no finalized query is paginated, and no file is written or
    given a header. *)
Theorem fetch_failure_while_partitioning_writes_nothing :
  forall fuel c (s e : Datetime.date) (w w1 : world) r (k : nat) (x : exn),
    _generate_search_requests fuel c s e w = (r, w1) ->
    (clock (self_driver w) <= k < clock (self_driver w1))%nat ->
    loads (self_driver w) k = Load_raises x ->
    x <> ValueError -> x <> IndexError ->
    custom_text_search fuel c s e w = (Throw x, w1) /\
    clock (self_driver w1) = S k /\
    files w1 = files w.
Proof.
  intros fuel c s e w w1 r k x Hrun Hk Hx Hv Hi.
  destruct (aborts_generate_search_requests fuel c s e w r w1 Hrun)
    as (_ & _ & H).
  destruct (H k x Hk Hx Hv Hi) as (-> & Hc).
  split; [|split; [exact Hc|]].
  - unfold custom_text_search. apply bind_Throw. exact Hrun.
  - exact (generate_search_requests_same_files fuel c s e w _ w1 Hrun).
Qed.

Lemma fetch_failure_while_partitioning_writes_nothing_witness :
  fst (custom_text_search 5 Sample.keyword_a
         Sample.d2020_01_01 Sample.d2020_01_08
         (Sample.fresh_world Sample.fails_on_second))
  = Throw (OtherException 7).
Proof.
  pose (w := Sample.fresh_world Sample.fails_on_second).
  pose (run := _generate_search_requests 5 Sample.keyword_a
                 Sample.d2020_01_01 Sample.d2020_01_08 w).
  destruct (fetch_failure_while_partitioning_writes_nothing 5 Sample.keyword_a
              Sample.d2020_01_01 Sample.d2020_01_08 w (snd run) (fst run)
              1%nat (OtherException 7)) as (Hr & _).
  - vm_compute. reflexivity.
  - vm_compute. lia.
  - reflexivity.
  - discriminate.
  - discriminate.
  - fold w. rewrite Hr. reflexivity.
Defined.
